(** * brightsky: query engine, parsers and poller, embedded and verified

    The development follows the layout of the Python package:
    - [Py]       exceptions, results and generator outputs shared by all modules;
    - [Db]       the three tables the code reads ([weather], [sources],
                 [parsed_files]);
    - [Query]    [brightsky/query.py];
    - [Parsers]  [brightsky/parsers.py];
    - [Polling]  [brightsky/polling.py].

    Conventions.  A [datetime] is the number of seconds since the epoch (UTC),
    a [timedelta(days=1)] is [86400].  Measurement values (Python floats) are
    exact rationals [Q]; tests on them ([< 0], [> 360], [== v]) and the one
    arithmetic step of the sanitizers ([-= 360]) are taken over [Q]. *)

From Stdlib Require Import QArith Lqa Ascii.
From stdpp Require Import base list gmap strings sorting.

Close Scope Q_scope.
Open Scope Z_scope.

(** ** Python exceptions, results, generators *)

Module Py.

(** An exception is its class name and its message. *)
Inductive exn := Exn (cls : string) (msg : string).

Definition exn_class (e : exn) : string := let 'Exn c _ := e in c.

Inductive result (A : Type) :=
| Ok (a : A)
| Raise (e : exn).
Arguments Ok {A} a.
Arguments Raise {A} e.

Definition bind {A B} (r : result A) (k : A -> result B) : result B :=
  match r with
  | Ok a => k a
  | Raise e => Raise e
  end.

(** What a generator has produced when it stops: the items yielded so far and
    the exception that ended it, if one did. *)
Record gen (A : Type) := Gen { yielded : list A; ended : option exn }.
Arguments Gen {A} yielded ended.
Arguments yielded {A} g.
Arguments ended {A} g.

(** A [logging] call at level WARNING. *)
Inductive log := Warning (msg : string).

(** Truth value of a float-or-None: [None] and [0.0] are false. *)
Definition truthy (v : option Q) : bool :=
  match v with
  | None => false
  | Some q => negb (Qeq_bool q 0)
  end.

Definition Qltb (x y : Q) : bool := negb (Qle_bool y x).

End Py.

#[global] Instance result_ret : MRet Py.result := @Py.Ok.
#[global] Instance result_bind : MBind Py.result := fun A B k r => Py.bind r k.

(** ** The measurement columns of a weather record *)

Inductive field :=
| temperature | wind_direction | wind_speed | precipitation | sunshine | pressure_msl.

#[global] Instance field_eq_dec : EqDecision field.
Proof. solve_decision. Defined.

#[global] Instance field_countable : Countable field.
Proof.
refine (inj_countable'
  (fun f => match f with
            | temperature => 0%nat | wind_direction => 1%nat | wind_speed => 2%nat
            | precipitation => 3%nat | sunshine => 4%nat | pressure_msl => 5%nat
            end)
  (fun n => match n with
            | 0%nat => temperature | 1%nat => wind_direction | 2%nat => wind_speed
            | 3%nat => precipitation | 4%nat => sunshine | _ => pressure_msl
            end) _).
by intros [].
Defined.

Definition all_fields : list field :=
[temperature; wind_direction; wind_speed; precipitation; sunshine; pressure_msl].

(** The key of a measurement in a record. *)
Definition field_name (f : field) : string :=
match f with
| temperature => "temperature"
| wind_direction => "wind_direction"
| wind_speed => "wind_speed"
| precipitation => "precipitation"
| sunshine => "sunshine"
| pressure_msl => "pressure_msl"
end.

Record measurements := Measurements {
m_temperature : option Q;
m_wind_direction : option Q;
m_wind_speed : option Q;
m_precipitation : option Q;
m_sunshine : option Q;
m_pressure_msl : option Q;
}.

(** [m[f]] *)
Definition mget (f : field) (m : measurements) : option Q :=
match f with
| temperature => m_temperature m
| wind_direction => m_wind_direction m
| wind_speed => m_wind_speed m
| precipitation => m_precipitation m
| sunshine => m_sunshine m
| pressure_msl => m_pressure_msl m
end.

(** [m[f] = v] *)
Definition mset (f : field) (v : option Q) (m : measurements) : measurements :=
match f with
| temperature => Measurements v (m_wind_direction m) (m_wind_speed m) (m_precipitation m) (m_sunshine m) (m_pressure_msl m)
| wind_direction => Measurements (m_temperature m) v (m_wind_speed m) (m_precipitation m) (m_sunshine m) (m_pressure_msl m)
| wind_speed => Measurements (m_temperature m) (m_wind_direction m) v (m_precipitation m) (m_sunshine m) (m_pressure_msl m)
| precipitation => Measurements (m_temperature m) (m_wind_direction m) (m_wind_speed m) v (m_sunshine m) (m_pressure_msl m)
| sunshine => Measurements (m_temperature m) (m_wind_direction m) (m_wind_speed m) (m_precipitation m) v (m_pressure_msl m)
| pressure_msl => Measurements (m_temperature m) (m_wind_direction m) (m_wind_speed m) (m_precipitation m) (m_sunshine m) v
end.

(** ** Database tables *)

Module Db.

(** A row of [weather]: key columns and the nullable measurements. *)
Record weather_row := WeatherRow {
  w_timestamp : Z;
  w_source_id : Z;
  w_values : measurements;
}.

(** A row of [sources].  [station_id] is the national station code
    (selected as [station_id] by the parsers and as [dwd_station_id] by
    the query module). *)
Record source_row := SourceRow {
  s_id : Z;
  s_station_id : option string;
  s_wmo_station_id : option string;
  s_station_name : string;
  s_observation_type : string;
  s_lat : Q;
  s_lon : Q;
  s_height : Q;
}.

(** A row of [parsed_files]. *)
Record parsed_file_row := ParsedFileRow {
  p_url : string;
  p_last_modified : Z;
  p_file_size : Z;
}.

(** The server-side functions the SQL of [query.sources] calls; the schema
    and the [earthdistance] extension are not part of the package.
    - [earth_distance lat lon lat' lon'] is
      [earth_distance(ll_to_earth(lat, lon), ll_to_earth(lat', lon'))];
    - [earth_box_contains lat lon max_dist lat' lon'] is
      [earth_box(ll_to_earth(lat, lon), max_dist) @> ll_to_earth(lat', lon')];
    - [observation_type_rank] is the sort position of an [observation_type]
      value. *)
Record functions := Functions {
  earth_distance : Q -> Q -> Q -> Q -> Q;
  earth_box_contains : Q -> Q -> Q -> Q -> Q -> bool;
  observation_type_rank : string -> Z;
}.

Record t := Database {
  weather : list weather_row;
  sources : list source_row;
  parsed_files : list parsed_file_row;
  fns : functions;
}.

End Db.

(** ** brightsky/query.py *)

Module Query.
Import Py.

(** [dict(row)] for a row of [weather]; [_fill_missing_fields] later adds the
    key [fallback_source_ids] to some of them ([None]: key absent). *)
Record weather_dict := WeatherDict {
timestamp : Z;
source_id : Z;
values : measurements;
fallback_source_ids : option (gmap field Z);
}.

(** [dict(row)] for a row selected by [sources]; [distance] is selected in
    the lat/lon mode only. *)
Record source_dict := SourceDict {
source : Db.source_row;
distance : option Q;
}.

Definition id (s : source_dict) : Z := Db.s_id (source s).

(** The dictionaries returned by [weather] and [sources]. *)
Inductive value :=
| Weather (rows : list weather_dict)
| Sources (rows : list source_dict).

Definition response := list (string * value).

Definition _make_dicts (rows : list Db.weather_row) : list weather_dict :=
  map (fun r => WeatherDict (Db.w_timestamp r) (Db.w_source_id r) (Db.w_values r) None) rows.

(** The [source_id] argument of [_weather]: one id, or a list of ids
    ([isinstance(source_id, list)]). *)
Inductive source_arg :=
| Int (i : Z)
| List (ids : list Z).

(** [array_position(ids, x)]: index of the first occurrence. *)
Fixpoint array_position (ids : list Z) (x : Z) : nat :=
  match ids with
  | [] => 0%nat
  | i :: ids' => if bool_decide (i = x) then 0%nat else S (array_position ids' x)
  end.

(** The WHERE clause built by [_weather]. *)
Definition where_ (date last_date : Z) (source_id : source_arg)
    (not_null : list field) (r : Db.weather_row) : Prop :=
  (date ≤ Db.w_timestamp r ≤ last_date) ∧
  match source_id with
  | Int i => Db.w_source_id r = i
  | List ids => Db.w_source_id r ∈ ids
  end ∧
  Forall (fun element => mget element (Db.w_values r) ≠ None) not_null.

#[global] Instance where_dec date last_date source_id not_null r :
  Decision (where_ date last_date source_id not_null r).
Proof. unfold where_. destruct source_id; apply _. Defined.

(** The ORDER BY clause built by [_weather]. *)
Definition order_by (source_id : source_arg) (r1 r2 : Db.weather_row) : Prop :=
  match source_id with
  | Int _ => Db.w_timestamp r1 ≤ Db.w_timestamp r2
  | List ids =>
      Db.w_timestamp r1 < Db.w_timestamp r2 ∨
      (Db.w_timestamp r1 = Db.w_timestamp r2 ∧
       (array_position ids (Db.w_source_id r1) ≤ array_position ids (Db.w_source_id r2))%nat)
  end.

#[global] Instance order_by_dec source_id : RelDecision (order_by source_id).
Proof. intros r1 r2. unfold order_by. destruct source_id; apply _. Defined.

(** [SELECT DISTINCT ON (timestamp)] over ordered rows: the first row of
    every run of equal timestamps. *)
Fixpoint distinct_on_timestamp (prev : option Z) (rows : list Db.weather_row)
    : list Db.weather_row :=
  match rows with
  | [] => []
  | r :: rows' =>
      if bool_decide (prev = Some (Db.w_timestamp r))
      then distinct_on_timestamp prev rows'
      else r :: distinct_on_timestamp (Some (Db.w_timestamp r)) rows'
  end.

(** [not_null] is a set of column names; the empty set and [None] add
    nothing to the WHERE clause and are both written [[]]. *)
Definition _weather (db : Db.t) (date last_date : Z) (source_id : source_arg)
    (not_null : list field) : list weather_dict :=
  _make_dicts
    (distinct_on_timestamp None
       (merge_sort (order_by source_id)
          (filter (where_ date last_date source_id not_null) (Db.weather db)))).

(** [set(k for k, v in row.items() if v is None)]; [timestamp] and
    [source_id] are never null. *)
Definition missing_row_fields (row : weather_dict) : list field :=
  filter (fun k => mget k (values row) = None) all_fields.

(** The dict comprehension [{row['timestamp']: row for row in rows}]. *)
Definition by_timestamp (rows : list weather_dict) : gmap Z weather_dict :=
  foldl (fun m row => <[timestamp row := row]> m) ∅ rows.

(** The body of [for f in fields] on one incomplete row. *)
Definition fill_field (fallback_row : weather_dict) (row : weather_dict) (f : field)
    : weather_dict :=
  WeatherDict (timestamp row) (source_id row)
    (mset f (mget f (values fallback_row)) (values row))
    (Some (<[f := source_id fallback_row]> (default ∅ (fallback_source_ids row)))).

(** The body of [for row, fields in incomplete_rows]. *)
Definition fill_row (fallback_rows : gmap Z weather_dict)
    (row : weather_dict) (fields : list field) : weather_dict :=
  match fallback_rows !! timestamp row with
  | Some fallback_row =>
      foldl (fill_field fallback_row)
        (WeatherDict (timestamp row) (source_id row) (values row) (Some ∅))
        fields
  | None => row
  end.

(** The rows are updated in place; the result is the list [weather_rows]
    as the caller sees it afterwards. *)
Definition _fill_missing_fields (db : Db.t) (weather_rows : list weather_dict)
    (date last_date : Z) (source_ids : list Z) : list weather_dict :=
  let incomplete_rows :=
    filter (fun rf => rf.2 ≠ []) (map (fun row => (row, missing_row_fields row)) weather_rows) in
  let missing_fields := foldl (fun acc rf => list_union acc rf.2) [] incomplete_rows in
  match incomplete_rows, last incomplete_rows with
  | first :: _, Some final =>
      let min_date := timestamp first.1 in
      let max_date := timestamp final.1 in
      let fallback_rows :=
        by_timestamp (_weather db min_date max_date (List source_ids) missing_fields) in
      map (fun row =>
             let fields := missing_row_fields row in
             if bool_decide (fields ≠ []) then fill_row fallback_rows row fields else row)
          weather_rows
  | _, _ => weather_rows
  end.

(** The SELECT list, WHERE clause and ORDER BY clause [sources] builds from
    its arguments. *)
Record sources_sql := SourcesSql {
select : Db.source_row -> source_dict;
where_sources : Db.source_row -> bool;
order_by_sources : source_dict -> source_dict -> bool;
}.

Definition by_observation_type (db : Db.t) (a b : source_dict) : bool :=
  bool_decide
    (Db.observation_type_rank (Db.fns db) (Db.s_observation_type (source a)) ≤
     Db.observation_type_rank (Db.fns db) (Db.s_observation_type (source b))).

Definition by_distance (a b : source_dict) : bool :=
  match distance a, distance b with
  | Some x, Some y => Qle_bool x y
  | _, _ => true
  end.

Definition by_observation_type_then_distance (db : Db.t) (a b : source_dict) : bool :=
  let rank s := Db.observation_type_rank (Db.fns db) (Db.s_observation_type (source s)) in
  bool_decide (rank a < rank b) || (bool_decide (rank a = rank b) && by_distance a b).

Definition sources_sql_of (db : Db.t) (lat lon : option Q)
    (dwd_station_id wmo_station_id : option string) (source_id : option Z)
    (max_dist : Q) (ignore_type : bool) : result sources_sql :=
  let plain r := SourceDict r None in
  match source_id, dwd_station_id, wmo_station_id, lat, lon with
  | Some i, _, _, _, _ =>
      Ok (SourcesSql plain (fun r => bool_decide (Db.s_id r = i)) (by_observation_type db))
  | None, Some d, _, _, _ =>
      Ok (SourcesSql plain (fun r => bool_decide (Db.s_station_id r = Some d))
            (by_observation_type db))
  | None, None, Some w, _, _ =>
      Ok (SourcesSql plain (fun r => bool_decide (Db.s_wmo_station_id r = Some w))
            (by_observation_type db))
  | None, None, None, Some la, Some lo =>
      let dist r := Db.earth_distance (Db.fns db) la lo (Db.s_lat r) (Db.s_lon r) in
      Ok (SourcesSql
            (fun r => SourceDict r (Some (dist r)))
            (fun r => Db.earth_box_contains (Db.fns db) la lo max_dist (Db.s_lat r) (Db.s_lon r)
                      && Qltb (dist r) max_dist)
            (if ignore_type then by_distance else by_observation_type_then_distance db))
  | _, _, _, _, _ =>
      Raise (Exn "ValueError"
               "Please supply lat/lon or dwd_station_id or wmo_station_id or source_id")
  end.

(** The value under the key ['sources'] of what [sources] returns. *)
Definition sources_rows (db : Db.t) (lat lon : option Q)
    (dwd_station_id wmo_station_id : option string) (source_id : option Z)
    (max_dist : Q) (ignore_type : bool) : result (list source_dict) :=
  sql ← sources_sql_of db lat lon dwd_station_id wmo_station_id source_id max_dist ignore_type;
  let rows :=
    merge_sort (fun a b => Is_true (order_by_sources sql a b))
      (map (select sql) (List.filter (where_sources sql) (Db.sources db))) in
  match rows with
  | [] => Raise (Exn "LookupError" "No sources match your criteria")
  | _ => Ok rows
  end.

Definition sources (db : Db.t) (lat lon : option Q)
    (dwd_station_id wmo_station_id : option string) (source_id : option Z)
    (max_dist : Q) (ignore_type : bool) : result response :=
  rows ← sources_rows db lat lon dwd_station_id wmo_station_id source_id max_dist ignore_type;
  Ok [("sources", Sources rows)].

(** [datetime.timedelta(days=1)] *)
Definition one_day : Z := 86400.

Definition default_max_dist : Q := 50000%Q.

Definition used_source_ids (weather_rows : list weather_dict) : list Z :=
  map source_id weather_rows ++
  flat_map (fun row => (map_to_list (default ∅ (fallback_source_ids row))).*2) weather_rows.

Definition weather (db : Db.t) (date : Z) (last_date : option Z) (lat lon : option Q)
    (dwd_station_id wmo_station_id : option string) (source_id : option Z)
    (max_dist : Q) (fallback : bool) : result response :=
  let last_date := match last_date with Some d => d | None => date + one_day end in
  match source_id with
  | Some sid =>
      let weather := _weather db date last_date (Int sid) [] in
      _ ← (match weather with
           | [] => sources db None None None None (Some sid) default_max_dist false
           | _ => Ok []
           end);
      Ok [("weather", Weather weather)]
  | None =>
      sources_rows ← sources_rows db lat lon dwd_station_id wmo_station_id None max_dist false;
      let source_ids := map id sources_rows in
      let weather_rows := _weather db date last_date (List source_ids) [] in
      let weather_rows :=
        if fallback then _fill_missing_fields db weather_rows date last_date source_ids
        else weather_rows in
      let used := used_source_ids weather_rows in
      Ok [("weather", Weather weather_rows);
          ("sources", Sources (filter (fun s => id s ∈ used) sources_rows))]
  end.

End Query.

(** ** brightsky/parsers.py *)

Module Parsers.
Import Py.

(** [brightsky.settings] and [brightsky.units] are not part of the package
    sources; the parsers take what they read from them as arguments. *)
Record settings := Settings {
  MIN_DATE : Z;
  MAX_DATE : option Z;
}.

Record units := Units {
  celsius_to_kelvin : Q -> Q;
  hpa_to_pa : Q -> Q;
  kmh_to_ms : Q -> Q;
  minutes_to_seconds : Q -> Q;
}.

(** What a row holds under the column of a measurement: the missing-value
    sentinel of the format (['---'], ['-999']), the text of a number, read
    by [float], or something the code cannot read.  [Unreadable e] stands
    for a column the row does not have ([KeyError]), for the [None] that
    [csv.DictReader] puts into a short row ([AttributeError] on the string
    method called on it) and for text that [float] rejects ([ValueError]);
    [e] is the exception raised. *)
Inductive cell :=
| Sentinel
| Number (q : Q)
| Unreadable (e : exn).

Definition float_or_none (c : cell) : option Q :=
  match c with
  | Number q => Some q
  | Sentinel | Unreadable _ => None
  end.

(** The conditional expression of the comprehensions of [parse_row] and
    [parse_elements]: [None] for the sentinel, the float otherwise. *)
Definition read (c : cell) : result (option Q) :=
  match c with
  | Unreadable e => Raise e
  | Sentinel | Number _ => Ok (float_or_none c)
  end.

(** *** String helpers: [str.endswith], [os.path.basename], [str.rstrip('_')] *)

Definition endswith (s suffix : string) : bool :=
  let n := String.length s in
  let m := String.length suffix in
  if (m <=? n)%nat then String.eqb (String.substring (n - m) m s) suffix else false.

Definition startswith (s pre : string) : bool := String.prefix pre s.

Fixpoint basename_from (cur s : string) : string :=
  match s with
  | EmptyString => cur
  | String c s' =>
      if Ascii.eqb c "/"%char then basename_from "" s'
      else basename_from (cur +:+ String c "") s'
  end.

Definition basename (path : string) : string := basename_from "" path.

Fixpoint rstrip_underscore (s : string) : string :=
  match s with
  | EmptyString => EmptyString
  | String c s' =>
      let t := rstrip_underscore s' in
      if String.eqb t "" && Ascii.eqb c "_"%char then EmptyString else String c t
  end.

(** *** class MOSMIXParser *)

Module MOSMIXParser.

(** One record of [parse_station]: the base record and one value per
    entry of [ELEMENTS]. *)
Record record := Record_ {
  observation_type : string;
  source : string;
  station_id : string;
  station_name : string;
  lat : Q;
  lon : Q;
  height : Q;
  timestamp : Z;
  values : measurements;
}.

(** [r[f]] and [r[f] = v] *)
Definition get (f : field) (r : record) : option Q := mget f (values r).

Definition set_value (f : field) (v : option Q) (r : record) : record :=
  Record_ (observation_type r) (source r) (station_id r) (station_name r)
    (lat r) (lon r) (height r) (timestamp r) (mset f v (values r)).

(** [r[f] and r[f] < bound] and [r[f] and r[f] > bound] *)
Definition and_lt (v : option Q) (bound : Q) : bool :=
  truthy v && match v with Some q => Qltb q bound | None => false end.

Definition and_gt (v : option Q) (bound : Q) : bool :=
  truthy v && match v with Some q => Qltb bound q | None => false end.

(** The records yielded, in order, and the warnings logged. *)
Fixpoint sanitize_records (records : list record) : list record * list log :=
  match records with
  | [] => ([], [])
  | r :: records' =>
      let '(r, w1) :=
        if and_lt (get precipitation r) 0%Q
        then (set_value precipitation None r,
              [Warning "Ignoring negative precipitation value"])
        else (r, []) in
      let '(r, w2) :=
        if and_gt (get wind_direction r) 360%Q
        then (set_value wind_direction
                (option_map (fun d => (d - 360)%Q) (get wind_direction r)) r,
              [Warning "Fixing out-of-bounds wind direction"])
        else (r, []) in
      let '(out, logs) := sanitize_records records' in
      (r :: out, w1 ++ w2 ++ logs)
  end.

(** A [Placemark] of the forecast file as [parse_station] reads it: the
    texts of [name] and [description], the three numbers of [coordinates]
    (longitude, latitude, height), and for each column of [ELEMENTS] the
    values of its [Forecast] element, ['-'] read as [None]. *)
Record placemark := Placemark {
  name : string;
  description : string;
  coordinates : Q * Q * Q;
  forecast : field -> list (option Q);
}.

Definition ELEMENTS : list (string * field) :=
  [("TTT", temperature); ("DD", wind_direction); ("FF", wind_speed);
   ("RR1c", precipitation); ("SunD1", sunshine); ("PPPP", pressure_msl)].

(** [zip] over the values of [records]: one row per timestamp, as long as
    every column has a value left. *)
Fixpoint zip_records (timestamps : list Z) (columns : field -> list (option Q))
    : list (Z * measurements) :=
  match timestamps with
  | [] => []
  | t :: timestamps' =>
      if forallb (fun f => negb (bool_decide (columns f = []))) all_fields then
        let v := fun f => mjoin (head (columns f)) in
        (t, Measurements (v temperature) (v wind_direction) (v wind_speed)
              (v precipitation) (v sunshine) (v pressure_msl))
        :: zip_records timestamps' (fun f => tail (columns f))
      else []
  end.

(** The [assert] on the length of a column is taken as executed. *)
Definition parse_station (station_sel : placemark) (timestamps : list Z)
    (source : string) : result (list record) :=
  let station_id := name station_sel in
  let station_name := description station_sel in
  let '(lon, lat, height) := coordinates station_sel in
  if forallb (fun element_column =>
                bool_decide (length (forecast station_sel element_column.2) =
                             length timestamps))
       ELEMENTS
  then
    Ok (map (fun row =>
               Record_ "forecast" source station_id station_name lat lon height
                 row.1 row.2)
          (zip_records timestamps (forecast station_sel)))
  else Raise (Exn "AssertionError" "").

(** The forecast file as [parse] reads it: the instants of the [TimeStep]
    elements, the texts of [ProductID] and [IssueTime], the placemarks. *)
Record kml := Kml {
  TimeStep : list Z;
  ProductID_IssueTime : list string;
  Placemarks : list placemark;
}.

Definition parse_timestamps (sel : kml) : list Z := TimeStep sel.

Definition parse_source (sel : kml) : string :=
  String.concat ":" (ProductID_IssueTime sel).

(** The loop of [parse] over the placemarks: the records yielded, how the
    generator ended, and the warnings logged. *)
Fixpoint parse_stations (station_selectors : list placemark) (timestamps : list Z)
    (source : string) : gen record * list log :=
  match station_selectors with
  | [] => (Gen [] None, [])
  | station_sel :: station_selectors' =>
      match parse_station station_sel timestamps source with
      | Raise e => (Gen [] (Some e), [])
      | Ok records =>
          let '(out, logs) := sanitize_records records in
          let '(g, logs') := parse_stations station_selectors' timestamps source in
          (Gen (out ++ yielded g) (ended g), logs ++ logs')
      end
  end.

Definition parse (sel : kml) : gen record * list log :=
  let timestamps := parse_timestamps sel in
  let source := parse_source sel in
  parse_stations (Placemarks sel) timestamps source.

End MOSMIXParser.

(** *** class CurrentObservationsParser *)

Module CurrentObservationsParser.

(** A row of the semicolon-separated file as [csv.DictReader] returns it:
    the text under [DATE_COLUMN]; what [strptime] makes of the [DATE_COLUMN]
    and [HOUR_COLUMN] cells, an instant or the exception raised ([KeyError]
    without such a column, [ValueError] for text that is no date and hour);
    and the cells of the columns listed in [ELEMENTS], by the element they
    map to. *)
Record row := Row {
  surface_observations : string;
  date_and_hour : result Z;
  element_cell : field -> cell;
}.

Record record := Record_ {
  observation_type : string;
  station_id : string;
  station_name : string;
  lat : Q;
  lon : Q;
  height : Q;
  values : measurements;
  timestamp : Z;
}.

Definition convert (f : field) (converter : Q -> Q) (m : measurements) : measurements :=
  match mget f m with
  | Some v => mset f (Some (converter v)) m
  | None => m
  end.

(** [CONVERTERS], applied in the order of the dictionary. *)
Definition convert_units (u : units) (m : measurements) : measurements :=
  convert wind_speed (kmh_to_ms u)
    (convert temperature (celsius_to_kelvin u)
       (convert sunshine (minutes_to_seconds u)
          (convert pressure_msl (hpa_to_pa u) m))).

(** The columns are read in the order of [ELEMENTS], then the timestamp;
    the first cell that cannot be read ends [parse_row]. *)
Definition parse_row (u : units) (r : row) : result (measurements * Z) :=
  t ← read (element_cell r temperature);
  wd ← read (element_cell r wind_direction);
  ws ← read (element_cell r wind_speed);
  p ← read (element_cell r precipitation);
  pr ← read (element_cell r pressure_msl);
  s ← read (element_cell r sunshine);
  let record := Measurements t wd ws p s pr in
  timestamp ← date_and_hour r;
  Ok (convert_units u record, timestamp).

(** [ORDER BY id DESC LIMIT 1] over the matching rows. *)
Definition greatest_id (rows : list Db.source_row) : option Db.source_row :=
  foldr (fun r best =>
           match best with
           | Some b => if bool_decide (Db.s_id b < Db.s_id r) then Some r else Some b
           | None => Some r
           end) None rows.

Definition load_location (db : Db.t) (station_id : string)
    : result (Q * Q * Q * string) :=
  let rows :=
    greatest_id
      (filter (fun r => Db.s_observation_type r = "forecast" ∧
                        Db.s_station_id r = Some station_id) (Db.sources db)) in
  match rows with
  | None => Raise (Exn "ValueError" ("Unable to find location for station " +:+ station_id))
  | Some r => Ok (Db.s_lat r, Db.s_lon r, Db.s_height r, Db.s_station_name r)
  end.

(** [next(reader)] on an exhausted reader raises [StopIteration], which a
    generator body turns into [RuntimeError]. *)
Definition stop_iteration : exn := Exn "RuntimeError" "generator raised StopIteration".

(** The [for row in reader] loop of [parse]. *)
Fixpoint yield_rows (u : units) (station_id station_name : string) (lat lon height : Q)
    (reader : list row) : gen record :=
  match reader with
  | [] => Gen [] None
  | row :: reader' =>
      match parse_row u row with
      | Raise e => Gen [] (Some e)
      | Ok (values, timestamp) =>
          let rest := yield_rows u station_id station_name lat lon height reader' in
          Gen (Record_ "current" station_id station_name lat lon height values timestamp
                 :: yielded rest)
              (ended rest)
      end
  end.

Definition parse (db : Db.t) (u : units) (reader : list row)
    (lat lon height : option Q) (station_name : option string) : gen record :=
  match reader with
  | [] => Gen [] (Some stop_iteration)
  | first :: reader =>
      let station_id := rstrip_underscore (surface_observations first) in
      let location :=
        match lat, lon, height, station_name with
        | Some la, Some lo, Some h, Some n => Ok (la, lo, h, n)
        | _, _, _, _ => load_location db station_id
        end in
      match location with
      | Raise e => Gen [] (Some e)
      | Ok (lat, lon, height, station_name) =>
          match reader with
          | [] => Gen [] (Some stop_iteration)
          | _german_titles :: reader =>
              yield_rows u station_id station_name lat lon height reader
          end
      end
  end.

End CurrentObservationsParser.

(** *** class ObservationsParser and its subclasses *)

Module ObservationsParser.

(** The class attributes a subclass overrides. *)
Record variant := Variant {
  class_name : string;
  elements : list (field * string);
  converters : list (field * (Q -> Q));
}.

Definition TemperatureObservationsParser (u : units) : variant :=
  Variant "TemperatureObservationsParser"
    [(temperature, "TT_TU")] [(temperature, celsius_to_kelvin u)].

Definition PrecipitationObservationsParser : variant :=
  Variant "PrecipitationObservationsParser" [(precipitation, "  R1")] [].

Definition WindObservationsParser : variant :=
  Variant "WindObservationsParser" [(wind_speed, "   F"); (wind_direction, "   D")] [].

Definition SunshineObservationsParser (u : units) : variant :=
  Variant "SunshineObservationsParser"
    [(sunshine, "SD_SO")] [(sunshine, minutes_to_seconds u)].

Definition PressureObservationsParser (u : units) : variant :=
  Variant "PressureObservationsParser"
    [(pressure_msl, "  P0")] [(pressure_msl, hpa_to_pa u)].

(** [self]: the class and what [Parser.__init__] stores. *)
Record parser := Parser {
  cls : variant;
  url : option string;
  path : string;
}.

(** A row of [Metadaten_Geographie_<id>.txt]; [von_datum] is the instant
    [strptime] reads from the cell. *)
Record geography_row := GeographyRow {
  von_datum : Z;
  Geogr_Breite : Q;
  Geogr_Laenge : Q;
  Stationshoehe : Q;
  Stationsname : string;
}.

(** A row of [produkt_*.txt]; [MESS_DATUM] is the instant [strptime] reads
    from the cell, [column] gives what the row holds under a column name. *)
Record product_row := ProductRow {
  MESS_DATUM : Z;
  column : string -> cell;
}.

Inductive member :=
| Geography (rows : list geography_row)
| Product (rows : list product_row)
| Other.

(** A ZIP archive: its members in archive order. *)
Definition ZipFile := list (string * member).

Definition namelist (zf : ZipFile) : list string := zf.*1.

(** [zf.open(name)]: the member registered last under that name. *)
Definition zf_open (zf : ZipFile) (name : string) : result member :=
  match List.find (fun nm => String.eqb nm.1 name) (rev zf) with
  | Some nm => Ok nm.2
  | None => Raise (Exn "KeyError" ("There is no item named " +:+ name +:+ " in the archive"))
  end.

Definition location : Type := Q * Q * Q * string.

(** Records as [parse_records] yields them, and as [parse] does. *)
Record record := Record_ {
  source : string;
  lat : Q;
  lon : Q;
  height : Q;
  station_name : string;
  timestamp : Z;
  element_values : list (field * option Q);
}.

Record parsed := Parsed {
  observation_type : string;
  station_id : string;
  fields : record;
}.

(** [re.match(r'Metadaten_Geographie_(\d+)\.txt', filename)], group 1. *)
Definition is_digit (c : ascii) : bool :=
  let n := nat_of_ascii c in (48 <=? n)%nat && (n <=? 57)%nat.

Fixpoint take_digits (s : string) : string * string :=
  match s with
  | EmptyString => (EmptyString, EmptyString)
  | String c s' =>
      if is_digit c
      then let '(digits, rest) := take_digits s' in (String c digits, rest)
      else (EmptyString, s)
  end.

Fixpoint strip_prefix (pre s : string) : option string :=
  match pre, s with
  | EmptyString, _ => Some s
  | String a pre', String b s' => if Ascii.eqb a b then strip_prefix pre' s' else None
  | String _ _, EmptyString => None
  end.

Definition match_geography_name (filename : string) : option string :=
  match strip_prefix "Metadaten_Geographie_" filename with
  | Some rest =>
      let '(digits, rest) := take_digits rest in
      if String.eqb digits "" then None
      else if startswith rest ".txt" then Some digits else None
  | None => None
  end.

Definition parse_station_id (self : parser) (zf : ZipFile) : result string :=
  match omap match_geography_name (namelist zf) with
  | station_id :: _ => Ok station_id
  | [] => Raise (Exn "ValueError" ("Unable to parse station ID for " +:+ path self))
  end.

Definition parse_observation_type (self : parser) : result string :=
  let filename := basename (path self) in
  if endswith filename "_akt.zip" then Ok "recent"
  else if endswith filename "_hist.zip" then Ok "historical"
  else Raise (Exn "ValueError"
                ("Unable to determine observation type from path " +:+ path self)).

(** [history[date_from] = v] on an insertion-ordered dictionary: an existing
    key keeps its place, a new one goes last. *)
Fixpoint dict_set {V} (k : Z) (v : V) (d : list (Z * V)) : list (Z * V) :=
  match d with
  | [] => [(k, v)]
  | (k', v') :: d' =>
      if bool_decide (k' = k) then (k', v) :: d' else (k', v') :: dict_set k v d'
  end.

Definition location_of (row : geography_row) : location :=
  (Geogr_Breite row, Geogr_Laenge row, Stationshoehe row, Stationsname row).

(** The [for row in reader] loop of [parse_lat_lon_history]. *)
Definition history_of (rows : list geography_row) : list (Z * location) :=
  foldl (fun history row => dict_set (von_datum row) (location_of row) history) [] rows.

Definition parse_lat_lon_history (zf : ZipFile) (station_id : string)
    : result (list (Z * location)) :=
  f ← zf_open zf ("Metadaten_Geographie_" +:+ station_id +:+ ".txt");
  match f with
  | Geography rows => Ok (history_of rows)
  | _ => Raise (Exn "KeyError" "von_datum")
  end.

(** The [elements] comprehension: the cells are read in the order of
    [self.elements]; the first one that cannot be read ends it. *)
Fixpoint read_elements (row : product_row) (elements : list (field * string))
    : result (list (field * option Q)) :=
  match elements with
  | [] => Ok []
  | (element, element_key) :: elements' =>
      v ← read (column row element_key);
      els ← read_elements row elements';
      Ok ((element, v) :: els)
  end.

(** One turn of the [converters] loop; a [KeyError] carries the missing
    key. *)
Definition convert (elements : list (field * option Q)) (ec : field * (Q -> Q))
    : result (list (field * option Q)) :=
  match List.find (fun kv => bool_decide (kv.1 = ec.1)) elements with
  | None => Raise (Exn "KeyError" (field_name ec.1))
  | Some _ =>
      Ok (map (fun kv => if bool_decide (kv.1 = ec.1)
                         then (kv.1, option_map ec.2 kv.2) else kv) elements)
  end.

Definition parse_elements (self : parser) (row : product_row)
    : result (list (field * option Q)) :=
  elements ← read_elements row (elements (cls self));
  foldl (fun acc ec => els ← acc; convert els ec) (Ok elements) (converters (cls self)).

(** The inner [for date, lat_lon_height_name in lat_lon_history.items()]
    loop; [current] is what the four local variables hold on entry
    ([None]: not yet bound). *)
Fixpoint select_location (lat_lon_history : list (Z * location)) (timestamp : Z)
    (current : option location) : option location :=
  match lat_lon_history with
  | [] => current
  | (date, lat_lon_height_name) :: rest =>
      if bool_decide (date > timestamp) then current
      else select_location rest timestamp (Some lat_lon_height_name)
  end.

(** The [for row in reader] loop of [parse_records]. *)
Fixpoint parse_rows (st : settings) (self : parser) (filename : string)
    (lat_lon_history : list (Z * location)) (current : option location)
    (reader : list product_row) : gen record :=
  match reader with
  | [] => Gen [] None
  | row :: reader' =>
      let timestamp := MESS_DATUM row in
      if bool_decide (timestamp < MIN_DATE st)
      then parse_rows st self filename lat_lon_history current reader'
      else if match MAX_DATE st with
              | Some max_date => bool_decide (timestamp > max_date)
              | None => false
              end
      then parse_rows st self filename lat_lon_history current reader'
      else
        match select_location lat_lon_history timestamp current with
        | None =>
            Gen [] (Some (Exn "UnboundLocalError"
                            "local variable 'lat' referenced before assignment"))
        | Some (lat, lon, height, station_name) =>
            match parse_elements self row with
            | Raise e => Gen [] (Some e)
            | Ok els =>
                let rest :=
                  parse_rows st self filename lat_lon_history
                    (Some (lat, lon, height, station_name)) reader' in
                Gen (Record_ ("Observations:Recent:" +:+ filename)
                       lat lon height station_name timestamp els :: yielded rest)
                    (ended rest)
            end
        end
  end.

Definition parse_records (st : settings) (self : parser) (zf : ZipFile)
    (lat_lon_history : list (Z * location)) : gen record :=
  let product_filenames :=
    List.filter (fun fn => startswith fn "produkt_") (namelist zf) in
  match product_filenames with
  | [filename] =>
      match zf_open zf filename with
      | Ok (Product reader) => parse_rows st self filename lat_lon_history None reader
      | Ok _ => Gen [] (Some (Exn "KeyError" "MESS_DATUM"))
      | Raise e => Gen [] (Some e)
      end
  | _ => Gen [] (Some (Exn "AssertionError" "Unexpected product count"))
  end.

(** The ignored-values file after [yaml.safe_load] and the conversion of its
    timestamp keys: [url -> timestamp -> element -> value]. *)
Definition ignored_file := gmap string (gmap Z (list (field * Q))).

(** What the name [_ignored_values] is bound to on the class object
    [ObservationsParser]: the property the class body defines under that
    name, or the dictionary the property's loader stores under it. *)
Inductive class_binding :=
| TheProperty
| Loaded (ignored : ignored_file).

(** The class body binds [_ignored_values], so [hasattr] holds from the
    start. *)
Definition class_body_binding : option class_binding := Some TheProperty.

(** The getter of the property [_ignored_values].  [file] is the content
    of [settings.IGNORED_VALUES_PATH] ([None]: no such file). *)
Definition _ignored_values (binding : option class_binding) (file : option ignored_file)
    (self : parser) : result (gmap Z (list (field * Q))) :=
  let bound :=
    match binding with
    | Some b => b
    | None => Loaded (default ∅ file)
    end in
  match bound with
  | Loaded ignored => Ok (default ∅ (url self ≫= fun u => ignored !! u))
  | TheProperty => Raise (Exn "AttributeError" "'property' object has no attribute 'get'")
  end.

(** The names an attribute access [self.<name>] finds: set by
    [Parser.__init__] or by the [logger] property on the instance, or bound
    in the body of [ObservationsParser] (and its subclasses) or of [Parser]. *)
Inductive attribute :=
| InstanceAttribute
| DictAttribute
| IgnoredValuesProperty
| OtherClassAttribute.

Definition attributes : list (string * attribute) :=
  [("url", InstanceAttribute); ("path", InstanceAttribute);
   ("downloaded_files", InstanceAttribute); ("_logger", InstanceAttribute);
   ("elements", DictAttribute); ("converters", DictAttribute);
   ("_ignored_values", IgnoredValuesProperty);
   ("should_skip", OtherClassAttribute); ("parse", OtherClassAttribute);
   ("parse_station_id", OtherClassAttribute);
   ("parse_observation_type", OtherClassAttribute);
   ("parse_lat_lon_history", OtherClassAttribute);
   ("parse_records", OtherClassAttribute); ("parse_elements", OtherClassAttribute);
   ("sanitize_record", OtherClassAttribute);
   ("DEFAULT_URL", OtherClassAttribute); ("logger", OtherClassAttribute);
   ("__init__", OtherClassAttribute); ("download", OtherClassAttribute);
   ("cleanup", OtherClassAttribute)].

(** [self.<name>.get(timestamp, {})] *)
Definition getattr_get (file : option ignored_file) (self : parser) (name : string)
    (timestamp : Z) : result (list (field * Q)) :=
  match List.find (fun a => String.eqb a.1 name) attributes with
  | None =>
      Raise (Exn "AttributeError"
               ("'" +:+ class_name (cls self) +:+ "' object has no attribute '"
                +:+ name +:+ "'"))
  | Some (_, IgnoredValuesProperty) =>
      d ← _ignored_values class_body_binding file self;
      Ok (default [] (d !! timestamp))
  | Some (_, DictAttribute) => Ok []
  | Some _ => Raise (Exn "AttributeError" "object has no attribute 'get'")
  end.

Definition set_element (element : field) (v : option Q) (r : record) : record :=
  Record_ (source r) (lat r) (lon r) (height r) (station_name r) (timestamp r)
    (map (fun kv => if bool_decide (kv.1 = element) then (kv.1, v) else kv)
       (element_values r)).

Definition get_element (element : field) (r : record) : result (option Q) :=
  match List.find (fun kv => bool_decide (kv.1 = element)) (element_values r) with
  | Some kv => Ok kv.2
  | None => Raise (Exn "KeyError" (field_name element))
  end.

(** [record[element] == ignored_value] *)
Definition eq_value (v : option Q) (ignored_value : Q) : bool :=
  match v with
  | Some q => Qeq_bool q ignored_value
  | None => false
  end.

(** The [for element, ignored_value in ignores.items()] loop. *)
Fixpoint apply_ignores (ignores : list (field * Q)) (r : record)
    : result (record * list log) :=
  match ignores with
  | [] => Ok (r, [])
  | (element, ignored_value) :: ignores' =>
      v ← get_element element r;
      if eq_value v ignored_value
      then apply_ignores ignores' (set_element element None r)
      else
        out ← apply_ignores ignores' r;
        Ok (out.1, Warning "Ignored value no longer exists" :: out.2)
  end.

Definition sanitize_record (file : option ignored_file) (self : parser) (r : record)
    : result (record * list log) :=
  ignores ← getattr_get file self "ignored_values" (timestamp r);
  apply_ignores ignores r.

(** The [for record in self.parse_records(...)] loop of [parse]: [records]
    and [tail] are what [parse_records] yields and how it ends. *)
Fixpoint sanitize_and_yield (file : option ignored_file) (self : parser)
    (observation_type station_id : string) (records : list record) (tail : option exn)
    : gen parsed * list log :=
  match records with
  | [] => (Gen [] tail, [])
  | r :: records' =>
      match sanitize_record file self r with
      | Raise e => (Gen [] (Some e), [])
      | Ok (r', w) =>
          let '(rest, logs) :=
            sanitize_and_yield file self observation_type station_id records' tail in
          (Gen (Parsed observation_type station_id r' :: yielded rest) (ended rest),
           w ++ logs)
      end
  end.

Definition parse (st : settings) (file : option ignored_file) (self : parser)
    (zf : ZipFile) : gen parsed * list log :=
  let setup :=
    station_id ← parse_station_id self zf;
    observation_type ← parse_observation_type self;
    lat_lon_history ← parse_lat_lon_history zf station_id;
    Ok (station_id, observation_type, lat_lon_history) in
  match setup with
  | Raise e => (Gen [] (Some e), [])
  | Ok (station_id, observation_type, lat_lon_history) =>
      let records := parse_records st self zf lat_lon_history in
      sanitize_and_yield file self observation_type station_id
        (yielded records) (ended records)
  end.

(** *** [should_skip] *)

(** The proleptic Gregorian ordinal of a date, as [datetime] computes it. *)
Definition is_leap (year : Z) : bool :=
  (year mod 4 =? 0) && (negb (year mod 100 =? 0) || (year mod 400 =? 0)).

Definition days_before_year (year : Z) : Z :=
  let y := year - 1 in y * 365 + y / 4 - y / 100 + y / 400.

Definition days_in_month (year month : Z) : Z :=
  if month =? 2 then (if is_leap year then 29 else 28)
  else if (month =? 4) || (month =? 6) || (month =? 9) || (month =? 11) then 30
  else 31.

Definition days_before_month (year month : Z) : Z :=
  foldr (fun m acc => days_in_month year m + acc) 0 (seqZ 1 (month - 1)).

Definition ymd2ord (year month day : Z) : Z :=
  days_before_year year + days_before_month year month + day.

(** The value of a string of decimal digits. *)
Definition digit_value (c : ascii) : Z := Z.of_nat (nat_of_ascii c) - 48.

Fixpoint decimal_from (acc : Z) (s : string) : Z :=
  match s with
  | EmptyString => acc
  | String c s' => decimal_from (10 * acc + digit_value c) s'
  end.

Definition decimal (s : string) : Z := decimal_from 0 s.

Fixpoint digits_only (s : string) : bool :=
  match s with
  | EmptyString => true
  | String c s' => is_digit c && digits_only s'
  end.

(** [datetime.strptime(s, '%Y%m%d').replace(tzinfo=tzutc())] on a string of
    eight digits, as an instant.  The message of the [ValueError] depends on
    what is wrong with the date; one message stands for all of them. *)
Definition strptime_Ymd (s : string) : result Z :=
  let year := decimal (String.substring 0 4 s) in
  let month := decimal (String.substring 4 2 s) in
  let day := decimal (String.substring 6 2 s) in
  if bool_decide (1 ≤ year) && bool_decide (1 ≤ month ≤ 12) &&
     bool_decide (1 ≤ day ≤ days_in_month year month)
  then Ok (86400 * (ymd2ord year month day - ymd2ord 1970 1 1))
  else Raise (Exn "ValueError"
                ("time data '" +:+ s +:+ "' does not match format '%Y%m%d'")).

(** [re.search(r'_(\d{8})_(\d{8})_hist\.zip$', path)]: groups 1 and 2.  The
    pattern has a fixed length and ends at the end of the string, or before
    a newline that ends the string. *)
Definition strip_final_newline (s : string) : string :=
  if endswith s (String "010" EmptyString)
  then String.substring 0 (String.length s - 1) s else s.

Definition search_hist_dates (path : string) : option (string * string) :=
  let s := strip_final_newline path in
  let n := String.length s in
  if (27 <=? n)%nat then
    let tail := String.substring (n - 27) 27 s in
    let start_date := String.substring 1 8 tail in
    let end_date := String.substring 10 8 tail in
    if String.eqb (String.substring 0 1 tail) "_" && digits_only start_date &&
       String.eqb (String.substring 9 1 tail) "_" && digits_only end_date &&
       String.eqb (String.substring 18 9 tail) "_hist.zip"
    then Some (start_date, end_date) else None
  else None.

Definition should_skip (st : settings) (self : parser) : result bool :=
  match search_hist_dates (path self) with
  | Some (group1, group2) =>
      end_date ← strptime_Ymd group2;
      if bool_decide (end_date < MIN_DATE st) then Ok true
      else
        match MAX_DATE st with
        | Some max_date =>
            start_date ← strptime_Ymd group1;
            if bool_decide (start_date > max_date) then Ok true else Ok false
        | None => Ok false
        end
  | None => Ok false
  end.

End ObservationsParser.

(** *** [get_parser] *)

Inductive parser_class :=
| MOSMIX
| CurrentObservations
| WindObservations
| PressureObservations
| PrecipitationObservations
| SunshineObservations
| TemperatureObservations.

(** [parser_cls.__name__] *)
Definition class_name_of (c : parser_class) : string :=
  match c with
  | MOSMIX => "MOSMIXParser"
  | CurrentObservations => "CurrentObservationsParser"
  | WindObservations => "WindObservationsParser"
  | PressureObservations => "PressureObservationsParser"
  | PrecipitationObservations => "PrecipitationObservationsParser"
  | SunshineObservations => "SunshineObservationsParser"
  | TemperatureObservations => "TemperatureObservationsParser"
  end.

(** [\w] on ASCII text. *)
Definition is_word (c : ascii) : bool :=
  let n := nat_of_ascii c in
  ((48 <=? n)%nat && (n <=? 57)%nat) || ((65 <=? n)%nat && (n <=? 90)%nat) ||
  ((97 <=? n)%nat && (n <=? 122)%nat) || (n =? 95)%nat.

(** [\w{n}] at the start of [s]: what follows it. *)
Fixpoint take_word (n : nat) (s : string) : option string :=
  match n with
  | O => Some s
  | S n' =>
      match s with
      | String c s' => if is_word c then take_word n' s' else None
      | EmptyString => None
      end
  end.

(** [$]: the end of the string, or a newline that ends it. *)
Definition at_end (rest : string) : bool :=
  String.eqb rest "" || String.eqb rest (String "010" EmptyString).

(** [re.match(r'MOSMIX_S_LATEST_240\.kmz$', filename)] *)
Definition match_mosmix (filename : string) : bool :=
  match ObservationsParser.strip_prefix "MOSMIX_S_LATEST_240.kmz" filename with
  | Some rest => at_end rest
  | None => false
  end.

(** [re.match(r'\w{5}-BEOB\.csv$', filename)] *)
Definition match_beob (filename : string) : bool :=
  match take_word 5 filename with
  | Some rest =>
      match ObservationsParser.strip_prefix "-BEOB.csv" rest with
      | Some rest' => at_end rest'
      | None => false
      end
  | None => false
  end.

(** The table [parsers], in the order of the dictionary. *)
Definition parsers : list ((string -> bool) * parser_class) :=
  [(match_mosmix, MOSMIX);
   (match_beob, CurrentObservations);
   (fun filename => startswith filename "stundenwerte_FF_", WindObservations);
   (fun filename => startswith filename "stundenwerte_P0_", PressureObservations);
   (fun filename => startswith filename "stundenwerte_RR_", PrecipitationObservations);
   (fun filename => startswith filename "stundenwerte_SD_", SunshineObservations);
   (fun filename => startswith filename "stundenwerte_TU_", TemperatureObservations)].

Definition get_parser (filename : string) : option parser_class :=
  snd <$> List.find (fun pattern_parser => pattern_parser.1 filename) parsers.

End Parsers.

(** ** brightsky/polling.py *)

Module Polling.

Record file_info := FileInfo {
  url : string;
  parser : string;
  last_modified : Z;
  file_size : Z;
}.

(** The dict comprehension over [SELECT * FROM parsed_files]. *)
Definition parsed_files (db : Db.t) : gmap string (Z * Z) :=
  foldl (fun m row => <[Db.p_url row := (Db.p_last_modified row, Db.p_file_size row)]> m)
    ∅ (Db.parsed_files db).

(** [listing] is what [poll_url] yields for the seed URLs, one after the
    other: the files found by the directory walk that have a parser and are
    not skipped. *)
Definition poll (db : Db.t) (listing : list file_info) : list file_info :=
  let parsed_files := parsed_files db in
  filter (fun file_info =>
            let fingerprint := (last_modified file_info, file_size file_info) in
            parsed_files !! url file_info ≠ Some fingerprint)
         listing.

(** *** [DWDPoller.parse] and [DWDPoller.poll_url] *)

(** An anchor of a directory page: its [href] ([None] when the attribute is
    missing), and what the code reads from the text node that follows it
    (regular expression, [dateutil], [int]): the time and the size of the
    listing line, or the exception raised when there is no such text or it
    is no listing line. *)
Record anchor := Anchor {
  link : option string;
  fingerprint : Py.result (Z * Z);
}.

(** [for x in xs: yield from f(x)] *)
Fixpoint yield_from_each {A B : Type} (f : A -> Py.gen B) (xs : list A) : Py.gen B :=
  match xs with
  | [] => Py.Gen [] None
  | x :: xs' =>
      let g := f x in
      match Py.ended g with
      | Some e => g
      | None =>
          let g' := yield_from_each f xs' in
          Py.Gen (Py.yielded g ++ Py.yielded g') (Py.ended g')
      end
  end.

Section DWDPoller.

Variable st : Parsers.settings.
Variable u : Parsers.units.

(** [brightsky.utils.cache_path] is not part of the package sources. *)
Variable cache_path : string -> string.

(** [requests.get(url)] with [raise_for_status()]: the anchors of the page,
    in document order, or the exception of the request. *)
Variable get : string -> Py.result (list anchor).

(** The subclasses of [ObservationsParser] among the parser classes. *)
Definition observations_class (parser_cls : Parsers.parser_class)
    : option Parsers.ObservationsParser.variant :=
  match parser_cls with
  | Parsers.MOSMIX | Parsers.CurrentObservations => None
  | Parsers.WindObservations => Some Parsers.ObservationsParser.WindObservationsParser
  | Parsers.PressureObservations => Some (Parsers.ObservationsParser.PressureObservationsParser u)
  | Parsers.PrecipitationObservations =>
      Some Parsers.ObservationsParser.PrecipitationObservationsParser
  | Parsers.SunshineObservations => Some (Parsers.ObservationsParser.SunshineObservationsParser u)
  | Parsers.TemperatureObservations =>
      Some (Parsers.ObservationsParser.TemperatureObservationsParser u)
  end.

(** [Parser.__init__(url=url)] in a class without [DEFAULT_URL]; with an
    empty [url] no path is set, and [str(self.path)] is ['None']. *)
Definition init (cls : Parsers.ObservationsParser.variant) (url : string)
    : Parsers.ObservationsParser.parser :=
  if String.eqb url "" then Parsers.ObservationsParser.Parser cls None "None"
  else Parsers.ObservationsParser.Parser cls (Some url) (cache_path url).

(** [parser_cls(url=link_url).should_skip()]: [Parser.should_skip] unless the
    class overrides it. *)
Definition should_skip (parser_cls : Parsers.parser_class) (link_url : string)
    : Py.result bool :=
  match observations_class parser_cls with
  | Some cls => Parsers.ObservationsParser.should_skip st (init cls link_url)
  | None => Py.Ok false
  end.

(** One turn of the loop over the anchors; [acc] is [(directories, files)]. *)
Definition scan_anchor (url : string) (acc : list string * list file_info)
    (anchor_sel : anchor) : Py.result (list string * list file_info) :=
  let '(directories, files) := acc in
  match link anchor_sel with
  | None =>
      Py.Raise (Py.Exn "AttributeError" "'NoneType' object has no attribute 'startswith'")
  | Some link =>
      if Parsers.startswith link "." then Py.Ok acc
      else
        let link_url := url +:+ link in
        if Parsers.endswith link "/" then Py.Ok (directories ++ [link_url], files)
        else
          lm_fs ← fingerprint anchor_sel;
          match Parsers.get_parser link with
          | Some parser_cls =>
              skip ← should_skip parser_cls link_url;
              if skip : bool then Py.Ok acc
              else Py.Ok (directories,
                          files ++ [FileInfo link_url (Parsers.class_name_of parser_cls)
                                      lm_fs.1 lm_fs.2])
          | None => Py.Ok acc
          end
  end.

Fixpoint scan (url : string) (acc : list string * list file_info)
    (anchors : list anchor) : Py.result (list string * list file_info) :=
  match anchors with
  | [] => Py.Ok acc
  | anchor_sel :: anchors' =>
      acc' ← scan_anchor url acc anchor_sel;
      scan url acc' anchors'
  end.

(** [parse(url, resp_text)], run to its end; [poll_url] is the method it
    calls for the directories. *)
Definition parse (poll_url : string -> Py.gen file_info) (url : string)
    (resp_text : list anchor) : Py.gen file_info :=
  match scan url ([], []) resp_text with
  | Py.Raise e => Py.Gen [] (Some e)
  | Py.Ok (directories, files) =>
      let below := yield_from_each poll_url directories in
      Py.Gen (files ++ Py.yielded below) (Py.ended below)
  end.

(** [poll_url(url)], its generator run to its end.  [depth] bounds the
    nesting of the walk, as the recursion limit of the interpreter does. *)
Fixpoint poll_url (depth : nat) (url : string) : Py.gen file_info :=
  match depth with
  | O => Py.Gen [] (Some (Py.Exn "RecursionError" "maximum recursion depth exceeded"))
  | S depth' =>
      match get url with
      | Py.Raise e => Py.Gen [] (Some e)
      | Py.Ok resp_text => parse (poll_url depth') url resp_text
      end
  end.

End DWDPoller.

End Polling.

(** ** Example data *)

Module Examples.
Import Py.

(** Unit conversions as the usual definitions give them. *)
Definition si_units : Parsers.units :=
  Parsers.Units (fun c => Qplus c (27315 # 100)%Q) (fun h => Qmult h 100%Q)
    (fun k => Qdiv k (36 # 10)%Q) (fun m => Qmult m 60%Q).

Definition no_functions : Db.functions :=
  Db.Functions (fun _ _ _ _ => 0%Q) (fun _ _ _ _ _ => true)
    (fun t => if String.eqb t "current" then 0
              else if String.eqb t "recent" then 1
              else if String.eqb t "historical" then 2 else 3).

Definition empty_db : Db.t := Db.Database [] [] [] no_functions.

(** A MOSMIX record with the given wind direction and precipitation. *)
Definition forecast (wd p : option Q) : Parsers.MOSMIXParser.record :=
  Parsers.MOSMIXParser.Record_ "forecast" "MOSMIX:2020-03-13T09:00:00.000Z" "01001"
    "JAN MAYEN" (7093 # 100)%Q (-867 # 100)%Q 10%Q 1584090000
    (Measurements (Some (26825 # 100)%Q) wd (Some 8%Q) p (Some 0%Q) (Some 99000%Q)).

(** What [strptime] makes of a cell that holds no date. *)
Definition no_date : Py.result Z :=
  Py.Raise (Py.Exn "ValueError" "time data does not match format '%d.%m.%y %H:%M'").

(** A current-observations file for station 01001: the station row, the
    row of German titles, and one data row with 23.5 degrees and a
    precipitation of -0.1. *)
Definition beob_file : list Parsers.CurrentObservationsParser.row :=
  [Parsers.CurrentObservationsParser.Row "01001_" no_date (fun _ => Parsers.Sentinel);
   Parsers.CurrentObservationsParser.Row "Datum" no_date (fun _ => Parsers.Sentinel);
   Parsers.CurrentObservationsParser.Row "13.03.20" (Py.Ok 1584090000)
     (fun f => match f with
               | temperature => Parsers.Number (235 # 10)%Q
               | precipitation => Parsers.Number (-1 # 10)%Q
               | _ => Parsers.Sentinel
               end)].

(** A database whose only source is the forecast station 01001. *)
Definition forecast_station : Db.source_row :=
  Db.SourceRow 1 (Some "01001") None "JAN MAYEN" "forecast" (525 # 10)%Q (134 # 10)%Q 40%Q.

Definition forecast_db : Db.t := Db.Database [] [forecast_station] [] no_functions.

(** Settings with no effective date limits. *)
Definition open_settings : Parsers.settings := Parsers.Settings 0 None.

(** A historical temperature archive of station 00044: one location entry,
    one hourly row. *)
Definition hist_parser : Parsers.ObservationsParser.parser :=
  Parsers.ObservationsParser.Parser
    (Parsers.ObservationsParser.TemperatureObservationsParser si_units)
    (Some "https://opendata.dwd.de/climate_environment/CDC/observations_germany/climate/hourly/air_temperature/historical/stundenwerte_TU_00044_20070401_20191231_hist.zip")
    "/cache/stundenwerte_TU_00044_20070401_20191231_hist.zip".

(** A row of an air-temperature product file: a temperature under [TT_TU],
    and no column of the other measurements. *)
Definition tu_row (timestamp : Z) (celsius : Q) : Parsers.ObservationsParser.product_row :=
  Parsers.ObservationsParser.ProductRow timestamp
    (fun c => if String.eqb c "TT_TU" then Parsers.Number celsius
              else Parsers.Unreadable (Py.Exn "KeyError" c)).

Definition hist_zip : Parsers.ObservationsParser.ZipFile :=
  [("Metadaten_Geographie_00044.txt",
    Parsers.ObservationsParser.Geography
      [Parsers.ObservationsParser.GeographyRow 1175385600
         (529336 # 10000)%Q (82370 # 10000)%Q 44%Q "Grossenkneten"]);
   ("produkt_tu_stunde_20070401_20191231_00044.txt",
    Parsers.ObservationsParser.Product [tu_row 1577836800 (35 # 10)%Q])].

(** A recent archive whose location history lists the newer entry (valid
    from 20) before the older one (valid from 10), and one row at 25. *)
Definition akt_parser : Parsers.ObservationsParser.parser :=
  Parsers.ObservationsParser.Parser
    (Parsers.ObservationsParser.TemperatureObservationsParser si_units)
    None "/cache/stundenwerte_TU_00044_akt.zip".

Definition newer_entry : Parsers.ObservationsParser.geography_row :=
  Parsers.ObservationsParser.GeographyRow 20 (53 # 1)%Q (8 # 1)%Q 50%Q "New site".

Definition older_entry : Parsers.ObservationsParser.geography_row :=
  Parsers.ObservationsParser.GeographyRow 10 (52 # 1)%Q (7 # 1)%Q 40%Q "Old site".

Definition unsorted_zip : Parsers.ObservationsParser.ZipFile :=
  [("Metadaten_Geographie_00044.txt",
    Parsers.ObservationsParser.Geography [newer_entry; older_entry]);
   ("produkt_tu_stunde_akt_00044.txt",
    Parsers.ObservationsParser.Product [tu_row 25 (35 # 10)%Q])].

Definition sorted_zip : Parsers.ObservationsParser.ZipFile :=
  [("Metadaten_Geographie_00044.txt",
    Parsers.ObservationsParser.Geography [older_entry; newer_entry]);
   ("produkt_tu_stunde_akt_00044.txt",
    Parsers.ObservationsParser.Product [tu_row 25 (35 # 10)%Q])].

(** One file of a directory listing, and the ledger after it was parsed. *)
Definition mosmix_file : Polling.file_info :=
  Polling.FileInfo
    "https://opendata.dwd.de/weather/local_forecasts/mos/MOSMIX_S/all_stations/kml/MOSMIX_S_LATEST_240.kmz"
    "MOSMIXParser" 1584090000 37421153.

Definition ledger_after_parse : Db.t :=
  Db.Database [] []
    [Db.ParsedFileRow (Polling.url mosmix_file) (Polling.last_modified mosmix_file)
       (Polling.file_size mosmix_file)]
    no_functions.

(** Source 1 with a row at every full hour from 0 to 24 hours. *)
Definition sample_values : measurements :=
  Measurements (Some 280%Q) (Some 90%Q) (Some 3%Q) (Some 0%Q) (Some 0%Q) (Some 101300%Q).

Definition hourly_db : Db.t :=
  Db.Database
    ((fun h => Db.WeatherRow (3600 * h) 1 sample_values) <$> seqZ 0 25)
    [Db.SourceRow 1 (Some "01001") None "JAN MAYEN" "current" (709 # 10)%Q (-87 # 10)%Q 10%Q]
    [] no_functions.

(** Two sources of station 01001 with a row each at timestamp 0: the
    preferred one (id 1, current) lacks temperature and pressure, the other
    (id 2, forecast) has the temperature but no pressure either. *)
Definition partial_values (t p : option Q) : measurements :=
  Measurements t (Some 90%Q) (Some 3%Q) (Some 0%Q) (Some 0%Q) p.

Definition two_sources : list Db.source_row :=
  [Db.SourceRow 2 (Some "01001") None "JAN MAYEN" "forecast" (709 # 10)%Q (-87 # 10)%Q 10%Q;
   Db.SourceRow 1 (Some "01001") None "JAN MAYEN" "current" (709 # 10)%Q (-87 # 10)%Q 10%Q].

Definition partial_fallback_db : Db.t :=
  Db.Database
    [Db.WeatherRow 0 1 (partial_values None None);
     Db.WeatherRow 0 2 (partial_values (Some 280%Q) None)]
    two_sources [] no_functions.

(** The same, with a fallback row that has every missing field. *)
Definition full_fallback_db : Db.t :=
  Db.Database
    [Db.WeatherRow 0 1 (partial_values None None);
     Db.WeatherRow 0 2 (partial_values (Some 280%Q) (Some 101300%Q))]
    two_sources [] no_functions.

(** Three sources: two of station 01001 (ids 1 and 2) and one of station
    10115 with WMO code 10115 (id 3). *)
Definition three_sources_db : Db.t :=
  Db.Database []
    (two_sources ++
     [Db.SourceRow 3 (Some "10115") (Some "10115") "BERLIN" "recent"
        (525 # 10)%Q (134 # 10)%Q 40%Q])
    [] no_functions.

(** A directory tree of the open-data server: a directory with the recent
    archives, and one whose second listing line cannot be read. *)
Definition no_listing_line : Py.result (Z * Z) :=
  Py.Raise (Py.Exn "AttributeError" "'NoneType' object has no attribute 'group'").

Definition site (url : string) : Py.result (list Polling.anchor) :=
  if String.eqb url "https://opendata.dwd.de/air_temperature/" then
    Py.Ok [Polling.Anchor (Some "../") no_listing_line;
           Polling.Anchor (Some "recent/") no_listing_line;
           Polling.Anchor (Some "historical/") no_listing_line]
  else if String.eqb url "https://opendata.dwd.de/air_temperature/recent/" then
    Py.Ok [Polling.Anchor (Some "../") no_listing_line;
           Polling.Anchor (Some "DESCRIPTION_obsgermany.pdf") (Py.Ok (1590000000, 70000));
           Polling.Anchor (Some "stundenwerte_TU_00044_akt.zip") (Py.Ok (1600000000, 2000))]
  else if String.eqb url "https://opendata.dwd.de/air_temperature/historical/" then
    Py.Ok [Polling.Anchor (Some "stundenwerte_TU_00044_20070401_20201231_hist.zip")
             (Py.Ok (1610000000, 90000));
           Polling.Anchor (Some "stundenwerte_TU_00071_20091201_20191231_hist.zip")
             no_listing_line]
  else Py.Raise (Py.Exn "HTTPError" "404 Client Error: Not Found").

Definition cache_path (url : string) : string :=
  "/cache/" +:+ Parsers.basename url.

Definition settings_2020 : Parsers.settings := Parsers.Settings 1577836800 None.

(** A forecast file with two time steps; the second station has a
    temperature column with one value only. *)
Definition jan_mayen : Parsers.MOSMIXParser.placemark :=
  Parsers.MOSMIXParser.Placemark "01001" "JAN MAYEN"
    ((-867 # 100)%Q, (7093 # 100)%Q, 10%Q)
    (fun _ => [Some (2731 # 10)%Q; None]).

Definition short_station : Parsers.MOSMIXParser.placemark :=
  Parsers.MOSMIXParser.Placemark "01008" "SVALBARD"
    ((1547 # 100)%Q, (7825 # 100)%Q, 29%Q)
    (fun f => match f with
              | temperature => [Some (2701 # 10)%Q]
              | _ => [Some (2701 # 10)%Q; None]
              end).

Definition forecast_file (placemarks : list Parsers.MOSMIXParser.placemark)
    : Parsers.MOSMIXParser.kml :=
  Parsers.MOSMIXParser.Kml [1584090000; 1584093600]
    ["MOSMIX"; "2020-03-13T09:00:00.000Z"] placemarks.

End Examples.

(** * Theorems *)

(** ** Measurements and rationals *)

Lemma elem_of_all_fields (f : field) : f ∈ all_fields.
Proof. destruct f; unfold all_fields; set_solver. Qed.

Lemma mget_mset_eq f v m : mget f (mset f v m) = v.
Proof. by destruct f. Qed.

Lemma mget_mset_ne f g v m : f ≠ g -> mget g (mset f v m) = mget g m.
Proof. by destruct f, g. Qed.

Lemma Qltb_lt (x y : Q) : Py.Qltb x y = true <-> (x < y)%Q.
Proof.
  unfold Py.Qltb. rewrite negb_true_iff. split.
  - intros H. apply Qnot_le_lt. intros Hle.
    apply Qle_bool_iff in Hle. congruence.
  - intros H. destruct (Qle_bool y x) eqn:E; [|done].
    apply Qle_bool_iff in E. by apply Qlt_not_le in H.
Qed.

Lemma truthy_nonzero (q : Q) : ¬ (q == 0)%Q -> Py.truthy (Some q) = true.
Proof.
  intros H. simpl. apply negb_true_iff.
  destruct (Qeq_bool q 0) eqn:E; [|done]. by apply Qeq_bool_iff in E.
Qed.

(** ** MOSMIX record sanitization *)

Section mosmix.
Import Py Parsers Parsers.MOSMIXParser.

Lemma and_lt_spec v bound :
  and_lt v bound = true <-> ∃ q, v = Some q ∧ ¬ (q == 0)%Q ∧ (q < bound)%Q.
Proof.
  unfold and_lt. destruct v as [q|]; simpl.
  - rewrite andb_true_iff, negb_true_iff, Qltb_lt. split.
    + intros [E H]. exists q. split_and!; [done| |done].
      intros Hq. apply Qeq_bool_iff in Hq. congruence.
    + intros (q' & [= <-] & Hq & H). split; [|done].
      destruct (Qeq_bool q 0) eqn:E; [|done]. by apply Qeq_bool_iff in E.
  - split; [done|]. by intros (q & ? & _).
Qed.

Lemma and_gt_spec v bound :
  and_gt v bound = true <-> ∃ q, v = Some q ∧ ¬ (q == 0)%Q ∧ (bound < q)%Q.
Proof.
  unfold and_gt. destruct v as [q|]; simpl.
  - rewrite andb_true_iff, negb_true_iff, Qltb_lt. split.
    + intros [E H]. exists q. split_and!; [done| |done].
      intros Hq. apply Qeq_bool_iff in Hq. congruence.
    + intros (q' & [= <-] & Hq & H). split; [|done].
      destruct (Qeq_bool q 0) eqn:E; [|done]. by apply Qeq_bool_iff in E.
  - split; [done|]. by intros (q & ? & _).
Qed.

(** One turn of the loop, on the yielded records. *)
Lemma sanitize_records_cons r records :
  (sanitize_records (r :: records)).1 =
  (let r1 := if and_lt (get precipitation r) 0%Q
             then set_value precipitation None r else r in
   if and_gt (get wind_direction r1) 360%Q
   then set_value wind_direction
          (option_map (fun d => (d - 360)%Q) (get wind_direction r1)) r1
   else r1) :: (sanitize_records records).1.
Proof.
  simpl.
  destruct (and_lt _ _); simpl; destruct (and_gt _ _); simpl;
    by destruct (sanitize_records records).
Qed.

Lemma sanitize_records_length records :
  length (sanitize_records records).1 = length records.
Proof.
  induction records as [|r records IH]; [done|].
  rewrite sanitize_records_cons. simpl. by rewrite IH.
Qed.

Lemma sanitize_records_pointwise (P : record -> record -> Prop) :
  (∀ r, P r (let r1 := if and_lt (get precipitation r) 0%Q
                        then set_value precipitation None r else r in
             if and_gt (get wind_direction r1) 360%Q
             then set_value wind_direction
                    (option_map (fun d => (d - 360)%Q) (get wind_direction r1)) r1
             else r1)) ->
  ∀ records, Forall2 P records (sanitize_records records).1.
Proof.
  intros HP. induction records as [|r records IH]; [constructor|].
  rewrite sanitize_records_cons. constructor; [apply HP | apply IH].
Qed.

Lemma get_set_value_ne f g v r : f ≠ g -> get g (set_value f v r) = get g r.
Proof. intros. unfold get, set_value. simpl. by apply mget_mset_ne. Qed.

Lemma get_set_value_eq f v r : get f (set_value f v r) = v.
Proof. unfold get, set_value. simpl. apply mget_mset_eq. Qed.

(** C2 (amended).  Every record the MOSMIX parser yields after
    [sanitize_records] carries the parsed wind direction minus 360 when the
    parsed value is strictly greater than 360 (so a value in (360, 720) lands
    in (0, 360)), and the parsed value itself otherwise: 360, negative values
    and null are passed on unchanged, and no value is replaced by null. *)
Theorem mosmix_wind_direction_fold (records : list record) (i : nat) (r r' : record) :
  records !! i = Some r ->
  (sanitize_records records).1 !! i = Some r' ->
  match get wind_direction r with
  | None => get wind_direction r' = None
  | Some d =>
      ((360 < d)%Q -> get wind_direction r' = Some (d - 360)%Q) ∧
      ((360 < d < 720)%Q -> (0 < d - 360 < 360)%Q) ∧
      ((d <= 360)%Q -> get wind_direction r' = Some d)
  end.
Proof.
  intros Hr Hr'.
  pattern r, r'. eapply Forall2_lookup_lr; [|exact Hr|exact Hr'].
  apply sanitize_records_pointwise. clear. intros r. cbv zeta.
  set (r1 := if and_lt _ _ then _ else r).
  assert (get wind_direction r1 = get wind_direction r) as E1.
  { subst r1. destruct (and_lt _ _); [|done]. by apply get_set_value_ne. }
  rewrite E1. destruct (get wind_direction r) as [d|] eqn:Ed.
  - split_and!.
    + intros Hd. rewrite (proj2 (and_gt_spec (Some d) 360%Q)).
      * by rewrite get_set_value_eq.
      * exists d. split_and!; [done| |done]. intros H0. rewrite H0 in Hd. lra.
    + intros [? ?]. split; lra.
    + intros Hd. destruct (and_gt (Some d) 360%Q) eqn:E.
      * apply and_gt_spec in E as (q & [= <-] & _ & Hq). lra.
      * congruence.
  - change (and_gt None 360%Q) with false. cbv iota. congruence.
Qed.

Lemma mosmix_wind_direction_fold_witness :
  [Examples.forecast (Some 370%Q) None] !! 0%nat = Some (Examples.forecast (Some 370%Q) None) ∧
  (sanitize_records [Examples.forecast (Some 370%Q) None]).1 !! 0%nat =
    Some (Examples.forecast (Some 10%Q) None) ∧
  match get wind_direction (Examples.forecast (Some 370%Q) None) with
  | None => get wind_direction (Examples.forecast (Some 10%Q) None) = None
  | Some d =>
      ((360 < d)%Q -> get wind_direction (Examples.forecast (Some 10%Q) None) = Some (d - 360)%Q) ∧
      ((360 < d < 720)%Q -> (0 < d - 360 < 360)%Q) ∧
      ((d <= 360)%Q -> get wind_direction (Examples.forecast (Some 10%Q) None) = Some d)
  end.
Proof.
  split; [reflexivity|]. split; [reflexivity|].
  apply (mosmix_wind_direction_fold
           [Examples.forecast (Some 370%Q) None] 0%nat); reflexivity.
Defined.

(** C2 (as stated) fails: parsed wind directions 360, 800 and -5 are yielded
    as 360, 440 and -5; none of them is null or within [0, 360). *)
Lemma mosmix_wind_direction_counterexample :
  map (get wind_direction)
    (sanitize_records
       [Examples.forecast (Some 360%Q) None; Examples.forecast (Some 800%Q) None;
        Examples.forecast (Some (-5)%Q) None]).1
  = [Some 360%Q; Some 440%Q; Some (-5)%Q] ∧
  Forall (fun d => ¬ (0 <= d < 360)%Q) [360%Q; 440%Q; (-5)%Q].
Proof.
  split; [reflexivity|].
  repeat constructor; intros [H1 H2]; lra.
Qed.

End mosmix.

(** ** Negative precipitation *)

Section precipitation.
Import Py Parsers.

Lemma convert_other f g c m :
  f ≠ g -> mget g (CurrentObservationsParser.convert f c m) = mget g m.
Proof.
  intros Hfg. unfold CurrentObservationsParser.convert.
  destruct (mget f m); [by apply mget_mset_ne | done].
Qed.

Lemma convert_units_precipitation u m :
  mget precipitation (CurrentObservationsParser.convert_units u m) = mget precipitation m.
Proof.
  unfold CurrentObservationsParser.convert_units. by rewrite !convert_other.
Qed.

(** A row [parse_row] reads has a readable cell under every column of
    [ELEMENTS] and a readable date and hour. *)
Lemma parse_row_ok u row values timestamp :
  CurrentObservationsParser.parse_row u row = Ok (values, timestamp) ->
  ∃ record,
    values = CurrentObservationsParser.convert_units u record ∧
    (∀ f, read (CurrentObservationsParser.element_cell row f) = Ok (mget f record)) ∧
    CurrentObservationsParser.date_and_hour row = Ok timestamp.
Proof.
  unfold CurrentObservationsParser.parse_row.
  destruct (read (_ row temperature)) as [t|] eqn:Et; [|done].
  destruct (read (_ row wind_direction)) as [wd|] eqn:Ewd; [|done].
  destruct (read (_ row wind_speed)) as [ws|] eqn:Ews; [|done].
  destruct (read (_ row precipitation)) as [p|] eqn:Ep; [|done].
  destruct (read (_ row pressure_msl)) as [pr|] eqn:Epr; [|done].
  destruct (read (_ row sunshine)) as [s|] eqn:Es; [|done].
  destruct (CurrentObservationsParser.date_and_hour row) as [ts|]; [|done].
  cbn [mbind result_bind bind]. intros [= <- <-].
  exists (Measurements t wd ws p s pr). split_and!; [done| |done].
  by intros [].
Qed.

Lemma read_ok c v : read c = Ok v -> v = float_or_none c.
Proof. destruct c; simpl; congruence. Qed.

Lemma yield_rows_yielded u station_id station_name lat lon height reader rec :
  rec ∈ yielded
    (CurrentObservationsParser.yield_rows u station_id station_name lat lon height reader) ->
  ∃ row, row ∈ reader ∧
    CurrentObservationsParser.parse_row u row =
    Ok (CurrentObservationsParser.values rec, CurrentObservationsParser.timestamp rec).
Proof.
  induction reader as [|row reader IH]; cbn [CurrentObservationsParser.yield_rows].
  { by intros ?%elem_of_nil. }
  destruct (CurrentObservationsParser.parse_row u row) as [[values timestamp]|e] eqn:E;
    [|by intros ?%elem_of_nil].
  cbn [yielded]. intros [->|Hrec]%elem_of_cons.
  - exists row. split; [left|done].
  - destruct (IH Hrec) as (row' & ? & ?). exists row'. split; [by right|done].
Qed.

(** What [CurrentObservationsParser.parse] yields comes row by row from the
    data rows of the file. *)
Lemma current_parse_yielded db u reader lat lon height station_name rec :
  rec ∈ yielded (CurrentObservationsParser.parse db u reader lat lon height station_name) ->
  ∃ row, row ∈ reader ∧
    CurrentObservationsParser.parse_row u row =
    Ok (CurrentObservationsParser.values rec, CurrentObservationsParser.timestamp rec).
Proof.
  unfold CurrentObservationsParser.parse.
  destruct reader as [|first [|titles reader]].
  - by intros ?%elem_of_nil.
  - destruct (match lat with Some _ => _ | None => _ end) as [[[[? ?] ?] ?]|?];
      simpl; by intros ?%elem_of_nil.
  - destruct (match lat with Some _ => _ | None => _ end) as [[[[? ?] ?] ?]|?];
      [|by intros ?%elem_of_nil].
    intros (row & Hrow & Hparse)%yield_rows_yielded.
    exists row. split; [by do 2 right|done].
Qed.

(** C5 (amended).  For every record the MOSMIX forecast parser yields, a
    parsed precipitation strictly below zero is replaced by null before the
    record is yielded.  The current-observations parser has no such step:
    each record it yields carries the precipitation cell of its row as
    parsed. *)
Theorem negative_precipitation_mosmix_only :
  (∀ (records : list MOSMIXParser.record) (i : nat) (r r' : MOSMIXParser.record) (p : Q),
     records !! i = Some r ->
     (MOSMIXParser.sanitize_records records).1 !! i = Some r' ->
     MOSMIXParser.get precipitation r = Some p ->
     (p < 0)%Q ->
     MOSMIXParser.get precipitation r' = None) ∧
  (∀ db u reader lat lon height station_name rec,
     rec ∈ yielded (CurrentObservationsParser.parse db u reader lat lon height station_name) ->
     ∃ row, row ∈ reader ∧
       mget precipitation (CurrentObservationsParser.values rec) =
       float_or_none (CurrentObservationsParser.element_cell row precipitation)).
Proof.
  split.
  - intros records i r r' p Hr Hr'. revert p.
    pattern r, r'. eapply Forall2_lookup_lr; [|exact Hr|exact Hr'].
    apply sanitize_records_pointwise. clear. intros r p Hp Hneg. cbv zeta.
    rewrite (proj2 (and_lt_spec (MOSMIXParser.get precipitation r) 0%Q)).
    + destruct (MOSMIXParser.and_gt _ _).
      * rewrite get_set_value_ne by done. apply get_set_value_eq.
      * apply get_set_value_eq.
    + exists p. split_and!; [done| |done]. intros H0. rewrite H0 in Hneg. lra.
  - intros db u reader lat lon height station_name rec Hrec.
    apply current_parse_yielded in Hrec as (row & Hrow & Hparse).
    exists row. split; [done|].
    apply parse_row_ok in Hparse as (record & -> & Hcells & _).
    rewrite convert_units_precipitation. apply read_ok, Hcells.
Qed.

Lemma negative_precipitation_mosmix_only_witness :
  [Examples.forecast None (Some (-1 # 10)%Q)] !! 0%nat =
    Some (Examples.forecast None (Some (-1 # 10)%Q)) ∧
  (MOSMIXParser.sanitize_records [Examples.forecast None (Some (-1 # 10)%Q)]).1 !! 0%nat =
    Some (Examples.forecast None None) ∧
  MOSMIXParser.get precipitation (Examples.forecast None (Some (-1 # 10)%Q)) =
    Some (-1 # 10)%Q ∧
  (-1 # 10 < 0)%Q ∧
  MOSMIXParser.get precipitation (Examples.forecast None None) = None.
Proof.
  split_and!; [reflexivity|reflexivity|reflexivity|reflexivity|].
  apply (proj1 negative_precipitation_mosmix_only
           [Examples.forecast None (Some (-1 # 10)%Q)] 0%nat
           (Examples.forecast None (Some (-1 # 10)%Q)) (Examples.forecast None None)
           (-1 # 10)%Q); reflexivity.
Defined.

End precipitation.

(** C5 (as stated) fails: the current-observations parser yields the parsed
    precipitation -0.1 as it is. *)
Lemma negative_precipitation_counterexample :
  map (fun rec => mget precipitation (Parsers.CurrentObservationsParser.values rec))
    (Py.yielded
       (Parsers.CurrentObservationsParser.parse Examples.forecast_db Examples.si_units
          Examples.beob_file None None None None))
  = [Some (-1 # 10)%Q] ∧ (-1 # 10 < 0)%Q.
Proof. split; reflexivity. Qed.

(** ** Station lookup of the current-observations parser *)

Section load_location.
Import Py Parsers Parsers.CurrentObservationsParser.

Lemma filter_none {A} (P : A -> Prop) `{!∀ x, Decision (P x)} (l : list A) :
  (∀ x, x ∈ l -> ¬ P x) -> filter P l = [].
Proof.
  intros Hno. destruct (filter P l) as [|x k] eqn:E; [done|].
  assert (x ∈ filter P l) as [HP Hx]%list_elem_of_filter by (rewrite E; left).
  by destruct (Hno x Hx).
Qed.

Lemma load_location_absent db station_id :
  (∀ r, r ∈ Db.sources db ->
        ¬ (Db.s_observation_type r = "forecast" ∧ Db.s_station_id r = Some station_id)) ->
  load_location db station_id =
  Raise (Exn "ValueError" ("Unable to find location for station " +:+ station_id)).
Proof.
  intros Hno. unfold load_location. by rewrite filter_none.
Qed.

(** C9 (amended).  When the sources table has no forecast row for the
    station code of a current-observations file, and the caller did not
    pass all of lat, lon, height and station name, the parser fails with
    [ValueError] ("Unable to find location for station <code>") at the
    coordinate lookup and yields no record. *)
Theorem current_observations_missing_station
    (db : Db.t) (u : units) (first : row) (reader : list row)
    (lat lon height : option Q) (station_name : option string) :
  lat = None ∨ lon = None ∨ height = None ∨ station_name = None ->
  (∀ r, r ∈ Db.sources db ->
        ¬ (Db.s_observation_type r = "forecast" ∧
           Db.s_station_id r = Some (rstrip_underscore (surface_observations first)))) ->
  parse db u (first :: reader) lat lon height station_name =
  Gen [] (Some (Exn "ValueError"
                  ("Unable to find location for station " +:+
                   rstrip_underscore (surface_observations first)))).
Proof.
  intros Hnone Habsent. unfold parse.
  rewrite (load_location_absent _ _ Habsent).
  destruct lat, lon, height, station_name; try done.
  by destruct Hnone as [?|[?|[?|?]]].
Qed.

Lemma current_observations_missing_station_witness :
  (@None Q = None ∨ @None Q = None ∨ @None Q = None ∨ @None string = None) ∧
  (∀ r, r ∈ Db.sources Examples.empty_db ->
        ¬ (Db.s_observation_type r = "forecast" ∧ Db.s_station_id r = Some "01001")) ∧
  parse Examples.empty_db Examples.si_units Examples.beob_file None None None None =
  Gen [] (Some (Exn "ValueError" "Unable to find location for station 01001")).
Proof.
  split; [by left|]. split; [by intros r ?%elem_of_nil|].
  apply (current_observations_missing_station Examples.empty_db Examples.si_units
           (Row "01001_" Examples.no_date (fun _ => Sentinel))).
  - by left.
  - by intros r ?%elem_of_nil.
Defined.

(** C9 (as stated) fails: with no forecast row for station 01001 the parser
    ends with an exception of class [ValueError], not [MissingStationError]. *)
Lemma current_observations_missing_station_counterexample :
  ∃ e, ended (parse Examples.empty_db Examples.si_units Examples.beob_file
                None None None None) = Some e ∧
       exn_class e = "ValueError" ∧ exn_class e ≠ "MissingStationError".
Proof. eexists. split; [reflexivity|]. split; [reflexivity|discriminate]. Qed.

End load_location.

(** ** Historical and recent observations *)

Section observations.
Import Py Parsers Parsers.ObservationsParser.

(** Every record of [parse_rows] carries the literal provenance prefix. *)
Lemma parse_rows_source st self filename history current reader rec :
  rec ∈ yielded (parse_rows st self filename history current reader) ->
  source rec = "Observations:Recent:" +:+ filename.
Proof.
  revert current. induction reader as [|row reader IH]; intros current; simpl.
  - by intros ?%elem_of_nil.
  - case_bool_decide; [apply IH|].
    destruct (match MAX_DATE st with Some _ => _ | None => _ end); [apply IH|].
    destruct (select_location _ _ _) as [[[[la lo] h] n]|]; simpl;
      [|by intros ?%elem_of_nil].
    destruct (parse_elements self row); simpl; [|by intros ?%elem_of_nil].
    intros [->|Hrec]%elem_of_cons; [done|]. by eapply IH.
Qed.

(** C8.  The archive [stundenwerte_TU_00044_20070401_20191231_hist.zip] is
    of observation type [historical], yet the record [parse_records] yields
    for it has the provenance
    [Observations:Recent:produkt_tu_stunde_20070401_20191231_00044.txt]. *)
Theorem provenance_of_historical_archive :
  parse_observation_type Examples.hist_parser = Ok "historical" ∧
  ∃ history,
    parse_lat_lon_history Examples.hist_zip "00044" = Ok history ∧
    map source
      (yielded (parse_records Examples.open_settings Examples.hist_parser
                  Examples.hist_zip history))
    = ["Observations:Recent:produkt_tu_stunde_20070401_20191231_00044.txt"].
Proof. split; [reflexivity|]. eexists. split; reflexivity. Qed.

(** The attribute [ignored_values] is bound nowhere. *)
Lemma ignored_values_unbound :
  List.find (fun a => String.eqb a.1 "ignored_values") attributes = None.
Proof. reflexivity. Qed.

Lemma getattr_ignored_values file self timestamp :
  getattr_get file self "ignored_values" timestamp =
  Raise (Exn "AttributeError"
           ("'" +:+ class_name (cls self) +:+ "' object has no attribute 'ignored_values'")).
Proof. unfold getattr_get. by rewrite ignored_values_unbound. Qed.

(** C7.  [sanitize_record] raises [AttributeError] on every record, whatever
    the ignored-values file holds: the lookup [self.ignored_values] finds
    no attribute of that name, so no value is nulled and no warning is
    logged. *)
Theorem sanitize_record_attribute_error
    (file : option ignored_file) (self : parser) (r : record) :
  sanitize_record file self r =
  Raise (Exn "AttributeError"
           ("'" +:+ class_name (cls self) +:+ "' object has no attribute 'ignored_values'")).
Proof.
  unfold sanitize_record. by rewrite getattr_ignored_values.
Qed.

(** What the loop after the failing lookup does with one configured value:
    a matching value is nulled silently, another one is kept and a warning
    is logged. *)
Lemma apply_ignores_one element ignored_value r v :
  get_element element r = Ok v ->
  apply_ignores [(element, ignored_value)] r =
  if eq_value v ignored_value
  then Ok (set_element element None r, [])
  else Ok (r, [Warning "Ignored value no longer exists"]).
Proof.
  intros Hv. simpl. rewrite Hv. simpl. by destruct (eq_value v ignored_value).
Qed.

(** So [parse] ends with that error as soon as [parse_records] has produced
    a first record, and yields nothing. *)
Lemma parse_yields_nothing st file self zf :
  yielded (parse st file self zf).1 = [].
Proof.
  unfold parse.
  destruct (_ ≫= _) as [[[station_id observation_type] history]|e]; [|done].
  destruct (parse_records st self zf history) as [[|r records] tail]; [done|].
  cbn -[sanitize_record]. unfold sanitize_record.
  by rewrite getattr_ignored_values.
Qed.

(** *** Location history *)

Lemma dict_set_fresh {V} (k : Z) (v : V) (d : list (Z * V)) :
  k ∉ d.*1 -> dict_set k v d = d ++ [(k, v)].
Proof.
  induction d as [|[k' v'] d IH]; simpl; [done|].
  intros Hk. apply not_elem_of_cons in Hk as [Hne Hk].
  rewrite bool_decide_eq_false_2 by done. by rewrite IH.
Qed.

Lemma history_of_app (acc : list (Z * location)) (rows : list geography_row) :
  NoDup (acc.*1 ++ (von_datum <$> rows)) ->
  foldl (fun history row => dict_set (von_datum row) (location_of row) history) acc rows =
  acc ++ ((fun row => (von_datum row, location_of row)) <$> rows).
Proof.
  revert acc. induction rows as [|row rows IH]; intros acc Hnd; simpl.
  - by rewrite app_nil_r.
  - simpl in Hnd. rewrite dict_set_fresh.
    + rewrite IH.
      * by rewrite <- app_assoc.
      * rewrite fmap_app. simpl. by rewrite <- app_assoc.
    + apply NoDup_app in Hnd as (_ & Hnd & _). intros Hin.
      apply (Hnd _ Hin). left.
Qed.

Lemma ascending_NoDup (rows : list geography_row) :
  StronglySorted (fun a b => von_datum a < von_datum b) rows ->
  NoDup (von_datum <$> rows).
Proof.
  induction 1 as [|row rows Hs IH Hall]; simpl; constructor; [|done].
  intros (row' & Heq & Hin)%list_elem_of_fmap.
  rewrite Forall_forall in Hall. specialize (Hall row' Hin). lia.
Qed.

Lemma history_of_ascending (rows : list geography_row) :
  StronglySorted (fun a b => von_datum a < von_datum b) rows ->
  history_of rows = (fun row => (von_datum row, location_of row)) <$> rows.
Proof.
  intros Hs. unfold history_of. rewrite history_of_app; [done|].
  simpl. by apply ascending_NoDup.
Qed.

(** The inner loop stops at once on a history whose first date is later. *)
Lemma select_location_later history timestamp current :
  (∀ entry, entry ∈ history -> timestamp < entry.1) ->
  select_location history timestamp current = current.
Proof.
  destruct history as [|[date loc] history]; simpl; [done|].
  intros Hlater. specialize (Hlater (date, loc)). simpl in Hlater.
  rewrite bool_decide_eq_true_2; [done|]. apply Z.lt_gt, Hlater. left.
Qed.

(** On an ascending history the inner loop ends on the entry with the
    greatest date not after the timestamp. *)
Lemma select_location_ascending (rows : list geography_row) timestamp current e :
  StronglySorted (fun a b => von_datum a < von_datum b) rows ->
  e ∈ rows ->
  von_datum e ≤ timestamp ->
  (∀ e', e' ∈ rows -> von_datum e' ≤ timestamp -> von_datum e' ≤ von_datum e) ->
  select_location ((fun row => (von_datum row, location_of row)) <$> rows) timestamp current
  = Some (location_of e).
Proof.
  intros Hs. revert current.
  induction Hs as [|row rows Hs IH Hall]; intros current Hin Hle Hmax.
  - by apply elem_of_nil in Hin.
  - rewrite Forall_forall in Hall. simpl.
    assert (von_datum row ≤ timestamp) as Hrow.
    { apply elem_of_cons in Hin as [->|Hin]; [done|].
      specialize (Hall e Hin). lia. }
    rewrite bool_decide_eq_false_2 by lia.
    apply elem_of_cons in Hin as [->|Hin].
    + apply select_location_later.
      intros [date loc] (row' & [= -> ->] & Hrow')%list_elem_of_fmap. simpl.
      specialize (Hall row' Hrow').
      destruct (decide (von_datum row' ≤ timestamp)) as [Hle'|]; [|lia].
      specialize (Hmax row' (list_elem_of_further _ _ _ Hrow') Hle'). lia.
    + apply IH; [done|done|].
      intros e' He'. apply Hmax. by right.
Qed.

(** Every record of the row loop carries what the inner loop selected for
    its timestamp, from some state of the four local variables. *)
Lemma parse_rows_location st self filename history current reader rec :
  rec ∈ yielded (parse_rows st self filename history current reader) ->
  ∃ current',
    select_location history (timestamp rec) current' =
    Some (lat rec, lon rec, height rec, station_name rec).
Proof.
  revert current. induction reader as [|row reader IH]; intros current; simpl.
  - by intros ?%elem_of_nil.
  - case_bool_decide; [apply IH|].
    destruct (match MAX_DATE st with Some _ => _ | None => _ end); [apply IH|].
    destruct (select_location _ _ _) as [[[[la lo] h] n]|] eqn:Hsel; simpl;
      [|by intros ?%elem_of_nil].
    destruct (parse_elements self row); simpl; [|by intros ?%elem_of_nil].
    intros [->|Hrec]%elem_of_cons; [by exists current|]. by eapply IH.
Qed.

Lemma parse_records_location st self zf history rec :
  rec ∈ yielded (parse_records st self zf history) ->
  ∃ current',
    select_location history (timestamp rec) current' =
    Some (lat rec, lon rec, height rec, station_name rec).
Proof.
  unfold parse_records.
  destruct (List.filter _ _) as [|filename [|? ?]]; simpl;
    [by intros ?%elem_of_nil| |by intros ?%elem_of_nil].
  destruct (zf_open zf filename) as [[rows|rows|]|e]; simpl;
    try by intros ?%elem_of_nil.
  apply parse_rows_location.
Qed.

(** C6 (amended).  When the entries of the geography file appear in
    strictly ascending [von_datum] order, every record [parse_records]
    yields for a data row carries the (lat, lon, height, station name) of
    the entry with the greatest [von_datum] not after the row's timestamp,
    whenever the file has such an entry. *)
Theorem location_history_ascending
    (st : settings) (self : parser) (zf : ZipFile) (station_id : string)
    (rows : list geography_row) (rec : record) (e : geography_row) :
  zf_open zf ("Metadaten_Geographie_" +:+ station_id +:+ ".txt") = Ok (Geography rows) ->
  Sorted (fun a b => von_datum a < von_datum b) rows ->
  rec ∈ yielded (parse_records st self zf (history_of rows)) ->
  e ∈ rows ->
  von_datum e ≤ timestamp rec ->
  (∀ e', e' ∈ rows -> von_datum e' ≤ timestamp rec -> von_datum e' ≤ von_datum e) ->
  parse_lat_lon_history zf station_id = Ok (history_of rows) ∧
  (lat rec, lon rec, height rec, station_name rec) = location_of e.
Proof.
  intros Hopen Hsorted Hrec He Hle Hmax. split.
  { unfold parse_lat_lon_history. by rewrite Hopen. }
  assert (StronglySorted (fun a b => von_datum a < von_datum b) rows) as Hs.
  { apply Sorted_StronglySorted; [|done]. intros a b c. lia. }
  apply parse_records_location in Hrec as [current' Hsel].
  rewrite (history_of_ascending rows Hs) in Hsel.
  rewrite (select_location_ascending rows _ current' e Hs He Hle Hmax) in Hsel.
  congruence.
Qed.

Lemma location_history_ascending_witness :
  let rec := Record_ "Observations:Recent:produkt_tu_stunde_akt_00044.txt"
               (53 # 1)%Q (8 # 1)%Q 50%Q "New site" 25
               [(temperature, Some (Qplus (35 # 10) (27315 # 100)))] in
  let rows := [Examples.older_entry; Examples.newer_entry] in
  zf_open Examples.sorted_zip ("Metadaten_Geographie_" +:+ "00044" +:+ ".txt") =
    Ok (Geography rows) ∧
  Sorted (fun a b => von_datum a < von_datum b) rows ∧
  rec ∈ yielded (parse_records Examples.open_settings Examples.akt_parser
                   Examples.sorted_zip (history_of rows)) ∧
  Examples.newer_entry ∈ rows ∧
  von_datum Examples.newer_entry ≤ timestamp rec ∧
  (∀ e', e' ∈ rows -> von_datum e' ≤ timestamp rec ->
         von_datum e' ≤ von_datum Examples.newer_entry) ∧
  parse_lat_lon_history Examples.sorted_zip "00044" = Ok (history_of rows) ∧
  (lat rec, lon rec, height rec, station_name rec) = location_of Examples.newer_entry.
Proof.
  intros rec rows.
  assert (Sorted (fun a b => von_datum a < von_datum b) rows) as Hsorted.
  { repeat constructor. }
  assert (rec ∈ yielded (parse_records Examples.open_settings Examples.akt_parser
                           Examples.sorted_zip (history_of rows))) as Hrec.
  { apply list_elem_of_here. }
  assert (Examples.newer_entry ∈ rows) as Hin.
  { apply list_elem_of_further, list_elem_of_here. }
  assert (∀ e', e' ∈ rows -> von_datum e' ≤ timestamp rec ->
                von_datum e' ≤ von_datum Examples.newer_entry) as Hmax.
  { intros e' He' _. unfold rows in He'.
    apply elem_of_cons in He' as [->|He']; [done|].
    apply elem_of_cons in He' as [->|He']; [done|].
    by apply elem_of_nil in He'. }
  split_and!; [reflexivity|exact Hsorted|exact Hrec|exact Hin|done|exact Hmax|..];
    apply (location_history_ascending Examples.open_settings Examples.akt_parser
             Examples.sorted_zip "00044" rows rec Examples.newer_entry);
    try done.
Defined.

(** C6 (as stated) fails: with the newer entry (valid from 20) listed before
    the older one (valid from 10), the record for the row at 25 carries the
    location of the older entry, although the newer entry has the greatest
    [von_datum] not after 25. *)
Lemma location_history_counterexample :
  ∃ history rec,
    parse_lat_lon_history Examples.unsorted_zip "00044" = Ok history ∧
    yielded (parse_records Examples.open_settings Examples.akt_parser
               Examples.unsorted_zip history) = [rec] ∧
    timestamp rec = 25 ∧
    von_datum Examples.older_entry < von_datum Examples.newer_entry ≤ timestamp rec ∧
    (lat rec, lon rec, height rec, station_name rec) = location_of Examples.older_entry ∧
    station_name rec ≠ Stationsname Examples.newer_entry.
Proof.
  do 2 eexists. split; [reflexivity|]. split; [reflexivity|].
  split_and!; try done.
Qed.

End observations.

(** ** Dict comprehensions *)

(** A dictionary filled entry by entry holds, under a key, the value of the
    last item with that key. *)
Lemma foldl_insert_lookup `{Countable K} {A V} (key : A -> K) (val : A -> V)
    (l : list A) (acc : gmap K V) (k : K) :
  foldl (fun m x => <[key x := val x]> m) acc l !! k =
  match List.find (fun x => bool_decide (key x = k)) (rev l) with
  | Some x => Some (val x)
  | None => acc !! k
  end.
Proof.
  revert acc. induction l as [|x l IH]; intros acc; simpl; [done|].
  rewrite IH. clear IH.
  induction (rev l) as [|y l' IH']; simpl.
  - case_bool_decide as E.
    + subst k. by rewrite lookup_insert_eq.
    + by rewrite lookup_insert_ne.
  - by destruct (bool_decide (key y = k)).
Qed.

(** ** Poller *)

Section polling.
Import Polling.

(** The in-memory ledger holds, for a URL, the fingerprint of the last row
    of the table with that URL. *)
Lemma parsed_files_lookup (rows : list Db.parsed_file_row) (acc : gmap string (Z * Z))
    (u : string) :
  foldl (fun m row => <[Db.p_url row := (Db.p_last_modified row, Db.p_file_size row)]> m)
    acc rows !! u =
  match List.find (fun row => bool_decide (Db.p_url row = u)) (rev rows) with
  | Some row => Some (Db.p_last_modified row, Db.p_file_size row)
  | None => acc !! u
  end.
Proof.
  apply (foldl_insert_lookup Db.p_url
           (fun row => (Db.p_last_modified row, Db.p_file_size row))).
Qed.

(** With [url] a key of the table, the in-memory ledger holds a fingerprint
    for a URL exactly when the table has that row. *)
Lemma parsed_files_row (db : Db.t) (u : string) (fingerprint : Z * Z) :
  NoDup (Db.p_url <$> Db.parsed_files db) ->
  parsed_files db !! u = Some fingerprint <->
  Db.ParsedFileRow u fingerprint.1 fingerprint.2 ∈ Db.parsed_files db.
Proof.
  unfold parsed_files. generalize (Db.parsed_files db) as rows.
  intros rows Hnd. rewrite parsed_files_lookup, lookup_empty.
  destruct fingerprint as [lm fs]. simpl. split.
  - destruct (List.find _ _) as [row|] eqn:E; [|done].
    apply find_some in E as [Hin Hu]. apply bool_decide_eq_true in Hu.
    intros [= <- <-]. subst u. apply in_rev, list_elem_of_In in Hin.
    by destruct row.
  - intros Hin. destruct (List.find _ _) as [row|] eqn:E.
    + apply find_some in E as [Hin' Hu]. apply bool_decide_eq_true in Hu.
      apply in_rev, list_elem_of_In in Hin'.
      apply list_elem_of_lookup in Hin as [i Hi], Hin' as [j Hj].
      assert (i = j) as ->.
      { eapply NoDup_lookup; [exact Hnd| |].
        - rewrite list_lookup_fmap, Hi. done.
        - rewrite list_lookup_fmap, Hj. simpl. by rewrite Hu. }
      rewrite Hi in Hj. by injection Hj as <-.
    + apply list_elem_of_In in Hin. apply in_rev in Hin.
      eapply find_none in E; [|exact Hin]. simpl in E.
      by rewrite bool_decide_eq_true_2 in E.
Qed.

(** The in-memory ledger holds, for a URL, the fingerprint of the last row
    of the table with that URL. *)
Lemma parsed_files_last_row (db : Db.t) (before after : list Db.parsed_file_row)
    (row : Db.parsed_file_row) :
  Db.parsed_files db = before ++ row :: after ->
  (∀ r, r ∈ after -> Db.p_url r ≠ Db.p_url row) ->
  parsed_files db !! Db.p_url row = Some (Db.p_last_modified row, Db.p_file_size row).
Proof.
  intros Htable Hafter. unfold parsed_files.
  rewrite parsed_files_lookup, Htable, rev_app_distr. simpl. rewrite <- app_assoc.
  assert (∀ l k,
            (∀ r, r ∈ l -> Db.p_url r ≠ Db.p_url row) ->
            List.find (fun r => bool_decide (Db.p_url r = Db.p_url row)) (rev l ++ k) =
            List.find (fun r => bool_decide (Db.p_url r = Db.p_url row)) k) as Hskip.
  { intros l. induction l as [|x l IH]; intros k Hl; [done|].
    simpl. rewrite <- app_assoc. rewrite IH.
    - simpl. rewrite bool_decide_eq_false_2; [done|]. apply Hl. left.
    - intros r Hr. apply Hl. by right. }
  rewrite (Hskip after _ Hafter). simpl. by rewrite bool_decide_eq_true_2.
Qed.

(** C3.  With [url] the key of the [parsed_files] table, [poll] emits a
    file of the listing exactly when the table has no row for the file's
    URL, or has a row for it whose (last_modified, file_size) pair differs
    from the fingerprint in the listing; so a poll over a listing whose
    fingerprints are all in the table emits nothing.  Should the table hold
    several rows for a URL, the last one decides. *)
Theorem poll_fingerprint_dedupe :
  (∀ (db : Db.t) (listing : list file_info) (f : file_info),
     NoDup (Db.p_url <$> Db.parsed_files db) ->
     f ∈ poll db listing <->
     f ∈ listing ∧
     ((∀ row, row ∈ Db.parsed_files db -> Db.p_url row ≠ url f) ∨
      ∃ row, row ∈ Db.parsed_files db ∧ Db.p_url row = url f ∧
             (Db.p_last_modified row, Db.p_file_size row) ≠
             (last_modified f, file_size f))) ∧
  (∀ (db : Db.t) (listing : list file_info),
     NoDup (Db.p_url <$> Db.parsed_files db) ->
     (∀ f, f ∈ listing ->
           Db.ParsedFileRow (url f) (last_modified f) (file_size f) ∈ Db.parsed_files db) ->
     poll db listing = []) ∧
  (∀ (db : Db.t) (listing : list file_info) (f : file_info)
     (before after : list Db.parsed_file_row) (row : Db.parsed_file_row),
     Db.parsed_files db = before ++ row :: after ->
     Db.p_url row = url f ->
     (∀ r, r ∈ after -> Db.p_url r ≠ url f) ->
     f ∈ poll db listing <->
     f ∈ listing ∧
     (Db.p_last_modified row, Db.p_file_size row) ≠ (last_modified f, file_size f)).
Proof.
  assert (∀ db listing f,
            f ∈ poll db listing <->
            f ∈ listing ∧ parsed_files db !! url f ≠ Some (last_modified f, file_size f))
    as Hpoll.
  { intros db listing f. unfold poll. rewrite list_elem_of_filter. tauto. }
  split_and!.
  - intros db listing f Hkey. rewrite Hpoll.
    split; intros [Hin Hledger]; (split; [done|]).
    + destruct (parsed_files db !! url f) as [entry|] eqn:E.
      * right. apply (parsed_files_row db (url f) entry Hkey) in E.
        eexists. split; [exact E|]. simpl. split; [done|].
        destruct entry. simpl. congruence.
      * left. intros [u lm fs] Hr Hu. simpl in Hu. subst u.
        apply (parsed_files_row db (url f) (lm, fs) Hkey) in Hr. congruence.
    + destruct Hledger as [Hnone|([u lm fs] & Hr & Hu & Hne)].
      * destruct (parsed_files db !! url f) as [[lm fs]|] eqn:E; [|done].
        apply (parsed_files_row db (url f) (lm, fs) Hkey) in E.
        by destruct (Hnone _ E).
      * simpl in Hu, Hne. subst u.
        apply (parsed_files_row db (url f) (lm, fs) Hkey) in Hr.
        rewrite Hr. congruence.
  - intros db listing Hkey Hwritten. unfold poll.
    apply filter_none. intros f Hf Hne. apply Hne.
    by apply (parsed_files_row db (url f) (last_modified f, file_size f) Hkey), Hwritten.
  - intros db listing f before after row Htable Hu Hafter. rewrite Hpoll.
    rewrite <- Hu in Hafter |- *.
    rewrite (parsed_files_last_row db before after row Htable Hafter).
    split; intros [Hin Hne]; (split; [done|]); congruence.
Qed.

Lemma poll_fingerprint_dedupe_witness :
  NoDup (Db.p_url <$> Db.parsed_files Examples.ledger_after_parse) ∧
  (∀ f, f ∈ [Examples.mosmix_file] ->
        Db.ParsedFileRow (url f) (last_modified f) (file_size f)
          ∈ Db.parsed_files Examples.ledger_after_parse) ∧
  poll Examples.empty_db [Examples.mosmix_file] = [Examples.mosmix_file] ∧
  poll Examples.ledger_after_parse [Examples.mosmix_file] = [].
Proof.
  assert (NoDup (Db.p_url <$> Db.parsed_files Examples.ledger_after_parse)) as Hkey.
  { apply NoDup_singleton. }
  assert (∀ f, f ∈ [Examples.mosmix_file] ->
               Db.ParsedFileRow (url f) (last_modified f) (file_size f)
                 ∈ Db.parsed_files Examples.ledger_after_parse) as Hwritten.
  { intros f Hf. apply list_elem_of_singleton in Hf. subst f. apply list_elem_of_here. }
  split; [exact Hkey|]. split; [exact Hwritten|]. split; [vm_compute; reflexivity|].
  exact (proj1 (proj2 poll_fingerprint_dedupe) Examples.ledger_after_parse
           [Examples.mosmix_file] Hkey Hwritten).
Defined.

End polling.

(** ** Query: the weather query *)

Section weather_query.
Import Py Query.

#[local] Instance order_by_transitive source_id : Transitive (order_by source_id).
Proof. intros a b c. unfold order_by. destruct source_id; lia. Qed.

#[local] Instance order_by_total source_id : Total (order_by source_id).
Proof. intros a b. unfold order_by. destruct source_id; lia. Qed.

Lemma StronglySorted_weaken {A} (R1 R2 : relation A) (l : list A) :
  (∀ a b, R1 a b -> R2 a b) -> StronglySorted R1 l -> StronglySorted R2 l.
Proof.
  intros HR. induction 1 as [|x l Hs IH Hall]; constructor; [done|].
  eapply Forall_impl; [exact Hall|]. intros b. apply HR.
Qed.

Lemma order_by_timestamp source_id a b :
  order_by source_id a b -> Db.w_timestamp a ≤ Db.w_timestamp b.
Proof. unfold order_by. destruct source_id; lia. Qed.

(** [DISTINCT ON] keeps rows of its input. *)
Lemma distinct_on_timestamp_elem prev rows r :
  r ∈ distinct_on_timestamp prev rows -> r ∈ rows.
Proof.
  revert prev. induction rows as [|x rows IH]; intros prev; simpl; [done|].
  case_bool_decide.
  - intros Hr. right. by eapply IH.
  - intros [->|Hr]%elem_of_cons; [left|right]. by eapply IH.
Qed.

(** [DISTINCT ON] keeps a row for every timestamp of its input. *)
Lemma distinct_on_timestamp_covers prev rows r :
  r ∈ rows ->
  prev = Some (Db.w_timestamp r) ∨
  ∃ r', r' ∈ distinct_on_timestamp prev rows ∧ Db.w_timestamp r' = Db.w_timestamp r.
Proof.
  revert prev. induction rows as [|x rows IH]; intros prev Hr; simpl.
  - by apply elem_of_nil in Hr.
  - apply elem_of_cons in Hr as [->|Hr].
    + case_bool_decide; [by left|]. right. exists x. split; [left|done].
    + case_bool_decide.
      * by apply IH.
      * destruct (IH (Some (Db.w_timestamp x)) Hr) as [[= E]|(r' & Hr' & E)]; right.
        -- exists x. split; [left|done].
        -- exists r'. split; [by right|done].
Qed.

(** Over rows in timestamp order, [DISTINCT ON] leaves strictly increasing
    timestamps. *)
Lemma distinct_on_timestamp_increasing prev rows :
  StronglySorted (fun a b => Db.w_timestamp a ≤ Db.w_timestamp b) rows ->
  (∀ t r, prev = Some t -> r ∈ rows -> t ≤ Db.w_timestamp r) ->
  StronglySorted (fun a b => Db.w_timestamp a < Db.w_timestamp b)
    (distinct_on_timestamp prev rows) ∧
  (∀ t r, prev = Some t -> r ∈ distinct_on_timestamp prev rows -> t < Db.w_timestamp r).
Proof.
  intros Hs. revert prev.
  induction Hs as [|x rows Hs IH Hall]; intros prev Hprev; simpl.
  - split; [constructor|]. by intros t r _ ?%elem_of_nil.
  - rewrite Forall_forall in Hall. case_bool_decide as E.
    + apply IH. intros t r Ht Hr. apply (Hprev t r Ht). by right.
    + destruct (IH (Some (Db.w_timestamp x))) as [IH1 IH2].
      { intros t r [= <-] Hr. by apply Hall. }
      split.
      * constructor; [done|]. apply Forall_forall. intros r Hr.
        by apply (IH2 _ r eq_refl).
      * intros t r Ht [->|Hr]%elem_of_cons.
        -- assert (t ≤ Db.w_timestamp x) by (apply (Hprev t x Ht); left).
           destruct (decide (t = Db.w_timestamp x)); [subst; congruence|lia].
        -- assert (t ≤ Db.w_timestamp x) by (apply (Hprev t x Ht); left).
           specialize (IH2 _ r eq_refl Hr). lia.
Qed.

Lemma make_dicts_elem rows (d : weather_dict) :
  d ∈ _make_dicts rows <->
  ∃ r, r ∈ rows ∧
       d = WeatherDict (Db.w_timestamp r) (Db.w_source_id r) (Db.w_values r) None.
Proof.
  unfold _make_dicts. rewrite list_elem_of_fmap. split.
  - intros (r & -> & Hr). by exists r.
  - intros (r & Hr & ->). by exists r.
Qed.

(** Every row [_weather] returns is a row of the table that satisfies the
    WHERE clause. *)
Lemma weather_elem db date last_date source_id not_null d :
  d ∈ _weather db date last_date source_id not_null ->
  ∃ r, r ∈ Db.weather db ∧ where_ date last_date source_id not_null r ∧
       d = WeatherDict (Db.w_timestamp r) (Db.w_source_id r) (Db.w_values r) None.
Proof.
  unfold _weather. intros (r & Hr & ->)%make_dicts_elem.
  apply distinct_on_timestamp_elem in Hr.
  rewrite merge_sort_Permutation in Hr.
  apply list_elem_of_filter in Hr as [Hw Hr]. by exists r.
Qed.

(** For every row of the table that satisfies the WHERE clause, [_weather]
    returns a row with that timestamp. *)
Lemma weather_covers db date last_date source_id not_null r :
  r ∈ Db.weather db ->
  where_ date last_date source_id not_null r ->
  ∃ d, d ∈ _weather db date last_date source_id not_null ∧
       timestamp d = Db.w_timestamp r.
Proof.
  intros Hr Hw. unfold _weather.
  destruct (distinct_on_timestamp_covers None
              (merge_sort (order_by source_id)
                 (filter (where_ date last_date source_id not_null) (Db.weather db))) r)
    as [?|(r' & Hr' & E)]; [|done|].
  { rewrite merge_sort_Permutation. by apply list_elem_of_filter. }
  exists (WeatherDict (Db.w_timestamp r') (Db.w_source_id r') (Db.w_values r') None).
  split; [|done]. apply make_dicts_elem. by exists r'.
Qed.

(** The rows [_weather] returns have strictly increasing timestamps. *)
Lemma weather_increasing db date last_date source_id not_null :
  StronglySorted (fun a b => timestamp a < timestamp b)
    (_weather db date last_date source_id not_null).
Proof.
  unfold _weather, _make_dicts.
  eapply (StronglySorted_fmap _ (fun a b => Db.w_timestamp a < Db.w_timestamp b)).
  { intros a b. simpl. done. }
  apply distinct_on_timestamp_increasing; [|done].
  eapply StronglySorted_weaken; [apply order_by_timestamp|].
  apply StronglySorted_merge_sort; apply _.
Qed.

(** The rows of one source in the interval, when there are none. *)
Lemma weather_none db date last_date sid :
  (∀ w, w ∈ Db.weather db -> Db.w_source_id w = sid ->
        ¬ (date ≤ Db.w_timestamp w ≤ last_date)) ->
  _weather db date last_date (Int sid) [] = [].
Proof.
  intros Hnone. unfold _weather. rewrite filter_none; [done|].
  intros w Hw (Hts & Hsid & _). by apply (Hnone w Hw Hsid).
Qed.

(** [sources(source_id=sid)] *)
Lemma sources_by_id db lat lon dwd_station_id wmo_station_id sid max_dist ignore_type :
  ((∃ s, s ∈ Db.sources db ∧ Db.s_id s = sid) ->
   ∃ resp, sources db lat lon dwd_station_id wmo_station_id (Some sid) max_dist ignore_type
           = Ok resp) ∧
  ((¬ ∃ s, s ∈ Db.sources db ∧ Db.s_id s = sid) ->
   sources db lat lon dwd_station_id wmo_station_id (Some sid) max_dist ignore_type
   = Raise (Exn "LookupError" "No sources match your criteria")).
Proof.
  unfold sources, sources_rows, sources_sql_of. cbn [mbind result_bind bind].
  set (rows := merge_sort _ _).
  assert (rows = [] <-> ¬ ∃ s, s ∈ Db.sources db ∧ Db.s_id s = sid) as Hrows.
  { subst rows. cbn [select where_sources]. split.
    - intros E (s & Hs & Hid).
      assert (SourceDict s None ∈ @nil source_dict) as Hin; [|by apply elem_of_nil in Hin].
      rewrite <- E, merge_sort_Permutation. apply list_elem_of_fmap.
      exists s. split; [done|]. apply list_elem_of_In, filter_In.
      split; [by apply list_elem_of_In|]. by apply bool_decide_eq_true.
    - intros Hno. destruct (merge_sort _ _) as [|x l] eqn:E; [done|].
      assert (x ∈ x :: l) as Hin by left.
      rewrite <- E, merge_sort_Permutation in Hin.
      apply list_elem_of_fmap in Hin as (s & _ & Hs).
      apply list_elem_of_In, filter_In in Hs as [Hs Hid].
      destruct Hno. exists s. split; [by apply list_elem_of_In|].
      by apply bool_decide_eq_true in Hid. }
  destruct rows as [|x l]; simpl.
  - split; [|done]. intros Hex. by destruct (proj1 Hrows eq_refl).
  - split; [by eexists|]. intros Hno. by apply Hrows in Hno.
Qed.

(** [weather(date, last_date, source_id=sid)] in terms of the rows
    [_weather] finds and of the lookup of the source. *)
Lemma weather_by_id db date last_date lat lon dwd_station_id wmo_station_id sid
    max_dist fallback :
  weather db date last_date lat lon dwd_station_id wmo_station_id (Some sid) max_dist fallback =
  match _weather db date (default (date + one_day) last_date) (Int sid) [] with
  | [] =>
      match sources db None None None None (Some sid) default_max_dist false with
      | Ok _ => Ok [("weather", Weather [])]
      | Raise e => Raise e
      end
  | rows => Ok [("weather", Weather rows)]
  end.
Proof.
  unfold weather.
  replace (match last_date with Some d => d | None => date + one_day end)
    with (default (date + one_day) last_date) by by destruct last_date.
  destruct (_weather _ _ _ _ _) as [|d rows]; [|done].
  cbn [mbind result_bind bind]. by destruct (sources _ _ _ _ _ _ _ _).
Qed.

(** Strictly increasing whole-hour timestamps below a bound. *)
Lemma hourly_rows_bound (x : weather_dict) (rows : list weather_dict) (b : Z) :
  StronglySorted (fun a b => timestamp a < timestamp b) (x :: rows) ->
  Forall (fun r => timestamp r ≤ b ∧ (3600 | timestamp r)) (x :: rows) ->
  timestamp x + 3600 * Z.of_nat (length rows) ≤ b.
Proof.
  revert x. induction rows as [|y rows IH]; intros x Hs Hall.
  - apply Forall_cons in Hall as [[? _] _]. simpl. lia.
  - apply StronglySorted_cons in Hs as [Hlt Hs].
    apply Forall_cons in Hlt as [Hxy _].
    apply Forall_cons in Hall as [[_ [p Hp]] Hall].
    specialize (IH y Hs Hall).
    apply Forall_cons in Hall as [[_ [q Hq]] _].
    rewrite length_cons, Nat2Z.inj_succ. lia.
Qed.

(** C4 (amended).  With [last_date] omitted, [weather(d, source_id=S)] runs
    with [last_date = d + 1 day].  Each returned row belongs to S and has
    [d ≤ timestamp ≤ d + 1 day], both ends included; the timestamps are
    strictly increasing; so when the stored timestamps are whole hours the
    result has at most 25 rows. *)
Theorem weather_interval_bounds
    (db : Db.t) (date : Z) (lat lon : option Q) (dwd_station_id wmo_station_id : option string)
    (sid : Z) (max_dist : Q) (fallback : bool) (resp : response) :
  weather db date None lat lon dwd_station_id wmo_station_id (Some sid) max_dist fallback
    = Ok resp ->
  weather db date (Some (date + one_day)) lat lon dwd_station_id wmo_station_id (Some sid)
    max_dist fallback = Ok resp ∧
  ∃ rows,
    resp = [("weather", Weather rows)] ∧
    Forall (fun r => date ≤ timestamp r ≤ date + one_day ∧ source_id r = sid) rows ∧
    StronglySorted (fun a b => timestamp a < timestamp b) rows ∧
    ((∀ w, w ∈ Db.weather db -> (3600 | Db.w_timestamp w)) -> (length rows ≤ 25)%nat).
Proof.
  intros Hresp. split; [exact Hresp|].
  rewrite weather_by_id in Hresp. cbn [default] in Hresp.
  exists (_weather db date (date + one_day) (Int sid) []).
  assert (Forall (fun r => date ≤ timestamp r ≤ date + one_day ∧ source_id r = sid)
            (_weather db date (date + one_day) (Int sid) [])) as Hall.
  { apply Forall_forall. intros d (r & Hr & (Hts & Hsid & _) & ->)%weather_elem. done. }
  pose proof (weather_increasing db date (date + one_day) (Int sid) []) as Hs.
  split_and!; [|exact Hall|exact Hs|].
  - destruct (_weather _ _ _ _ _) as [|d rows]; [|congruence].
    destruct (sources _ _ _ _ _ _ _ _); congruence.
  - intros Hhours.
    destruct (_weather db date (date + one_day) (Int sid) []) as [|x rows] eqn:E;
      [simpl; lia|].
    assert (timestamp x + 3600 * Z.of_nat (length rows) ≤ date + one_day) as Hb.
    { apply hourly_rows_bound; [done|]. rewrite <- E. apply Forall_forall.
      intros d (r & Hr & (Hts & _) & ->)%weather_elem. simpl.
      split; [lia|]. by apply Hhours. }
    apply Forall_cons in Hall as [[Hx _] _]. unfold one_day in *. simpl. lia.
Qed.

Lemma weather_interval_bounds_witness :
  ∃ resp,
    weather Examples.hourly_db 0 None None None None None (Some 1) default_max_dist true
      = Ok resp ∧
    weather Examples.hourly_db 0 (Some (0 + one_day)) None None None None (Some 1)
      default_max_dist true = Ok resp ∧
    ∃ rows,
      resp = [("weather", Weather rows)] ∧
      Forall (fun r => 0 ≤ timestamp r ≤ 0 + one_day ∧ source_id r = 1) rows ∧
      StronglySorted (fun a b => timestamp a < timestamp b) rows ∧
      ((∀ w, w ∈ Db.weather Examples.hourly_db -> (3600 | Db.w_timestamp w)) ->
       (length rows ≤ 25)%nat).
Proof.
  eexists. split; [vm_compute; reflexivity|].
  apply (weather_interval_bounds Examples.hourly_db 0 None None None None 1
           default_max_dist true).
  vm_compute. reflexivity.
Defined.

(** C4 (as stated) fails: for a source with a row at every full hour,
    [weather(0, source_id=1)] returns 25 rows, the last one with
    [timestamp = 0 + 1 day]. *)
Lemma weather_interval_counterexample :
  ∃ rows,
    weather Examples.hourly_db 0 None None None None None (Some 1) default_max_dist true
      = Ok [("weather", Weather rows)] ∧
    length rows = 25%nat ∧
    timestamp <$> last rows = Some (0 + one_day) ∧
    ¬ (length rows ≤ 24)%nat ∧
    ¬ (0 + one_day < 0 + one_day).
Proof.
  eexists. split; [vm_compute; reflexivity|].
  split; [reflexivity|]. split; [reflexivity|]. split; [simpl; lia|lia].
Qed.

(** C10.  In a database where every weather row references an existing
    source, [weather(d, source_id=s)] returns a dictionary whose only key
    is ['weather']; it returns [{'weather': []}] when source [s] exists
    without rows in the interval; and it raises, and then [LookupError],
    exactly when no source has id [s]. *)
Theorem weather_by_source_id
    (db : Db.t) (date : Z) (last_date : option Z) (lat lon : option Q)
    (dwd_station_id wmo_station_id : option string) (sid : Z) (max_dist : Q)
    (fallback : bool) :
  (∀ w, w ∈ Db.weather db -> ∃ s, s ∈ Db.sources db ∧ Db.s_id s = Db.w_source_id w) ->
  (∀ resp,
     weather db date last_date lat lon dwd_station_id wmo_station_id (Some sid)
       max_dist fallback = Ok resp ->
     ∃ rows, resp = [("weather", Weather rows)]) ∧
  ((∃ s, s ∈ Db.sources db ∧ Db.s_id s = sid) ->
   (∀ w, w ∈ Db.weather db -> Db.w_source_id w = sid ->
         ¬ (date ≤ Db.w_timestamp w ≤ default (date + one_day) last_date)) ->
   weather db date last_date lat lon dwd_station_id wmo_station_id (Some sid)
     max_dist fallback = Ok [("weather", Weather [])]) ∧
  (weather db date last_date lat lon dwd_station_id wmo_station_id (Some sid)
     max_dist fallback = Raise (Exn "LookupError" "No sources match your criteria") <->
   ¬ ∃ s, s ∈ Db.sources db ∧ Db.s_id s = sid) ∧
  (∀ e,
     weather db date last_date lat lon dwd_station_id wmo_station_id (Some sid)
       max_dist fallback = Raise e ->
     e = Exn "LookupError" "No sources match your criteria").
Proof.
  intros Hfk. rewrite weather_by_id.
  destruct (sources_by_id db None None None None sid default_max_dist false)
    as [Hfound Hmissing].
  destruct (_weather db date (default (date + one_day) last_date) (Int sid) [])
    as [|d rows] eqn:E.
  - destruct (decide (Exists (fun s => Db.s_id s = sid) (Db.sources db))) as [Hex|Hno].
    + apply Exists_exists in Hex as (s & Hs & Hid).
      destruct Hfound as [resp0 ->]; [by exists s|].
      split_and!; [intros resp [= <-]; by eexists|done| |done].
      split; [done|]. intros Hno. destruct Hno. by exists s.
    + assert (¬ ∃ s, s ∈ Db.sources db ∧ Db.s_id s = sid) as Hno'.
      { intros (s & Hs & Hid). apply Hno, Exists_exists. by exists s. }
      rewrite (Hmissing Hno').
      split_and!; [done|by intros Hex|done|by intros e [= <-]].
  - split_and!; [intros resp [= <-]; by eexists| |split; [done|]|done].
    + intros _ Hnone. rewrite (weather_none _ _ _ _ Hnone) in E. done.
    + intros Hno. destruct Hno.
      assert (d ∈ _weather db date (default (date + one_day) last_date) (Int sid) [])
        as (w & Hw & (_ & Hsid & _) & _)%weather_elem by (rewrite E; left).
      destruct (Hfk w Hw) as (s & Hs & Hid). exists s. split; [done|]. congruence.
Qed.

Lemma weather_by_source_id_witness :
  (∀ w, w ∈ Db.weather Examples.hourly_db ->
        ∃ s, s ∈ Db.sources Examples.hourly_db ∧ Db.s_id s = Db.w_source_id w) ∧
  weather Examples.hourly_db 0 None None None None None (Some 2) default_max_dist true
    = Raise (Exn "LookupError" "No sources match your criteria") ∧
  weather Examples.hourly_db 172800 None None None None None (Some 1) default_max_dist true
    = Ok [("weather", Weather [])] ∧
  ¬ ∃ s, s ∈ Db.sources Examples.hourly_db ∧ Db.s_id s = 2.
Proof.
  assert (∀ w, w ∈ Db.weather Examples.hourly_db ->
               ∃ s, s ∈ Db.sources Examples.hourly_db ∧ Db.s_id s = Db.w_source_id w)
    as Hfk.
  { intros w Hw. eexists. split; [apply list_elem_of_here|].
    apply list_elem_of_fmap in Hw as (h & -> & _). reflexivity. }
  split; [exact Hfk|]. split; [vm_compute; reflexivity|]. split; [vm_compute; reflexivity|].
  apply (proj1 (proj2 (proj2 (weather_by_source_id Examples.hourly_db 0 None None None
                                None None 2 default_max_dist true Hfk)))).
  vm_compute. reflexivity.
Defined.

End weather_query.

(** ** Query: fallback fill *)

Section fallback.
Import Py Query.

Lemma missing_row_fields_elem row g :
  g ∈ missing_row_fields row <-> mget g (values row) = None.
Proof.
  unfold missing_row_fields. rewrite list_elem_of_filter.
  split; [by intros [? _]|]. intros Hg. split; [done|apply elem_of_all_fields].
Qed.

Lemma missing_fields_elem (incomplete_rows : list (weather_dict * list field))
    (acc : list field) (g : field) :
  g ∈ foldl (fun acc rf => list_union acc rf.2) acc incomplete_rows <->
  g ∈ acc ∨ ∃ rf, rf ∈ incomplete_rows ∧ g ∈ rf.2.
Proof.
  revert acc. induction incomplete_rows as [|rf l IH]; intros acc; simpl.
  - split; [by left|]. intros [?|(rf & ?%elem_of_nil & _)]; done.
  - rewrite IH, list_elem_of_union. split.
    + intros [[?|?]|(rf' & Hrf' & Hg)]; [by left| |].
      * right. exists rf. split; [left|done].
      * right. exists rf'. split; [by right|done].
    + intros [?|(rf' & [->|Hrf']%elem_of_cons & Hg)].
      * by left; left.
      * by left; right.
      * right. by exists rf'.
Qed.

Lemma by_timestamp_lookup rows t fb :
  by_timestamp rows !! t = Some fb -> fb ∈ rows ∧ timestamp fb = t.
Proof.
  unfold by_timestamp.
  rewrite (foldl_insert_lookup timestamp (fun row => row)), lookup_empty.
  destruct (List.find _ _) as [x|] eqn:E; [|done]. intros [= ->].
  apply find_some in E as [Hin Ht]. apply bool_decide_eq_true in Ht.
  split; [|done]. by apply in_rev, list_elem_of_In in Hin.
Qed.

Lemma by_timestamp_is_Some rows d :
  d ∈ rows -> is_Some (by_timestamp rows !! timestamp d).
Proof.
  intros Hd. unfold by_timestamp.
  rewrite (foldl_insert_lookup timestamp (fun row => row)), lookup_empty.
  destruct (List.find _ _) as [x|] eqn:E; [by eexists|].
  apply list_elem_of_In in Hd. apply in_rev in Hd.
  eapply find_none in E; [|exact Hd]. simpl in E.
  by rewrite bool_decide_eq_true_2 in E.
Qed.

(** One turn of [for f in fields] leaves timestamp and source id alone,
    sets the field it is run for, and keeps what an earlier turn has set. *)
Lemma fill_field_keys fb row g :
  timestamp (fill_field fb row g) = timestamp row ∧
  source_id (fill_field fb row g) = source_id row.
Proof. done. Qed.

Lemma fill_field_filled fb row f g :
  f = g ∨ (mget f (values row) = mget f (values fb) ∧
           fallback_source_ids row ≫= (.!! f) = Some (source_id fb)) ->
  mget f (values (fill_field fb row g)) = mget f (values fb) ∧
  fallback_source_ids (fill_field fb row g) ≫= (.!! f) = Some (source_id fb).
Proof.
  unfold fill_field. simpl. destruct (decide (g = f)) as [->|Hne].
  - intros _. by rewrite mget_mset_eq, lookup_insert_eq.
  - intros [?|[Hv Hid]]; [congruence|].
    rewrite mget_mset_ne, lookup_insert_ne by done. split; [done|].
    by destruct (fallback_source_ids row).
Qed.

Lemma fill_fields fb (fields : list field) row f :
  f ∈ fields ∨ (mget f (values row) = mget f (values fb) ∧
                fallback_source_ids row ≫= (.!! f) = Some (source_id fb)) ->
  let row' := foldl (fill_field fb) row fields in
  timestamp row' = timestamp row ∧
  mget f (values row') = mget f (values fb) ∧
  fallback_source_ids row' ≫= (.!! f) = Some (source_id fb).
Proof.
  revert row. induction fields as [|g fields IH]; intros row Hf; simpl.
  - destruct Hf as [?%elem_of_nil|?]; done.
  - destruct (IH (fill_field fb row g)) as (Hts & Hv & Hid).
    + destruct Hf as [[->|?]%elem_of_cons|Hset]; [|by left|].
      * right. apply fill_field_filled. by left.
      * right. apply fill_field_filled. by right.
    + done.
Qed.

Lemma fill_row_timestamp fallback_rows row fields :
  timestamp (fill_row fallback_rows row fields) = timestamp row.
Proof.
  unfold fill_row. destruct (fallback_rows !! timestamp row) as [fb|]; [|done].
  assert (∀ r, timestamp (foldl (fill_field fb) r fields) = timestamp r) as Hts.
  { induction fields as [|g fields IH]; intros r; simpl; [done|]. by rewrite IH. }
  by rewrite Hts.
Qed.

(** Strictly increasing timestamps identify a row. *)
Lemma increasing_unique (rows : list weather_dict) a b :
  StronglySorted (fun a b => timestamp a < timestamp b) rows ->
  a ∈ rows -> b ∈ rows -> timestamp a = timestamp b -> a = b.
Proof.
  induction 1 as [|x rows Hs IH Hall]; [by intros ?%elem_of_nil|].
  rewrite Forall_forall in Hall.
  intros [->|Ha]%elem_of_cons [->|Hb]%elem_of_cons Hts; [done| | |by apply IH].
  - specialize (Hall b Hb). lia.
  - specialize (Hall a Ha). lia.
Qed.

Lemma StronglySorted_filter {A} (R : relation A) (P : A -> Prop)
    `{!∀ x, Decision (P x)} (l : list A) :
  StronglySorted R l -> StronglySorted R (filter P l).
Proof.
  induction 1 as [|x l Hs IH Hall]; [constructor|].
  rewrite filter_cons. case_decide; [|done].
  constructor; [done|]. rewrite Forall_forall in *.
  intros y [_ Hy]%list_elem_of_filter. by apply Hall.
Qed.

(** In a list with increasing timestamps every item lies between the first
    and the last one. *)
Lemma increasing_bounds {A} (ts : A -> Z) (l : list A) first rest final x :
  StronglySorted (fun a b => ts a < ts b) l ->
  l = first :: rest -> last l = Some final -> x ∈ l ->
  ts first ≤ ts x ≤ ts final.
Proof.
  intros Hs Hl Hlast Hx. split.
  - subst l. apply StronglySorted_cons in Hs as [Hall _].
    rewrite Forall_forall in Hall.
    apply elem_of_cons in Hx as [->|Hx]; [done|]. specialize (Hall x Hx). lia.
  - apply last_Some in Hlast as [l' ->].
    apply elem_of_app in Hx as [Hx|Hx%list_elem_of_singleton]; [|by subst].
    pose proof (StronglySorted_app_1_elem_of _ _ _ x final Hs Hx) as Hlt.
    simpl in Hlt. assert (ts x < ts final); [|lia]. apply Hlt. left.
Qed.

(** The rows of [weather_rows] that have a missing field. *)
Lemma incomplete_rows_elem (weather_rows : list weather_dict) row :
  row ∈ weather_rows -> missing_row_fields row ≠ [] ->
  (row, missing_row_fields row) ∈
    filter (fun rf : weather_dict * list field => rf.2 ≠ [])
      (map (fun row => (row, missing_row_fields row)) weather_rows).
Proof.
  intros Hrow Hne. apply list_elem_of_filter. split; [done|].
  apply list_elem_of_fmap. by exists row.
Qed.

Lemma incomplete_rows_increasing (weather_rows : list weather_dict) :
  StronglySorted (fun a b => timestamp a < timestamp b) weather_rows ->
  StronglySorted (fun a b : weather_dict * list field => timestamp a.1 < timestamp b.1)
    (filter (fun rf : weather_dict * list field => rf.2 ≠ [])
       (map (fun row => (row, missing_row_fields row)) weather_rows)).
Proof.
  intros Hs. apply StronglySorted_filter.
  eapply (StronglySorted_fmap _ (fun a b => timestamp a < timestamp b)); [|done].
  by intros a b.
Qed.

(** What [_fill_missing_fields] leaves in the row at the timestamp of an
    incomplete row, when the table has a row of a candidate source at that
    timestamp in which every field missing anywhere in [weather_rows] is
    present. *)
Lemma fill_missing_fields_row db date last_date source_ids primary f c r' :
  let weather_rows := _weather db date last_date (List source_ids) [] in
  primary ∈ weather_rows ->
  mget f (values primary) = None ->
  c ∈ Db.weather db ->
  Db.w_timestamp c = timestamp primary ->
  Db.w_source_id c ∈ source_ids ->
  (∀ row g, row ∈ weather_rows -> mget g (values row) = None ->
            mget g (Db.w_values c) ≠ None) ->
  r' ∈ _fill_missing_fields db weather_rows date last_date source_ids ->
  timestamp r' = timestamp primary ->
  ∃ v w,
    mget f (values r') = Some v ∧
    fallback_source_ids r' ≫= (.!! f) = Some (Db.w_source_id w) ∧
    Db.w_source_id w ∈ source_ids ∧
    w ∈ Db.weather db ∧
    Db.w_timestamp w = timestamp primary ∧
    mget f (Db.w_values w) = Some v.
Proof.
  intros weather_rows Hprimary Hf Hc Hct Hcs Hall.
  pose proof (weather_increasing db date last_date (List source_ids) []) as Hs.
  fold weather_rows in Hs.
  assert (f ∈ missing_row_fields primary) as Hfm by by apply missing_row_fields_elem.
  assert (missing_row_fields primary ≠ []) as Hne.
  { intros E. rewrite E in Hfm. by apply elem_of_nil in Hfm. }
  pose proof (incomplete_rows_elem weather_rows primary Hprimary Hne) as Hinc.
  pose proof (incomplete_rows_increasing weather_rows Hs) as Hsinc.
  unfold _fill_missing_fields.
  set (incomplete_rows := filter _ _) in *.
  set (missing_fields := foldl _ [] incomplete_rows).
  destruct incomplete_rows as [|first rest] eqn:Einc; [by apply elem_of_nil in Hinc|].
  destruct (last (first :: rest)) as [final|] eqn:Elast.
  2:{ by apply last_None in Elast. }
  rewrite <- Einc in Hinc, Hsinc.
  assert (timestamp first.1 ≤ timestamp primary ≤ timestamp final.1) as Hbounds.
  { apply (increasing_bounds (fun rf : weather_dict * list field => timestamp rf.1)
             incomplete_rows first rest final (primary, missing_row_fields primary));
      [done|done|by rewrite Einc|done]. }
  set (fallback := _weather db (timestamp first.1) (timestamp final.1)
                     (List source_ids) missing_fields).
  assert (∀ g, g ∈ missing_fields <->
               ∃ row, row ∈ weather_rows ∧ mget g (values row) = None) as Hmf.
  { intros g. unfold missing_fields. rewrite missing_fields_elem, <- Einc. split.
    - intros [?%elem_of_nil|(rf & Hrf & Hg)]; [done|].
      apply list_elem_of_filter in Hrf as [_ Hrf].
      apply list_elem_of_fmap in Hrf as (row & -> & Hrow).
      exists row. split; [done|]. by apply missing_row_fields_elem.
    - intros (row & Hrow & Hg). right.
      exists (row, missing_row_fields row). simpl.
      assert (g ∈ missing_row_fields row) as Hgm by by apply missing_row_fields_elem.
      split; [|done]. apply incomplete_rows_elem; [done|].
      intros E. rewrite E in Hgm. by apply elem_of_nil in Hgm. }
  assert (where_ (timestamp first.1) (timestamp final.1) (List source_ids)
            missing_fields c) as Hwhere.
  { split_and!; [lia|lia|done|]. apply Forall_forall. intros g Hg.
    apply Hmf in Hg as (row & Hrow & Hg). by eapply Hall. }
  destruct (weather_covers db _ _ _ _ c Hc Hwhere) as (d & Hd & Hdt).
  destruct (by_timestamp_is_Some fallback d Hd) as [fb Hfb].
  rewrite Hdt, Hct in Hfb.
  destruct (by_timestamp_lookup _ _ _ Hfb) as [Hfbin Hfbt].
  apply weather_elem in Hfbin as (w & Hw & (_ & Hwid & Hwnn) & Efb).
  intros Hr' Hts.
  apply list_elem_of_fmap in Hr' as (r0 & -> & Hr0).
  assert (r0 = primary) as ->.
  { apply (increasing_unique weather_rows); [done|done|done|].
    rewrite <- Hts. case_bool_decide; [|done]. by rewrite fill_row_timestamp. }
  rewrite bool_decide_eq_true_2 by done.
  unfold fill_row. fold fallback. rewrite Hfb.
  destruct (fill_fields fb (missing_row_fields primary)
              (WeatherDict (timestamp primary) (source_id primary) (values primary) (Some ∅))
              f (or_introl Hfm)) as (_ & Hv & Hid).
  rewrite Forall_forall in Hwnn.
  assert (f ∈ missing_fields) as Hfmf by (apply Hmf; by exists primary).
  specialize (Hwnn f Hfmf).
  destruct (mget f (Db.w_values w)) as [v|] eqn:Ev; [|done].
  exists v, w. rewrite Hv, Hid. subst fb. simpl in *.
  split_and!; done.
Qed.

(** C1 (amended).  For every call [weather(date, last_date, ...,
    fallback=true)] over the candidate sources [sources(...)] resolves: if
    the primary row at timestamp t has a null field f, and some candidate
    source has a row at t in which every field that is null in any primary
    row is non-null, then the returned row at t has a non-null f, and
    [fallback_source_ids[f]] is the id of a candidate source whose row at t
    holds that value. *)
Theorem fallback_fill
    (db : Db.t) (date : Z) (last_date : option Z) (lat lon : option Q)
    (dwd_station_id wmo_station_id : option string) (max_dist : Q)
    (candidates : list source_dict) (primary : weather_dict) (f : field)
    (c : Db.weather_row) :
  sources_rows db lat lon dwd_station_id wmo_station_id None max_dist false = Ok candidates ->
  primary ∈ _weather db date (default (date + one_day) last_date)
              (List (map id candidates)) [] ->
  mget f (values primary) = None ->
  c ∈ Db.weather db ->
  Db.w_timestamp c = timestamp primary ->
  Db.w_source_id c ∈ map id candidates ->
  (∀ row g,
     row ∈ _weather db date (default (date + one_day) last_date)
             (List (map id candidates)) [] ->
     mget g (values row) = None ->
     mget g (Db.w_values c) ≠ None) ->
  ∃ rows used,
    weather db date last_date lat lon dwd_station_id wmo_station_id None max_dist true
      = Ok [("weather", Weather rows); ("sources", Sources used)] ∧
    (∃ r', r' ∈ rows ∧ timestamp r' = timestamp primary) ∧
    ∀ r', r' ∈ rows -> timestamp r' = timestamp primary ->
      ∃ v w,
        mget f (values r') = Some v ∧
        fallback_source_ids r' ≫= (.!! f) = Some (Db.w_source_id w) ∧
        Db.w_source_id w ∈ map id candidates ∧
        w ∈ Db.weather db ∧
        Db.w_timestamp w = timestamp primary ∧
        mget f (Db.w_values w) = Some v.
Proof.
  intros Hsources Hprimary Hf Hc Hct Hcs Hall.
  unfold weather. rewrite Hsources. cbn [mbind result_bind bind].
  replace (match last_date with Some d => d | None => date + one_day end)
    with (default (date + one_day) last_date) by by destruct last_date.
  do 2 eexists. split; [reflexivity|]. split.
  - assert (missing_row_fields primary ≠ []) as Hne.
    { intros E. assert (f ∈ missing_row_fields primary) as Hfm
        by by apply missing_row_fields_elem.
      rewrite E in Hfm. by apply elem_of_nil in Hfm. }
    pose proof (incomplete_rows_elem _ primary Hprimary Hne) as Hinc.
    unfold _fill_missing_fields.
    destruct (filter _ _) as [|first rest] eqn:Einc; [by apply elem_of_nil in Hinc|].
    destruct (last (first :: rest)) as [final|] eqn:Elast.
    2:{ by apply last_None in Elast. }
    eexists. split.
    + apply list_elem_of_fmap. exists primary. split; [reflexivity|done].
    + rewrite bool_decide_eq_true_2 by done. apply fill_row_timestamp.
  - intros r' Hr' Hts.
    by apply (fill_missing_fields_row db date (default (date + one_day) last_date)
                (map id candidates) primary f c r').
Qed.

Lemma fallback_fill_witness :
  let candidates :=
    [SourceDict (Db.SourceRow 1 (Some "01001") None "JAN MAYEN" "current"
                   (709 # 10)%Q (-87 # 10)%Q 10%Q) None;
     SourceDict (Db.SourceRow 2 (Some "01001") None "JAN MAYEN" "forecast"
                   (709 # 10)%Q (-87 # 10)%Q 10%Q) None] in
  let primary := WeatherDict 0 1 (Examples.partial_values None None) None in
  let c := Db.WeatherRow 0 2 (Examples.partial_values (Some 280%Q) (Some 101300%Q)) in
  sources_rows Examples.full_fallback_db None None (Some "01001") None None
    default_max_dist false = Ok candidates ∧
  primary ∈ _weather Examples.full_fallback_db 0 (default (0 + one_day) None)
              (List (map id candidates)) [] ∧
  mget pressure_msl (values primary) = None ∧
  c ∈ Db.weather Examples.full_fallback_db ∧
  Db.w_timestamp c = timestamp primary ∧
  Db.w_source_id c ∈ map id candidates ∧
  ∃ rows used,
    weather Examples.full_fallback_db 0 None None None (Some "01001") None None
      default_max_dist true
      = Ok [("weather", Weather rows); ("sources", Sources used)] ∧
    (∃ r', r' ∈ rows ∧ timestamp r' = timestamp primary) ∧
    ∀ r', r' ∈ rows -> timestamp r' = timestamp primary ->
      ∃ v w,
        mget pressure_msl (values r') = Some v ∧
        fallback_source_ids r' ≫= (.!! pressure_msl) = Some (Db.w_source_id w) ∧
        Db.w_source_id w ∈ map id candidates ∧
        w ∈ Db.weather Examples.full_fallback_db ∧
        Db.w_timestamp w = timestamp primary ∧
        mget pressure_msl (Db.w_values w) = Some v.
Proof.
  intros candidates primary c.
  assert (sources_rows Examples.full_fallback_db None None (Some "01001") None None
            default_max_dist false = Ok candidates) as Hsources.
  { vm_compute. reflexivity. }
  assert (_weather Examples.full_fallback_db 0 (default (0 + one_day) None)
            (List (map id candidates)) [] = [primary]) as Hrows.
  { vm_compute. reflexivity. }
  assert (primary ∈ _weather Examples.full_fallback_db 0 (default (0 + one_day) None)
                      (List (map id candidates)) []) as Hprimary.
  { rewrite Hrows. apply list_elem_of_here. }
  assert (c ∈ Db.weather Examples.full_fallback_db) as Hc.
  { apply list_elem_of_further, list_elem_of_here. }
  assert (Db.w_source_id c ∈ map id candidates) as Hcs.
  { apply list_elem_of_further, list_elem_of_here. }
  split_and!; [exact Hsources|exact Hprimary|reflexivity|exact Hc|reflexivity|exact Hcs|].
  apply (fallback_fill Examples.full_fallback_db 0 None None None (Some "01001") None
           default_max_dist candidates primary pressure_msl c
           Hsources Hprimary eq_refl Hc eq_refl Hcs).
  intros row g Hrow. rewrite Hrows in Hrow.
  apply list_elem_of_singleton in Hrow. subst row.
  destruct g; simpl; discriminate.
Defined.

(** C1 (as stated) fails: the primary row at 0 (source 1) lacks temperature
    and pressure; candidate source 2 has a temperature at 0 but no pressure.
    The one fallback query asks for rows with both, finds none, and the
    returned row keeps a null temperature and no [fallback_source_ids]. *)
Lemma fallback_fill_counterexample :
  ∃ r used,
    weather Examples.partial_fallback_db 0 None None None (Some "01001") None None
      default_max_dist true
      = Ok [("weather", Weather [r]); ("sources", Sources used)] ∧
    map id used = [1] ∧
    timestamp r = 0 ∧ source_id r = 1 ∧
    Db.WeatherRow 0 2 (Examples.partial_values (Some 280%Q) None)
      ∈ Db.weather Examples.partial_fallback_db ∧
    mget temperature (values r) = None ∧
    fallback_source_ids r = None.
Proof.
  do 2 eexists. split; [vm_compute; reflexivity|].
  split_and!; try reflexivity.
  apply list_elem_of_further, list_elem_of_here.
Qed.

End fallback.

(** ** Query: the sources query *)

Section sources_query.
Import Py Query.

(** A successful [sources] call returns the sorted matching rows, and there
    is at least one. *)
Lemma sources_rows_ok db lat lon dwd_station_id wmo_station_id source_id max_dist
    ignore_type rows :
  sources_rows db lat lon dwd_station_id wmo_station_id source_id max_dist ignore_type
    = Ok rows ->
  ∃ sql,
    sources_sql_of db lat lon dwd_station_id wmo_station_id source_id max_dist ignore_type
      = Ok sql ∧
    rows = merge_sort (fun a b => Is_true (order_by_sources sql a b))
             (map (select sql) (List.filter (where_sources sql) (Db.sources db))) ∧
    rows ≠ [].
Proof.
  unfold sources_rows.
  destruct (sources_sql_of _ _ _ _ _ _ _ _) as [sql|e]; [|done].
  cbn [mbind result_bind bind]. destruct (merge_sort _ _) as [|x l] eqn:E; [done|].
  intros [= <-]. by exists sql.
Qed.

Lemma sources_rows_elem db lat lon dwd_station_id wmo_station_id source_id max_dist
    ignore_type rows sql s :
  sources_rows db lat lon dwd_station_id wmo_station_id source_id max_dist ignore_type
    = Ok rows ->
  sources_sql_of db lat lon dwd_station_id wmo_station_id source_id max_dist ignore_type
    = Ok sql ->
  s ∈ rows <->
  ∃ r, r ∈ Db.sources db ∧ where_sources sql r = true ∧ s = select sql r.
Proof.
  intros (sql' & Hsql' & -> & _)%sources_rows_ok Hsql.
  rewrite Hsql in Hsql'. injection Hsql' as <-.
  rewrite merge_sort_Permutation, list_elem_of_fmap. split.
  - intros (r & -> & Hr). apply list_elem_of_In, filter_In in Hr as [Hr Hw].
    exists r. by rewrite list_elem_of_In.
  - intros (r & Hr & Hw & ->). exists r. split; [done|].
    apply list_elem_of_In, filter_In. by rewrite <- list_elem_of_In.
Qed.

Lemma sources_rows_none db lat lon dwd_station_id wmo_station_id source_id max_dist
    ignore_type sql :
  sources_sql_of db lat lon dwd_station_id wmo_station_id source_id max_dist ignore_type
    = Ok sql ->
  (∀ r, r ∈ Db.sources db -> where_sources sql r = false) ->
  sources_rows db lat lon dwd_station_id wmo_station_id source_id max_dist ignore_type
    = Raise (Exn "LookupError" "No sources match your criteria").
Proof.
  intros Hsql Hnone. unfold sources_rows. rewrite Hsql. cbn [mbind result_bind bind].
  replace (List.filter (where_sources sql) (Db.sources db)) with (@nil Db.source_row);
    [done|].
  symmetry. induction (Db.sources db) as [|r l IH]; simpl; [done|].
  rewrite (Hnone r) by left. apply IH. intros r' Hr'. apply Hnone. by right.
Qed.

(** The sorted selection is empty exactly when no row of the table passes
    the WHERE clause. *)
Lemma sorted_selection_nil {A B} (R : relation B) `{!∀ x y, Decision (R x y)}
    (f : A -> B) (w : A -> bool) (l : list A) :
  merge_sort R (map f (List.filter w l)) = [] <-> ∀ r, r ∈ l -> w r = false.
Proof.
  split.
  - intros E r Hr. destruct (w r) eqn:Hw; [|done].
    assert (f r ∈ merge_sort R (map f (List.filter w l))) as Hin.
    { rewrite merge_sort_Permutation. apply list_elem_of_fmap. exists r.
      split; [done|]. apply list_elem_of_In, filter_In. by rewrite <- list_elem_of_In. }
    rewrite E in Hin. by apply elem_of_nil in Hin.
  - intros Hnone.
    replace (List.filter w l) with (@nil A); [done|].
    symmetry. induction l as [|r l IH]; simpl; [done|].
    rewrite (Hnone r) by left. apply IH. intros r' Hr'. apply Hnone. by right.
Qed.

(** [sources] has three outcomes.  It raises [ValueError] exactly when it
    is given no criterion (no source id, no station id of either kind, and
    not both of lat and lon).  Given a criterion, it raises [LookupError]
    exactly when no row of the sources table matches the first criterion
    given (source id, then national station id, then WMO id, then the box
    and distance test around lat and lon), and it returns a dictionary
    exactly when some row does: the dictionary has the single key
    ['sources'] and at least one row. *)
Theorem sources_failures
    (db : Db.t) (lat lon : option Q) (dwd_station_id wmo_station_id : option string)
    (source_id : option Z) (max_dist : Q) (ignore_type : bool) :
  let no_criterion :=
    source_id = None ∧ dwd_station_id = None ∧ wmo_station_id = None ∧
    (lat = None ∨ lon = None) in
  let matches (r : Db.source_row) : Prop :=
    match source_id, dwd_station_id, wmo_station_id, lat, lon with
    | Some i, _, _, _, _ => Db.s_id r = i
    | None, Some d, _, _, _ => Db.s_station_id r = Some d
    | None, None, Some w, _, _ => Db.s_wmo_station_id r = Some w
    | None, None, None, Some la, Some lo =>
        Db.earth_box_contains (Db.fns db) la lo max_dist (Db.s_lat r) (Db.s_lon r) = true ∧
        (Db.earth_distance (Db.fns db) la lo (Db.s_lat r) (Db.s_lon r) < max_dist)%Q
    | _, _, _, _, _ => False
    end in
  let result :=
    sources db lat lon dwd_station_id wmo_station_id source_id max_dist ignore_type in
  (result =
   Raise (Exn "ValueError"
            "Please supply lat/lon or dwd_station_id or wmo_station_id or source_id") <->
   no_criterion) ∧
  (result = Raise (Exn "LookupError" "No sources match your criteria") <->
   ¬ no_criterion ∧ ∀ r, r ∈ Db.sources db -> ¬ matches r) ∧
  ((∃ resp, result = Ok resp) <-> ∃ r, r ∈ Db.sources db ∧ matches r) ∧
  (∀ e, result = Raise e ->
        e = Exn "ValueError"
              "Please supply lat/lon or dwd_station_id or wmo_station_id or source_id" ∨
        e = Exn "LookupError" "No sources match your criteria") ∧
  (∀ resp, result = Ok resp -> ∃ rows, resp = [("sources", Sources rows)] ∧ rows ≠ []).
Proof.
  intros no_criterion matches result. subst result. unfold sources, sources_rows.
  destruct (sources_sql_of db lat lon dwd_station_id wmo_station_id source_id max_dist
              ignore_type) as [sql|e] eqn:Hsql; cbn [mbind result_bind bind].
  - assert (¬ no_criterion) as Hcrit.
    { intros (-> & -> & -> & Hll). unfold sources_sql_of in Hsql.
      destruct lat, lon, Hll; done. }
    assert (∀ r, where_sources sql r = true <-> matches r) as Hwhere.
    { intros r. unfold sources_sql_of in Hsql. subst matches.
      destruct source_id, dwd_station_id, wmo_station_id, lat, lon; try done;
        injection Hsql as <-; cbn [where_sources];
        rewrite ?bool_decide_eq_true; try done.
      rewrite andb_true_iff. by rewrite Qltb_lt. }
    pose proof (sorted_selection_nil (fun a b => Is_true (order_by_sources sql a b))
                  (select sql) (where_sources sql) (Db.sources db)) as Hnil.
    destruct (merge_sort _ _) as [|x l]; cbn [mbind result_bind bind].
    + pose proof (proj1 Hnil eq_refl) as Hnone. split_and!.
      * split; [done|]. intros Hno. by destruct Hcrit.
      * split; [|done]. intros _. split; [done|].
        intros r Hr Hm%Hwhere. by rewrite (Hnone r Hr) in Hm.
      * split; [by intros [resp [=]]|].
        intros (r & Hr & Hm%Hwhere). by rewrite (Hnone r Hr) in Hm.
      * intros e [= <-]. by right.
      * done.
    + assert (∃ r, r ∈ Db.sources db ∧ matches r) as Hsome.
      { destruct (decide (Forall (fun r => where_sources sql r = false) (Db.sources db)))
          as [Hall|Hex].
        - rewrite Forall_forall in Hall. by apply Hnil in Hall.
        - apply not_Forall_Exists in Hex; [|apply _].
          apply Exists_exists in Hex as (r & Hr & Hw). exists r. split; [done|].
          apply Hwhere. unfold compose in Hw. by apply not_false_is_true. }
      split_and!.
      * split; [done|]. intros Hno. by destruct Hcrit.
      * split; [done|]. intros [_ Hnone]. destruct Hsome as (r & Hr & Hm).
        by destruct (Hnone r Hr).
      * split; [done|]. intros _. by eexists.
      * done.
      * intros resp [= <-]. by eexists.
  - unfold sources_sql_of in Hsql.
    assert (no_criterion ∧ ∀ r, ¬ matches r) as [Hno Hm].
    { subst no_criterion matches.
      destruct source_id, dwd_station_id, wmo_station_id, lat, lon; try done;
        (split; [split_and!; auto|intros r Hr; exact Hr]). }
    assert (e = Exn "ValueError"
                  "Please supply lat/lon or dwd_station_id or wmo_station_id or source_id")
      as ->.
    { destruct source_id, dwd_station_id, wmo_station_id, lat, lon; try done;
        by injection Hsql as <-. }
    split_and!.
    + done.
    + split; [done|]. by intros [Hcrit _].
    + split; [by intros [resp [=]]|]. intros (r & _ & Hr). by destruct (Hm r).
    + intros e [= <-]. by left.
    + done.
Qed.

(** [sources] returns exactly the rows that match its first criterion, in
    the precedence source id, national station id, WMO id, whatever the
    later criteria hold. *)
Theorem sources_exact_criteria
    (db : Db.t) (lat lon : option Q) (max_dist : Q) (ignore_type : bool) :
  (∀ i dwd_station_id wmo_station_id rows s,
     sources_rows db lat lon dwd_station_id wmo_station_id (Some i) max_dist ignore_type
       = Ok rows ->
     s ∈ rows <-> ∃ r, r ∈ Db.sources db ∧ Db.s_id r = i ∧ s = SourceDict r None) ∧
  (∀ d wmo_station_id rows s,
     sources_rows db lat lon (Some d) wmo_station_id None max_dist ignore_type = Ok rows ->
     s ∈ rows <->
     ∃ r, r ∈ Db.sources db ∧ Db.s_station_id r = Some d ∧ s = SourceDict r None) ∧
  (∀ w rows s,
     sources_rows db lat lon None (Some w) None max_dist ignore_type = Ok rows ->
     s ∈ rows <->
     ∃ r, r ∈ Db.sources db ∧ Db.s_wmo_station_id r = Some w ∧ s = SourceDict r None).
Proof.
  split_and!.
  - intros i dwd_station_id wmo_station_id rows s Hrows.
    rewrite (sources_rows_elem _ _ _ _ _ _ _ _ _ _ s Hrows eq_refl). simpl.
    by setoid_rewrite bool_decide_eq_true.
  - intros d wmo_station_id rows s Hrows.
    rewrite (sources_rows_elem _ _ _ _ _ _ _ _ _ _ s Hrows eq_refl). simpl.
    by setoid_rewrite bool_decide_eq_true.
  - intros w rows s Hrows.
    rewrite (sources_rows_elem _ _ _ _ _ _ _ _ _ _ s Hrows eq_refl). simpl.
    by setoid_rewrite bool_decide_eq_true.
Qed.

Lemma sources_exact_criteria_witness :
  ∃ rows,
    sources_rows Examples.three_sources_db (Some 52%Q) (Some 13%Q) (Some "01001")
      (Some "10115") (Some 3) default_max_dist false = Ok rows ∧
    ∀ s, s ∈ rows <->
         ∃ r, r ∈ Db.sources Examples.three_sources_db ∧ Db.s_id r = 3 ∧
              s = SourceDict r None.
Proof.
  eexists. split; [vm_compute; reflexivity|]. intros s.
  apply (proj1 (sources_exact_criteria Examples.three_sources_db (Some 52%Q) (Some 13%Q)
                  default_max_dist false) 3 (Some "01001") (Some "10115")).
  vm_compute. reflexivity.
Defined.

Lemma Sorted_weaken {A} (R1 R2 : relation A) (l : list A) :
  (∀ a b, R1 a b -> R2 a b) -> Sorted R1 l -> Sorted R2 l.
Proof.
  intros HR. induction 1 as [|x l Hs IH Hhd]; constructor; [done|].
  destruct Hhd; constructor. by apply HR.
Qed.

#[local] Instance by_observation_type_total db :
  Total (fun a b => Is_true (by_observation_type db a b)).
Proof.
  intros a b. unfold by_observation_type.
  rewrite !bool_decide_spec. lia.
Qed.

#[local] Instance by_distance_total : Total (fun a b => Is_true (by_distance a b)).
Proof.
  intros a b. unfold by_distance.
  destruct (distance a) as [x|], (distance b) as [y|]; simpl; auto.
  rewrite !Is_true_true, !Qle_bool_iff.
  destruct (Qlt_le_dec x y) as [?%Qlt_le_weak|?]; auto.
Qed.

#[local] Instance by_observation_type_then_distance_total db :
  Total (fun a b => Is_true (by_observation_type_then_distance db a b)).
Proof.
  intros a b. unfold by_observation_type_then_distance.
  rewrite !orb_True, !andb_True, !bool_decide_spec.
  set (ra := Db.observation_type_rank _ _). set (rb := Db.observation_type_rank _ _).
  destruct (by_distance_total a b), (Z.lt_trichotomy ra rb) as [?|[?|?]];
    naive_solver.
Qed.

(** Unless [ignore_type] is set in a lat/lon query, the rows [sources]
    returns are in the order of their observation types. *)
Theorem sources_in_observation_type_order
    (db : Db.t) (lat lon : option Q) (dwd_station_id wmo_station_id : option string)
    (source_id : option Z) (max_dist : Q) (ignore_type : bool) (rows : list source_dict) :
  ignore_type = false ∨ source_id ≠ None ∨ dwd_station_id ≠ None ∨ wmo_station_id ≠ None ->
  sources_rows db lat lon dwd_station_id wmo_station_id source_id max_dist ignore_type
    = Ok rows ->
  StronglySorted
    (fun a b =>
       Db.observation_type_rank (Db.fns db) (Db.s_observation_type (source a)) ≤
       Db.observation_type_rank (Db.fns db) (Db.s_observation_type (source b)))
    rows.
Proof.
  intros Hmode (sql & Hsql & -> & _)%sources_rows_ok.
  apply Sorted_StronglySorted; [intros a b c; lia|].
  assert (∀ a b, Is_true (order_by_sources sql a b) ->
                 Db.observation_type_rank (Db.fns db) (Db.s_observation_type (source a)) ≤
                 Db.observation_type_rank (Db.fns db) (Db.s_observation_type (source b)))
    as Hweak.
  { unfold sources_sql_of in Hsql.
    destruct source_id, dwd_station_id, wmo_station_id, lat, lon, ignore_type;
      try done; try (by destruct Hmode as [?|[?|[?|?]]]);
      injection Hsql as <-; intros a b; cbn [order_by_sources];
      unfold by_observation_type, by_observation_type_then_distance;
      rewrite ?orb_True, ?andb_True, ?bool_decide_spec; lia. }
  eapply Sorted_weaken; [exact Hweak|].
  unfold sources_sql_of in Hsql.
  destruct source_id, dwd_station_id, wmo_station_id, lat, lon, ignore_type;
    try done; try (by destruct Hmode as [?|[?|[?|?]]]);
    injection Hsql as <-; cbn [order_by_sources];
    apply Sorted_merge_sort; apply _.
Qed.

Lemma sources_in_observation_type_order_witness :
  ∃ rows,
    sources_rows Examples.three_sources_db None None (Some "01001") None None
      default_max_dist false = Ok rows ∧
    map id rows = [1; 2] ∧
    StronglySorted
      (fun a b =>
         Db.observation_type_rank (Db.fns Examples.three_sources_db)
           (Db.s_observation_type (source a)) ≤
         Db.observation_type_rank (Db.fns Examples.three_sources_db)
           (Db.s_observation_type (source b)))
      rows.
Proof.
  eexists. split; [vm_compute; reflexivity|]. split; [reflexivity|].
  apply (sources_in_observation_type_order Examples.three_sources_db None None
           (Some "01001") None None default_max_dist false).
  - by left.
  - vm_compute. reflexivity.
Defined.

(** A lat/lon query returns exactly the sources inside the earth box and
    strictly closer than [max_dist], each with its distance; with
    [ignore_type] they come in the order of their distances. *)
Theorem sources_near
    (db : Db.t) (la lo max_dist : Q) (ignore_type : bool) (rows : list source_dict) :
  sources_rows db (Some la) (Some lo) None None None max_dist ignore_type = Ok rows ->
  (∀ s, s ∈ rows <->
        ∃ r, r ∈ Db.sources db ∧
             Db.earth_box_contains (Db.fns db) la lo max_dist (Db.s_lat r) (Db.s_lon r)
               = true ∧
             (Db.earth_distance (Db.fns db) la lo (Db.s_lat r) (Db.s_lon r) < max_dist)%Q ∧
             s = SourceDict r
                   (Some (Db.earth_distance (Db.fns db) la lo (Db.s_lat r) (Db.s_lon r)))) ∧
  (ignore_type = true ->
   Sorted (fun a b => ∀ x y, distance a = Some x -> distance b = Some y -> (x <= y)%Q)
     rows).
Proof.
  intros Hrows. split.
  - intros s. rewrite (sources_rows_elem _ _ _ _ _ _ _ _ _ _ s Hrows eq_refl).
    cbn [where_sources select]. split.
    + intros (r & Hr & [Hbox Hd%Qltb_lt]%andb_true_iff & ->). by exists r.
    + intros (r & Hr & Hbox & Hd & ->). exists r. split; [done|]. split; [|done].
      apply andb_true_iff. split; [done|]. by apply Qltb_lt.
  - intros ->. apply sources_rows_ok in Hrows as (sql & [= <-] & -> & _).
    cbn [order_by_sources].
    eapply Sorted_weaken; [|apply Sorted_merge_sort; apply _].
    intros a b Hab x y Hx Hy. unfold by_distance in Hab. rewrite Hx, Hy in Hab.
    by apply Qle_bool_iff, Is_true_true.
Qed.

Lemma sources_near_witness :
  ∃ rows,
    sources_rows Examples.three_sources_db (Some 52%Q) (Some 13%Q) None None None
      default_max_dist true = Ok rows ∧
    length rows = 3%nat ∧
    Sorted (fun a b => ∀ x y, distance a = Some x -> distance b = Some y -> (x <= y)%Q)
      rows.
Proof.
  eexists. split; [vm_compute; reflexivity|]. split; [reflexivity|].
  by apply (proj2 (sources_near Examples.three_sources_db 52%Q 13%Q default_max_dist true
                     _ eq_refl)).
Defined.

End sources_query.

(** ** Query: source preference *)

Section preference.
Import Py Query.

#[local] Existing Instance order_by_transitive.
#[local] Existing Instance order_by_total.

(** Over ordered rows, [DISTINCT ON] keeps the first row of every
    timestamp. *)
Lemma distinct_on_timestamp_first source_id prev rows x y :
  StronglySorted (order_by source_id) rows ->
  (∀ t r, prev = Some t -> r ∈ rows -> t ≤ Db.w_timestamp r) ->
  x ∈ distinct_on_timestamp prev rows ->
  y ∈ rows ->
  Db.w_timestamp y = Db.w_timestamp x ->
  order_by source_id x y.
Proof.
  intros Hs. revert prev.
  induction Hs as [|a rows Hs IH Hall]; intros prev Hprev Hx Hy Hts.
  - by apply elem_of_nil in Hy.
  - assert (StronglySorted (fun a b => Db.w_timestamp a ≤ Db.w_timestamp b) rows) as Hs'.
    { eapply StronglySorted_weaken; [apply order_by_timestamp|done]. }
    rewrite Forall_forall in Hall. simpl in Hx. case_bool_decide as E.
    + assert (∀ t r, prev = Some t -> r ∈ rows -> t ≤ Db.w_timestamp r) as Hprev'.
      { intros t r Ht Hr. apply (Hprev t r Ht). by right. }
      apply elem_of_cons in Hy as [->|Hy]; [|by eapply IH].
      destruct (distinct_on_timestamp_increasing prev rows Hs' Hprev') as [_ Hlt].
      specialize (Hlt _ x E Hx). lia.
    + assert (∀ t r, Some (Db.w_timestamp a) = Some t -> r ∈ rows -> t ≤ Db.w_timestamp r)
        as Hprev'.
      { intros t r [= <-] Hr. by apply order_by_timestamp with source_id, Hall. }
      apply elem_of_cons in Hx as [->|Hx].
      * apply elem_of_cons in Hy as [->|Hy]; [|by apply Hall].
        match goal with
        | |- order_by _ ?z ?z => by destruct (order_by_total source_id z z)
        end.
      * apply elem_of_cons in Hy as [->|Hy]; [|by eapply IH].
        destruct (distinct_on_timestamp_increasing _ rows Hs' Hprev') as [_ Hlt].
        specialize (Hlt _ x eq_refl Hx). lia.
Qed.

(** For every timestamp at which some candidate source has a row in the
    interval with the required fields non-null, [_weather] over the
    candidate list returns exactly one row.  That row is a row of the
    table, at that timestamp, of a candidate source, with the required
    fields non-null, and no candidate that has such a row at that timestamp
    stands before its source in the list. *)
Theorem weather_most_preferred_source
    (db : Db.t) (date last_date : Z) (source_ids : list Z) (not_null : list field)
    (r : Db.weather_row) :
  r ∈ Db.weather db ->
  date ≤ Db.w_timestamp r ≤ last_date ->
  Db.w_source_id r ∈ source_ids ->
  Forall (fun f => mget f (Db.w_values r) ≠ None) not_null ->
  ∃ x,
    x ∈ Db.weather db ∧
    Db.w_timestamp x = Db.w_timestamp r ∧
    Db.w_source_id x ∈ source_ids ∧
    Forall (fun f => mget f (Db.w_values x) ≠ None) not_null ∧
    (array_position source_ids (Db.w_source_id x) ≤
     array_position source_ids (Db.w_source_id r))%nat ∧
    WeatherDict (Db.w_timestamp x) (Db.w_source_id x) (Db.w_values x) None
      ∈ _weather db date last_date (List source_ids) not_null ∧
    ∀ d', d' ∈ _weather db date last_date (List source_ids) not_null ->
          timestamp d' = Db.w_timestamp r ->
          d' = WeatherDict (Db.w_timestamp x) (Db.w_source_id x) (Db.w_values x) None.
Proof.
  intros Hr Hts Hsid Hnn.
  assert (where_ date last_date (List source_ids) not_null r) as Hw by done.
  destruct (weather_covers db date last_date (List source_ids) not_null r Hr Hw)
    as (d & Hd & Hdt).
  destruct (weather_elem _ _ _ _ _ _ Hd) as (x & Hx & (_ & Hxs & Hxn) & ->).
  simpl in Hdt. exists x. split_and!; [done|done|done|done| |done|].
  - unfold _weather in Hd. apply make_dicts_elem in Hd as (x' & Hx' & [= Et Es Ev]).
    assert (order_by (List source_ids) x' r) as Hxr.
    { eapply (distinct_on_timestamp_first _ None); [| |exact Hx'| |].
      - apply StronglySorted_merge_sort; apply _.
      - done.
      - rewrite merge_sort_Permutation. by apply list_elem_of_filter.
      - lia. }
    unfold order_by in Hxr. rewrite Es. lia.
  - intros d' Hd' Ht'.
    eapply increasing_unique; [apply weather_increasing|done|done|].
    simpl. congruence.
Qed.

Lemma weather_most_preferred_source_witness :
  let r := Db.WeatherRow 0 2 (Examples.partial_values (Some 280%Q) (Some 101300%Q)) in
  let ids : list Z := [1; 2] in
  r ∈ Db.weather Examples.full_fallback_db ∧
  0 ≤ Db.w_timestamp r ≤ 86400 ∧
  Db.w_source_id r ∈ ids ∧
  Forall (fun f => mget f (Db.w_values r) ≠ None) [temperature] ∧
  _weather Examples.full_fallback_db 0 86400 (List ids) [temperature] =
    [WeatherDict 0 2 (Examples.partial_values (Some 280%Q) (Some 101300%Q)) None] ∧
  ∃ x,
    x ∈ Db.weather Examples.full_fallback_db ∧
    Db.w_timestamp x = Db.w_timestamp r ∧
    Db.w_source_id x ∈ ids ∧
    Forall (fun f => mget f (Db.w_values x) ≠ None) [temperature] ∧
    (array_position ids (Db.w_source_id x) ≤ array_position ids (Db.w_source_id r))%nat ∧
    WeatherDict (Db.w_timestamp x) (Db.w_source_id x) (Db.w_values x) None
      ∈ _weather Examples.full_fallback_db 0 86400 (List ids) [temperature] ∧
    ∀ d', d' ∈ _weather Examples.full_fallback_db 0 86400 (List ids) [temperature] ->
          timestamp d' = Db.w_timestamp r ->
          d' = WeatherDict (Db.w_timestamp x) (Db.w_source_id x) (Db.w_values x) None.
Proof.
  intros r ids.
  assert (r ∈ Db.weather Examples.full_fallback_db) as Hr.
  { apply list_elem_of_further, list_elem_of_here. }
  assert (Db.w_source_id r ∈ ids) as Hsid.
  { apply list_elem_of_further, list_elem_of_here. }
  assert (Forall (fun f => mget f (Db.w_values r) ≠ None) [temperature]) as Hnn.
  { by repeat constructor. }
  split; [exact Hr|]. split; [done|]. split; [exact Hsid|]. split; [exact Hnn|].
  split; [vm_compute; reflexivity|].
  apply (weather_most_preferred_source Examples.full_fallback_db 0 86400 ids
           [temperature] r); [exact Hr|done|exact Hsid|exact Hnn].
Defined.

End preference.

(** ** Query: what the fallback fill changes *)

Section fallback_shape.
Import Py Query.

(** The whole [for f in fields] loop, field by field. *)
Lemma fill_fields_all fb (fields : list field) row m0 f :
  fallback_source_ids row = Some m0 ->
  let row' := foldl (fill_field fb) row fields in
  timestamp row' = timestamp row ∧
  source_id row' = source_id row ∧
  mget f (values row') =
    (if decide (f ∈ fields) then mget f (values fb) else mget f (values row)) ∧
  fallback_source_ids row' ≫= (.!! f) =
    (if decide (f ∈ fields) then Some (source_id fb) else m0 !! f).
Proof.
  revert row m0. induction fields as [|g fields IH]; intros row m0 Hm0; simpl.
  - rewrite Hm0. split_and!; try done; by rewrite decide_False by apply not_elem_of_nil.
  - destruct (IH (fill_field fb row g) (<[g := source_id fb]> m0)) as (Hts & Hsid & Hv & Hid).
    { unfold fill_field. simpl. by rewrite Hm0. }
    rewrite Hts, Hsid, Hv, Hid. split_and!; [done|done| |].
    + destruct (decide (f ∈ fields)) as [Hin|Hnin].
      * rewrite decide_True by by right. done.
      * destruct (decide (f = g)) as [->|Hne].
        -- rewrite decide_True by left. unfold fill_field. simpl. apply mget_mset_eq.
        -- rewrite decide_False by (intros [?|?]%elem_of_cons; done).
           unfold fill_field. simpl. by apply mget_mset_ne.
    + destruct (decide (f ∈ fields)) as [Hin|Hnin].
      * rewrite decide_True by by right. done.
      * destruct (decide (f = g)) as [->|Hne].
        -- rewrite decide_True by left. apply lookup_insert_eq.
        -- rewrite decide_False by (intros [?|?]%elem_of_cons; done).
           by apply lookup_insert_ne.
Qed.

(** [_fill_missing_fields] works row by row: a row is left as it is, or,
    when it has missing fields and the fallback query has a row at its
    timestamp, filled from that row. *)
Lemma fill_missing_fields_rows db weather_rows date last_date source_ids :
  ∃ min_date max_date missing_fields,
    (∀ p f, p ∈ weather_rows -> mget f (values p) = None -> f ∈ missing_fields) ∧
    Forall2
      (fun p r =>
         r = p ∨
         ∃ fb,
           fb ∈ _weather db min_date max_date (List source_ids) missing_fields ∧
           timestamp fb = timestamp p ∧
           r = foldl (fill_field fb)
                 (WeatherDict (timestamp p) (source_id p) (values p) (Some ∅))
                 (missing_row_fields p))
      weather_rows
      (_fill_missing_fields db weather_rows date last_date source_ids).
Proof.
  unfold _fill_missing_fields.
  set (incomplete_rows := filter _ _).
  set (missing_fields := foldl _ [] incomplete_rows).
  assert (∀ p f, p ∈ weather_rows -> mget f (values p) = None -> f ∈ missing_fields)
    as Hmf.
  { intros p f Hp Hf. unfold missing_fields. apply missing_fields_elem. right.
    assert (f ∈ missing_row_fields p) as Hfm by by apply missing_row_fields_elem.
    exists (p, missing_row_fields p). split; [|done].
    apply incomplete_rows_elem; [done|].
    intros E. rewrite E in Hfm. by apply elem_of_nil in Hfm. }
  destruct incomplete_rows as [|first rest] eqn:Einc.
  { exists 0, 0, missing_fields. split; [done|].
    apply Forall2_same_length_lookup. split; [done|].
    intros i p r Hp Hr. left. congruence. }
  destruct (last (first :: rest)) as [final|] eqn:Elast.
  2:{ by apply last_None in Elast. }
  exists (timestamp first.1), (timestamp final.1), missing_fields. split; [done|].
  apply Forall2_fmap_r, Forall_Forall2_diag, Forall_forall. intros p Hp.
  unfold compose. cbv beta. case_bool_decide; [|by left]. unfold fill_row.
  destruct (by_timestamp _ !! timestamp p) as [fb|] eqn:Hfb; [|by left].
  right. exists fb. by apply by_timestamp_lookup in Hfb as [? ?].
Qed.

(** [_fill_missing_fields] keeps the number and order of the rows, their
    timestamps and source ids, and every value that was not null. *)
Theorem fallback_keeps_present_values
    (db : Db.t) (weather_rows : list weather_dict) (date last_date : Z)
    (source_ids : list Z) :
  Forall2
    (fun p r =>
       timestamp r = timestamp p ∧
       source_id r = source_id p ∧
       ∀ f, mget f (values p) ≠ None -> mget f (values r) = mget f (values p))
    weather_rows
    (_fill_missing_fields db weather_rows date last_date source_ids).
Proof.
  destruct (fill_missing_fields_rows db weather_rows date last_date source_ids)
    as (min_date & max_date & missing_fields & _ & Hrows).
  eapply Forall2_impl; [exact Hrows|]. clear.
  intros p r [->|(fb & _ & _ & ->)]; [done|].
  split_and!.
  - by destruct (fill_fields_all fb (missing_row_fields p)
                   (WeatherDict (timestamp p) (source_id p) (values p) (Some ∅)) ∅
                   temperature eq_refl) as (? & _).
  - by destruct (fill_fields_all fb (missing_row_fields p)
                   (WeatherDict (timestamp p) (source_id p) (values p) (Some ∅)) ∅
                   temperature eq_refl) as (_ & ? & _).
  - intros f Hf.
    destruct (fill_fields_all fb (missing_row_fields p)
                (WeatherDict (timestamp p) (source_id p) (values p) (Some ∅)) ∅ f eq_refl)
      as (_ & _ & -> & _).
    rewrite decide_False; [done|]. by rewrite missing_row_fields_elem.
Qed.

(** After the fallback fill of the rows of a weather query, a row either
    is the primary row, without [fallback_source_ids]; or it has no null
    field left, every field that was null holds the value of one row of a
    candidate source at the same timestamp, [fallback_source_ids] names
    that source under exactly those fields. *)
Theorem fallback_is_all_or_nothing
    (db : Db.t) (date last_date : Z) (source_ids : list Z) :
  Forall2
    (fun p r =>
       (r = p ∧ fallback_source_ids r = None) ∨
       ∃ w,
         w ∈ Db.weather db ∧
         Db.w_timestamp w = timestamp p ∧
         Db.w_source_id w ∈ source_ids ∧
         ∀ f,
           mget f (values r) ≠ None ∧
           (mget f (values p) = None ->
            mget f (values r) = mget f (Db.w_values w) ∧
            fallback_source_ids r ≫= (.!! f) = Some (Db.w_source_id w)) ∧
           (mget f (values p) ≠ None -> fallback_source_ids r ≫= (.!! f) = None))
    (_weather db date last_date (List source_ids) [])
    (_fill_missing_fields db (_weather db date last_date (List source_ids) [])
       date last_date source_ids).
Proof.
  destruct (fill_missing_fields_rows db (_weather db date last_date (List source_ids) [])
              date last_date source_ids)
    as (min_date & max_date & missing_fields & Hmf & Hrows).
  apply Forall2_same_length_lookup. split; [by eapply Forall2_length|].
  intros i p r Hp Hr.
  assert (p ∈ _weather db date last_date (List source_ids) []) as Hpin
    by by eapply list_elem_of_lookup_2.
  destruct (Forall2_lookup_lr _ _ _ _ _ _ Hrows Hp Hr) as [->|(fb & Hfb & Hts & ->)].
  { left. split; [done|].
    by apply weather_elem in Hpin as (x & _ & _ & ->). }
  right. apply weather_elem in Hfb as (w & Hw & (_ & Hwid & Hwnn) & ->).
  simpl in Hts. exists w. split_and!; [done|done|done|].
  intros f.
  destruct (fill_fields_all
              (WeatherDict (Db.w_timestamp w) (Db.w_source_id w) (Db.w_values w) None)
              (missing_row_fields p)
              (WeatherDict (timestamp p) (source_id p) (values p) (Some ∅)) ∅ f eq_refl)
    as (_ & _ & Hv & Hid).
  rewrite Hv, Hid. simpl. rewrite Forall_forall in Hwnn.
  destruct (decide (f ∈ missing_row_fields p)) as [Hin|Hnin].
  - apply missing_row_fields_elem in Hin as Hnone. split_and!; [|done|done].
    apply Hwnn. by eapply Hmf.
  - rewrite missing_row_fields_elem in Hnin. split_and!; [done|done|].
    intros _. apply lookup_empty.
Qed.

End fallback_shape.

(** ** Query: the answer over candidate sources *)

Section candidates.
Import Py Query.

Lemma used_source_ids_elem (rows : list weather_dict) (sid : Z) :
  sid ∈ used_source_ids rows <->
  ∃ r, r ∈ rows ∧
       (source_id r = sid ∨ ∃ f, fallback_source_ids r ≫= (.!! f) = Some sid).
Proof.
  unfold used_source_ids. rewrite elem_of_app. split.
  - intros [(r & -> & Hr)%list_elem_of_fmap|Hin].
    + exists r. split; [done|by left].
    + apply list_elem_of_In, in_flat_map in Hin as (r & Hr & Hin).
      apply list_elem_of_In in Hr, Hin.
      apply list_elem_of_fmap in Hin as ([f v] & -> & Hfv).
      apply elem_of_map_to_list in Hfv. exists r. split; [done|]. right. exists f.
      destruct (fallback_source_ids r); simpl in *; [done|].
      by rewrite lookup_empty in Hfv.
  - intros (r & Hr & [<-|[f Hf]]).
    + left. apply list_elem_of_fmap. by exists r.
    + right. apply list_elem_of_In, in_flat_map. exists r.
      split; [by apply list_elem_of_In|]. apply list_elem_of_In.
      apply list_elem_of_fmap. exists (f, sid). split; [done|].
      apply elem_of_map_to_list. by destruct (fallback_source_ids r).
Qed.

Lemma fill_missing_fields_same_keys db weather_rows date last_date source_ids :
  Forall2 (fun p r => timestamp r = timestamp p ∧ source_id r = source_id p)
    weather_rows (_fill_missing_fields db weather_rows date last_date source_ids).
Proof.
  destruct (fill_missing_fields_rows db weather_rows date last_date source_ids)
    as (min_date & max_date & missing_fields & _ & Hrows).
  eapply Forall2_impl; [exact Hrows|]. clear.
  intros p r [->|(fb & _ & _ & ->)]; [done|].
  by destruct (fill_fields_all fb (missing_row_fields p)
                 (WeatherDict (timestamp p) (source_id p) (values p) (Some ∅)) ∅
                 temperature eq_refl) as (? & ? & _).
Qed.

Lemma increasing_Forall2 (rows rows' : list weather_dict) :
  Forall2 (fun p r => timestamp r = timestamp p) rows rows' ->
  StronglySorted (fun a b => timestamp a < timestamp b) rows ->
  StronglySorted (fun a b => timestamp a < timestamp b) rows'.
Proof.
  induction 1 as [|p r rows rows' Hpr Hrows IH]; [constructor|].
  intros [Hall Hs]%StronglySorted_cons. constructor; [by apply IH|].
  rewrite Forall_forall in *. intros r' Hr'.
  apply list_elem_of_lookup in Hr' as [i Hi].
  destruct (Forall2_lookup_r _ _ _ _ _ Hrows Hi) as (p' & Hp' & E).
  rewrite Hpr, E. apply Hall. by eapply list_elem_of_lookup_2.
Qed.

(** The answer of [weather] without a source id: the rows have strictly
    increasing timestamps within [date, last_date], each from a source
    listed under ['sources']; and ['sources'] lists, in the order of the
    candidates, exactly the candidates that own a returned row or are named
    in a [fallback_source_ids]. *)
Theorem weather_over_candidates
    (db : Db.t) (date : Z) (last_date : option Z) (lat lon : option Q)
    (dwd_station_id wmo_station_id : option string) (max_dist : Q) (fallback : bool)
    (resp : response) :
  weather db date last_date lat lon dwd_station_id wmo_station_id None max_dist fallback
    = Ok resp ->
  ∃ candidates rows used,
    sources_rows db lat lon dwd_station_id wmo_station_id None max_dist false
      = Ok candidates ∧
    resp = [("weather", Weather rows); ("sources", Sources used)] ∧
    StronglySorted (fun a b => timestamp a < timestamp b) rows ∧
    (∀ r, r ∈ rows ->
          date ≤ timestamp r ≤ default (date + one_day) last_date ∧
          ∃ s, s ∈ used ∧ id s = source_id r) ∧
    used `sublist_of` candidates ∧
    (∀ s, s ∈ used <->
          s ∈ candidates ∧
          ∃ r, r ∈ rows ∧
               (source_id r = id s ∨
                ∃ f, fallback_source_ids r ≫= (.!! f) = Some (id s))).
Proof.
  unfold weather.
  replace (match last_date with Some d => d | None => date + one_day end)
    with (default (date + one_day) last_date) by by destruct last_date.
  destruct (sources_rows _ _ _ _ _ _ _ _) as [candidates|e]; [|done].
  cbn [mbind result_bind bind].
  set (last := default (date + one_day) last_date).
  set (primary := _weather db date last (List (map id candidates)) []).
  set (rows := if fallback then _ else primary).
  intros [= <-]. exists candidates, rows. eexists.
  split; [done|]. split; [done|].
  assert (Forall2 (fun p r => timestamp r = timestamp p ∧ source_id r = source_id p)
            primary rows) as Hsame.
  { subst rows. destruct fallback.
    - apply fill_missing_fields_same_keys.
    - by apply Forall_Forall2_diag, Forall_forall. }
  assert (∀ s, s ∈ filter (fun s => id s ∈ used_source_ids rows) candidates <->
               s ∈ candidates ∧
               ∃ r, r ∈ rows ∧
                    (source_id r = id s ∨
                     ∃ f, fallback_source_ids r ≫= (.!! f) = Some (id s))) as Hused.
  { intros s. rewrite list_elem_of_filter, used_source_ids_elem. tauto. }
  split_and!; [| |apply sublist_filter|exact Hused].
  - eapply increasing_Forall2; [|apply weather_increasing].
    eapply Forall2_impl; [exact Hsame|]. by intros p r [? _].
  - intros r Hr. apply list_elem_of_lookup in Hr as [i Hi].
    destruct (Forall2_lookup_r _ _ _ _ _ Hsame Hi) as (p & Hp & Hts & Hsid).
    assert (r ∈ rows) as Hr by by eapply list_elem_of_lookup_2.
    apply list_elem_of_lookup_2, weather_elem in Hp
      as (w & _ & (Hbounds & Hwid & _) & ->).
    simpl in Hts, Hsid. rewrite Hts. split; [done|].
    apply list_elem_of_fmap in Hwid as (s & Hs & Hsc).
    exists s. split; [|congruence].
    apply Hused. split; [done|]. exists r. split; [done|]. left. congruence.
Qed.

Lemma weather_over_candidates_witness :
  ∃ resp,
    weather Examples.full_fallback_db 0 None None None (Some "01001") None None
      default_max_dist true = Ok resp ∧
    ∃ candidates rows used,
      sources_rows Examples.full_fallback_db None None (Some "01001") None None
        default_max_dist false = Ok candidates ∧
      resp = [("weather", Weather rows); ("sources", Sources used)] ∧
      StronglySorted (fun a b => timestamp a < timestamp b) rows ∧
      (∀ r, r ∈ rows ->
            0 ≤ timestamp r ≤ default (0 + one_day) None ∧
            ∃ s, s ∈ used ∧ id s = source_id r) ∧
      used `sublist_of` candidates ∧
      (∀ s, s ∈ used <->
            s ∈ candidates ∧
            ∃ r, r ∈ rows ∧
                 (source_id r = id s ∨
                  ∃ f, fallback_source_ids r ≫= (.!! f) = Some (id s))).
Proof.
  eexists. split; [vm_compute; reflexivity|].
  apply (weather_over_candidates Examples.full_fallback_db 0 None None None
           (Some "01001") None default_max_dist true).
  vm_compute. reflexivity.
Defined.

End candidates.

(** ** MOSMIX: what sanitization leaves alone *)

Section mosmix_frame.
Import Py Parsers Parsers.MOSMIXParser.

Lemma and_lt_false v bound :
  and_lt v bound = false <-> ∀ q, v = Some q -> (bound <= q)%Q ∨ (q == 0)%Q.
Proof.
  split.
  - intros E q ->. destruct (Qlt_le_dec q bound) as [Hlt|?]; [|by left].
    right. destruct (Qeq_dec q 0) as [?|Hne]; [done|].
    assert (and_lt (Some q) bound = true) as E'; [|congruence].
    apply and_lt_spec. by exists q.
  - intros Hv. destruct (and_lt v bound) eqn:E; [|done].
    apply and_lt_spec in E as (q & -> & Hq & Hlt).
    destruct (Hv q eq_refl) as [Hle|?]; [|done]. by apply Qlt_not_le in Hlt.
Qed.

Lemma and_gt_false v bound :
  and_gt v bound = false <-> ∀ q, v = Some q -> (q <= bound)%Q ∨ (q == 0)%Q.
Proof.
  split.
  - intros E q ->. destruct (Qlt_le_dec bound q) as [Hlt|?]; [|by left].
    right. destruct (Qeq_dec q 0) as [?|Hne]; [done|].
    assert (and_gt (Some q) bound = true) as E'; [|congruence].
    apply and_gt_spec. by exists q.
  - intros Hv. destruct (and_gt v bound) eqn:E; [|done].
    apply and_gt_spec in E as (q & -> & Hq & Hlt).
    destruct (Hv q eq_refl) as [Hle|?]; [|done]. by apply Qlt_not_le in Hlt.
Qed.

(** [sanitize_records] yields one record per input record, in order, and
    changes nothing but the precipitation and the wind direction. *)
Theorem sanitize_records_frame (records : list record) :
  Forall2
    (fun r r' =>
       observation_type r' = observation_type r ∧ source r' = source r ∧
       station_id r' = station_id r ∧ station_name r' = station_name r ∧
       lat r' = lat r ∧ lon r' = lon r ∧ height r' = height r ∧
       timestamp r' = timestamp r ∧
       get temperature r' = get temperature r ∧
       get wind_speed r' = get wind_speed r ∧
       get sunshine r' = get sunshine r ∧
       get pressure_msl r' = get pressure_msl r)
    records (sanitize_records records).1.
Proof.
  apply sanitize_records_pointwise. intros r. cbv zeta.
  destruct (and_lt _ _), (and_gt _ _); by destruct r as [? ? ? ? ? ? ? ? []].
Qed.

(** One turn of the loop, with the warnings. *)
Lemma sanitize_records_step r records :
  sanitize_records (r :: records) =
  (let r1 := if and_lt (get precipitation r) 0%Q
             then set_value precipitation None r else r in
   let r2 := if and_gt (get wind_direction r) 360%Q
             then set_value wind_direction
                    (option_map (fun d => (d - 360)%Q) (get wind_direction r)) r1
             else r1 in
   (r2 :: (sanitize_records records).1,
    (if and_lt (get precipitation r) 0%Q
     then [Warning "Ignoring negative precipitation value"] else []) ++
    (if and_gt (get wind_direction r) 360%Q
     then [Warning "Fixing out-of-bounds wind direction"] else []) ++
    (sanitize_records records).2)).
Proof.
  cbn [sanitize_records].
  destruct (and_lt (get precipitation r) 0%Q); cbn iota zeta;
    rewrite ?get_set_value_ne by done;
    destruct (and_gt (get wind_direction r) 360%Q); cbn iota zeta;
    by destruct (sanitize_records records).
Qed.

(** Records pass unchanged and without a warning exactly when none of them
    has a precipitation below zero or a wind direction above 360. *)
Theorem sanitize_records_clean (records : list record) :
  sanitize_records records = (records, []) <->
  Forall (fun r =>
            (∀ p, get precipitation r = Some p -> (0 <= p)%Q) ∧
            (∀ d, get wind_direction r = Some d -> (d <= 360)%Q))
    records.
Proof.
  induction records as [|r records IH]; [by split; [constructor|]|].
  rewrite Forall_cons, <- IH, sanitize_records_step. clear IH. cbv zeta.
  destruct (and_lt (get precipitation r) 0%Q) eqn:Ep.
  { split; [by intros [=]|].
    apply and_lt_spec in Ep as (p & Hp & _ & Hlt).
    intros [[Hpos _] _]. specialize (Hpos p Hp). by apply Qlt_not_le in Hlt. }
  destruct (and_gt (get wind_direction r) 360%Q) eqn:Ed.
  { split; [by intros [=]|].
    apply and_gt_spec in Ed as (d & Hd & _ & Hlt).
    intros [[_ Hmax] _]. specialize (Hmax d Hd). by apply Qlt_not_le in Hlt. }
  rewrite and_lt_false in Ep. rewrite and_gt_false in Ed.
  destruct (sanitize_records records) as [out logs]; simpl. split.
  - intros [= -> ->]. split; [|done]. split.
    + intros p Hp. destruct (Ep p Hp) as [?|Hz]; [done|]. rewrite Hz. lra.
    + intros d Hd. destruct (Ed d Hd) as [?|Hz]; [done|]. rewrite Hz. lra.
  - by intros [_ [= -> ->]].
Qed.

End mosmix_frame.

(** ** Current observations: units, location, rows *)

Section current_observations.
Import Py Parsers Parsers.CurrentObservationsParser.

(** [convert_units] converts pressure, sunshine, temperature and wind
    speed, each with its own converter; it leaves wind direction and
    precipitation as they are, and a null value null. *)
Theorem convert_units_by_field (u : units) (m : measurements) (f : field) :
  mget f (convert_units u m) =
  option_map
    match f with
    | pressure_msl => hpa_to_pa u
    | sunshine => minutes_to_seconds u
    | temperature => celsius_to_kelvin u
    | wind_speed => kmh_to_ms u
    | wind_direction | precipitation => fun v => v
    end
    (mget f m).
Proof.
  unfold convert_units, convert.
  destruct m as [[t|] [d|] [w|] [p|] [s|] [pr|]], f; reflexivity.
Qed.

Lemma greatest_id_spec (rows : list Db.source_row) :
  match greatest_id rows with
  | Some r => r ∈ rows ∧ ∀ r', r' ∈ rows -> Db.s_id r' ≤ Db.s_id r
  | None => rows = []
  end.
Proof.
  induction rows as [|x rows IH]; simpl; [done|].
  destruct (greatest_id rows) as [b|].
  - destruct IH as [Hb Hmax]. case_bool_decide.
    + split; [left|]. intros r' [->|Hr']%elem_of_cons; [done|].
      specialize (Hmax r' Hr'). lia.
    + split; [by right|]. intros r' [->|Hr']%elem_of_cons; [lia|by apply Hmax].
  - subst rows. simpl. split; [left|]. by intros r' ->%list_elem_of_singleton.
Qed.

Lemma load_location_cases (db : Db.t) (station_id : string) :
  match load_location db station_id with
  | Ok location =>
      ∃ r, r ∈ Db.sources db ∧
           Db.s_observation_type r = "forecast" ∧
           Db.s_station_id r = Some station_id ∧
           location = (Db.s_lat r, Db.s_lon r, Db.s_height r, Db.s_station_name r) ∧
           ∀ r', r' ∈ Db.sources db ->
                 Db.s_observation_type r' = "forecast" ->
                 Db.s_station_id r' = Some station_id ->
                 Db.s_id r' ≤ Db.s_id r
  | Raise e =>
      e = Exn "ValueError" ("Unable to find location for station " +:+ station_id) ∧
      ∀ r, r ∈ Db.sources db ->
           ¬ (Db.s_observation_type r = "forecast" ∧ Db.s_station_id r = Some station_id)
  end.
Proof.
  unfold load_location.
  set (rows := filter _ (Db.sources db)).
  pose proof (greatest_id_spec rows) as Hspec.
  destruct (greatest_id rows) as [r|].
  - destruct Hspec as [Hr Hmax]. exists r.
    apply list_elem_of_filter in Hr as [[Ht Hs] Hr].
    split_and!; try done.
    intros r' Hr' Ht' Hs'. apply Hmax. by apply list_elem_of_filter.
  - split; [done|]. intros r Hr Hmatch.
    assert (r ∈ rows) as Hin by by apply list_elem_of_filter.
    rewrite Hspec in Hin. by apply elem_of_nil in Hin.
Qed.

(** [load_location] succeeds exactly when the sources table has a forecast
    row for the station, and then returns the location of the one with the
    greatest id. *)
Theorem load_location_latest_forecast (db : Db.t) (station_id : string) :
  match load_location db station_id with
  | Ok location =>
      ∃ r, r ∈ Db.sources db ∧
           Db.s_observation_type r = "forecast" ∧
           Db.s_station_id r = Some station_id ∧
           location = (Db.s_lat r, Db.s_lon r, Db.s_height r, Db.s_station_name r) ∧
           ∀ r', r' ∈ Db.sources db ->
                 Db.s_observation_type r' = "forecast" ->
                 Db.s_station_id r' = Some station_id ->
                 Db.s_id r' ≤ Db.s_id r
  | Raise e =>
      e = Exn "ValueError" ("Unable to find location for station " +:+ station_id) ∧
      ∀ r, r ∈ Db.sources db ->
           ¬ (Db.s_observation_type r = "forecast" ∧ Db.s_station_id r = Some station_id)
  end.
Proof. apply load_location_cases. Qed.

(** The loop over the data rows yields the records of the rows before the
    first one [parse_row] cannot read, and ends with the exception of that
    row, or normally when there is none. *)
Lemma yield_rows_prefix (u : units) (code name : string) (la lo h : Q) (reader : list row) :
  ∃ k : nat,
    Forall2
      (fun row rec =>
         rec = Record_ "current" code name la lo h (values rec) (timestamp rec) ∧
         parse_row u row = Ok (values rec, timestamp rec))
      (take k reader) (yielded (yield_rows u code name la lo h reader)) ∧
    match reader !! k with
    | Some row => ∃ e, parse_row u row = Raise e ∧
                       ended (yield_rows u code name la lo h reader) = Some e
    | None => ended (yield_rows u code name la lo h reader) = None
    end.
Proof.
  induction reader as [|row reader (k & IHrows & IHend)]; cbn [yield_rows].
  { exists 0%nat. split; [constructor|done]. }
  destruct (parse_row u row) as [[values timestamp]|e] eqn:E.
  - exists (S k). cbn [take lookup list_lookup yielded ended]. split; [|done].
    constructor; [|done]. by rewrite E.
  - exists 0%nat. cbn [take lookup list_lookup yielded ended].
    split; [constructor|]. by exists e.
Qed.

(** Unless all four of lat, lon, height and station name are passed,
    [parse] takes all four from the forecast row of the station with the
    greatest id, whatever was passed.  It yields one record per data row
    (the rows after the station row and the title row), in order, up to
    the first row that [parse_row] cannot read: each record is [current],
    has the station code read from the first row, that location, and the
    values and the instant [parse_row] reads from its row.  It ends
    normally when every data row was read, and otherwise with the exception
    [parse_row] raises on the first row it cannot read. *)
Theorem current_parse_location_from_database
    (db : Db.t) (u : units) (first titles : row) (rows : list row)
    (lat lon height : option Q) (station_name : option string) (r : Db.source_row) :
  lat = None ∨ lon = None ∨ height = None ∨ station_name = None ->
  r ∈ Db.sources db ->
  Db.s_observation_type r = "forecast" ->
  Db.s_station_id r = Some (rstrip_underscore (surface_observations first)) ->
  (∀ r', r' ∈ Db.sources db ->
         Db.s_observation_type r' = "forecast" ->
         Db.s_station_id r' = Some (rstrip_underscore (surface_observations first)) ->
         r' = r ∨ Db.s_id r' < Db.s_id r) ->
  ∃ k : nat,
    Forall2
      (fun row rec =>
         observation_type rec = "current" ∧
         station_id rec = rstrip_underscore (surface_observations first) ∧
         (CurrentObservationsParser.lat rec, CurrentObservationsParser.lon rec,
          CurrentObservationsParser.height rec, CurrentObservationsParser.station_name rec)
           = (Db.s_lat r, Db.s_lon r, Db.s_height r, Db.s_station_name r) ∧
         parse_row u row = Ok (values rec, timestamp rec) ∧
         date_and_hour row = Ok (timestamp rec))
      (take k rows)
      (yielded (parse db u (first :: titles :: rows) lat lon height station_name)) ∧
    match rows !! k with
    | Some row =>
        ∃ e, parse_row u row = Raise e ∧
             ended (parse db u (first :: titles :: rows) lat lon height station_name)
             = Some e
    | None =>
        ended (parse db u (first :: titles :: rows) lat lon height station_name) = None
    end.
Proof.
  intros Hnone Hr Ht Hs Hmax.
  pose proof (load_location_cases db (rstrip_underscore (surface_observations first)))
    as Hload.
  assert (parse db u (first :: titles :: rows) lat lon height station_name =
          match load_location db (rstrip_underscore (surface_observations first)) with
          | Ok (la, lo, h, n) =>
              yield_rows u (rstrip_underscore (surface_observations first)) n la lo h rows
          | Raise e => Gen [] (Some e)
          end) as ->.
  { unfold parse. destruct lat, lon, height, station_name; try done.
    by destruct Hnone as [?|[?|[?|?]]]. }
  destruct (load_location _ _) as [[[[la lo] h] n]|e].
  - destruct Hload as (r0 & Hr0 & Ht0 & Hs0 & [= -> -> -> ->] & Hmax0).
    assert (r0 = r) as ->.
    { destruct (Hmax r0 Hr0 Ht0 Hs0) as [?|Hlt]; [done|].
      specialize (Hmax0 r Hr Ht Hs). lia. }
    destruct (yield_rows_prefix u (rstrip_underscore (surface_observations first))
                (Db.s_station_name r) (Db.s_lat r) (Db.s_lon r) (Db.s_height r) rows)
      as (k & Hrows & Hend).
    exists k. split; [|done].
    eapply Forall2_impl; [exact Hrows|]. intros row rec [-> Hparse]. simpl.
    split_and!; try done.
    by apply parse_row_ok in Hparse as (_ & _ & _ & ->).
  - destruct Hload as [_ Hno]. by destruct (Hno r Hr).
Qed.

Lemma current_parse_location_from_database_witness :
  ended (parse Examples.forecast_db Examples.si_units Examples.beob_file
           (Some 1%Q) None None None) = None ∧
  map (fun rec => (CurrentObservationsParser.lat rec, CurrentObservationsParser.lon rec))
    (yielded (parse Examples.forecast_db Examples.si_units Examples.beob_file
                (Some 1%Q) None None None))
  = [((525 # 10)%Q, (134 # 10)%Q)] ∧
  ∃ k : nat,
    Forall2
      (fun row rec =>
         observation_type rec = "current" ∧
         station_id rec = "01001" ∧
         (CurrentObservationsParser.lat rec, CurrentObservationsParser.lon rec,
          CurrentObservationsParser.height rec, CurrentObservationsParser.station_name rec)
           = ((525 # 10)%Q, (134 # 10)%Q, 40%Q, "JAN MAYEN") ∧
         parse_row Examples.si_units row = Ok (values rec, timestamp rec) ∧
         date_and_hour row = Ok (timestamp rec))
      (take k (drop 2 Examples.beob_file))
      (yielded (parse Examples.forecast_db Examples.si_units Examples.beob_file
                  (Some 1%Q) None None None)) ∧
    match drop 2 Examples.beob_file !! k with
    | Some row =>
        ∃ e, parse_row Examples.si_units row = Raise e ∧
             ended (parse Examples.forecast_db Examples.si_units Examples.beob_file
                      (Some 1%Q) None None None) = Some e
    | None =>
        ended (parse Examples.forecast_db Examples.si_units Examples.beob_file
                 (Some 1%Q) None None None) = None
    end.
Proof.
  split; [reflexivity|]. split; [reflexivity|].
  apply (current_parse_location_from_database Examples.forecast_db Examples.si_units
           (Row "01001_" Examples.no_date (fun _ => Sentinel))
           (Row "Datum" Examples.no_date (fun _ => Sentinel))
           _ (Some 1%Q) None None None Examples.forecast_station).
  - right. by left.
  - apply list_elem_of_here.
  - reflexivity.
  - reflexivity.
  - intros r' ->%list_elem_of_singleton _ _. by left.
Defined.

End current_observations.

(** ** Observations: elements, date limits, location history *)

Section observation_rows.
Import Py Parsers Parsers.ObservationsParser.

Lemma find_key_None {V} (k : field) (els : list (field * V)) :
  List.find (fun kv => bool_decide (kv.1 = k)) els = None <-> k ∉ els.*1.
Proof.
  induction els as [|[k' v] els IH]; simpl.
  - split; [intros _; apply not_elem_of_nil|done].
  - case_bool_decide as E; simpl in E.
    + split; [done|]. intros Hk. destruct Hk. subst. left.
    + rewrite IH, not_elem_of_cons. split; [by intros ?|by intros [_ ?]].
Qed.

Lemma convert_cases (els : list (field * option Q)) (ec : field * (Q -> Q)) :
  match convert els ec with
  | Ok els' =>
      ec.1 ∈ els.*1 ∧
      Forall2 (fun a b => b.1 = a.1 ∧ (b.2 = None <-> a.2 = None)) els els'
  | Raise e => e = Exn "KeyError" (field_name ec.1) ∧ ec.1 ∉ els.*1
  end.
Proof.
  unfold convert. destruct (List.find _ els) as [kv|] eqn:E.
  - split.
    + destruct (decide (ec.1 ∈ els.*1)) as [?|Hn]; [done|].
      apply find_key_None in Hn. congruence.
    + apply Forall2_fmap_r, Forall_Forall2_diag, Forall_forall.
      intros [k v] _. simpl. case_bool_decide; simpl; [|done].
      split; [done|]. by destruct v.
  - split; [done|]. by apply find_key_None.
Qed.

Lemma converters_cases (convs : list (field * (Q -> Q))) (els : list (field * option Q)) :
  match foldl (fun acc ec => acc ≫= fun els => convert els ec) (Ok els) convs with
  | Ok els' =>
      (∀ ec, ec ∈ convs -> ec.1 ∈ els.*1) ∧
      Forall2 (fun a b => b.1 = a.1 ∧ (b.2 = None <-> a.2 = None)) els els'
  | Raise e => ∃ ec, ec ∈ convs ∧ (ec.1 ∉ els.*1) ∧ e = Exn "KeyError" (field_name ec.1)
  end.
Proof.
  revert els. induction convs as [|ec convs IH]; intros els; simpl.
  - split; [by intros ec ?%elem_of_nil|].
    apply Forall_Forall2_diag, Forall_forall. by intros.
  - pose proof (convert_cases els ec) as Hc.
    cbn [mbind result_bind bind]. destruct (convert els ec) as [els1|e].
    + destruct Hc as [Hin H12]. specialize (IH els1).
      assert (els1.*1 = els.*1) as Hkeys.
      { clear -H12. induction H12 as [|a b l k [E _] _ IH]; [done|].
        rewrite !fmap_cons. by f_equal. }
      destruct (foldl _ (Ok els1) convs) as [els2|e].
      * destruct IH as [Hall H23]. split.
        -- intros ec' [->|Hec']%elem_of_cons; [done|]. rewrite <- Hkeys. by apply Hall.
        -- clear -H12 H23. revert els2 H23.
           induction H12 as [|a b l k [E1 E2] _ IH]; intros els2 H23.
           ++ by apply Forall2_nil_inv_l in H23 as ->.
           ++ apply Forall2_cons_inv_l in H23 as (c & k2 & [E3 E4] & H23 & ->).
              constructor; [|by apply IH]. split; [congruence|tauto].
      * destruct IH as (ec' & Hec' & Hn & ->).
        exists ec'. split; [by right|]. by rewrite <- Hkeys.
    + destruct Hc as [-> Hn].
      assert (∀ e l, foldl (fun acc ec => acc ≫= fun els => convert els ec)
                       (Raise e) l = Raise e) as Hraise.
      { intros e l. induction l as [|x l IHl]; [done|]. simpl. apply IHl. }
      rewrite Hraise. exists ec. split; [left|done].
Qed.

(** The comprehension reads every cell, or stops at the first one that
    cannot be read. *)
Lemma read_elements_cases (row : product_row) (elements : list (field * string)) :
  match read_elements row elements with
  | Ok els =>
      Forall (fun e => ∀ x, column row e.2 ≠ Unreadable x) elements ∧
      els = map (fun e => (e.1, float_or_none (column row e.2))) elements
  | Raise e =>
      ∃ before el after,
        elements = before ++ el :: after ∧
        Forall (fun e' => ∀ x, column row e'.2 ≠ Unreadable x) before ∧
        column row el.2 = Unreadable e
  end.
Proof.
  induction elements as [|[element element_key] elements IH]; cbn [read_elements].
  { by split. }
  destruct (column row element_key) as [|q|x] eqn:Hcell;
    cbn [read float_or_none mbind result_bind bind].
  - destruct (read_elements row elements) as [els|e]; cbn [mbind result_bind bind].
    + destruct IH as [Hall ->]. split; [|by rewrite fmap_cons; simpl; rewrite Hcell].
      constructor; [|done]. simpl. by rewrite Hcell.
    + destruct IH as (before & el & after & -> & Hbefore & Hel).
      exists ((element, element_key) :: before), el, after. split_and!; [done| |done].
      constructor; [|done]. simpl. by rewrite Hcell.
  - destruct (read_elements row elements) as [els|e]; cbn [mbind result_bind bind].
    + destruct IH as [Hall ->]. split; [|by rewrite fmap_cons; simpl; rewrite Hcell].
      constructor; [|done]. simpl. by rewrite Hcell.
    + destruct IH as (before & el & after & -> & Hbefore & Hel).
      exists ((element, element_key) :: before), el, after. split_and!; [done| |done].
      constructor; [|done]. simpl. by rewrite Hcell.
  - exists [], (element, element_key), elements. by split_and!.
Qed.

(** [parse_elements] reads the cells under the element keys of the class,
    in order, and raises the exception of the first cell that cannot be
    read.  When all of them can be read, it raises [KeyError] with the name
    of an element exactly when the class has a converter for an element it
    does not read, and otherwise returns one entry per element, in order,
    null exactly where the cell holds the missing-value mark.  None of the
    five parser classes of the module has such a converter: they return
    exactly when every cell under their element keys can be read. *)
Theorem parse_elements_cases (self : parser) (row : product_row) :
  match parse_elements self row with
  | Ok els =>
      Forall (fun e => ∀ x, column row e.2 ≠ Unreadable x) (elements (cls self)) ∧
      (∀ ec, ec ∈ converters (cls self) -> ec.1 ∈ (elements (cls self)).*1) ∧
      Forall2 (fun e kv => kv.1 = e.1 ∧ (kv.2 = None <-> column row e.2 = Sentinel))
        (elements (cls self)) els
  | Raise e =>
      (∃ before el after,
         elements (cls self) = before ++ el :: after ∧
         Forall (fun e' => ∀ x, column row e'.2 ≠ Unreadable x) before ∧
         column row el.2 = Unreadable e) ∨
      (Forall (fun e' => ∀ x, column row e'.2 ≠ Unreadable x) (elements (cls self)) ∧
       ∃ ec, ec ∈ converters (cls self) ∧ (ec.1 ∉ (elements (cls self)).*1) ∧
             e = Exn "KeyError" (field_name ec.1))
  end ∧
  ∀ u url path,
    Forall (fun c =>
              (∃ els, parse_elements (Parser c url path) row = Ok els) <->
              Forall (fun e => ∀ x, column row e.2 ≠ Unreadable x) (elements c))
      [TemperatureObservationsParser u; PrecipitationObservationsParser;
       WindObservationsParser; SunshineObservationsParser u;
       PressureObservationsParser u].
Proof.
  assert (∀ self : parser,
    match parse_elements self row with
    | Ok els =>
        Forall (fun e => ∀ x, column row e.2 ≠ Unreadable x) (elements (cls self)) ∧
        (∀ ec, ec ∈ converters (cls self) -> ec.1 ∈ (elements (cls self)).*1) ∧
        Forall2 (fun e kv => kv.1 = e.1 ∧ (kv.2 = None <-> column row e.2 = Sentinel))
          (elements (cls self)) els
    | Raise e =>
        (∃ before el after,
           elements (cls self) = before ++ el :: after ∧
           Forall (fun e' => ∀ x, column row e'.2 ≠ Unreadable x) before ∧
           column row el.2 = Unreadable e) ∨
        (Forall (fun e' => ∀ x, column row e'.2 ≠ Unreadable x) (elements (cls self)) ∧
         ∃ ec, ec ∈ converters (cls self) ∧ (ec.1 ∉ (elements (cls self)).*1) ∧
               e = Exn "KeyError" (field_name ec.1))
    end) as Hcases.
  { clear self. intros self. unfold parse_elements.
    pose proof (read_elements_cases row (elements (cls self))) as Hread.
    destruct (read_elements row (elements (cls self))) as [els0|e];
      cbn [mbind result_bind bind]; [|by left].
    destruct Hread as [Hall ->].
    set (els0 := map _ (elements (cls self))).
    assert (els0.*1 = (elements (cls self)).*1) as Hkeys.
    { unfold els0. rewrite <- list_fmap_compose. by apply list_fmap_ext. }
    pose proof (converters_cases (converters (cls self)) els0) as Hc.
    destruct (foldl _ _ _) as [els|e].
    - destruct Hc as [Hconv H]. rewrite Hkeys in Hconv. split; [done|]. split; [done|].
      unfold els0 in H. apply Forall2_fmap_l in H.
      apply Forall2_same_length_lookup. split; [by eapply Forall2_length|].
      intros i e kv He Hkv.
      destruct (Forall2_lookup_lr _ _ _ _ _ _ H He Hkv) as [-> ->]. simpl.
      split; [done|].
      pose proof (proj1 (Forall_lookup _ _) Hall i e He) as Hcell.
      simpl in Hcell.
      destruct (column row e.2) as [|q|x] eqn:E; simpl; [done|done|by destruct (Hcell x)].
    - right. split; [done|]. by rewrite Hkeys in Hc. }
  split; [apply Hcases|].
  intros u url path.
  assert (∀ c,
    (∀ ec, ec ∈ converters c -> ec.1 ∈ (elements c).*1) ->
    (∃ els, parse_elements (Parser c url path) row = Ok els) <->
    Forall (fun e => ∀ x, column row e.2 ≠ Unreadable x) (elements c)) as Hclass.
  { intros c Hconv. specialize (Hcases (Parser c url path)). cbn [cls] in Hcases. split.
    - intros [els E]. rewrite E in Hcases. by destruct Hcases.
    - intros Hall. destruct (parse_elements _ row) as [els|e]; [by eexists|].
      destruct Hcases as [(before & el & after & E & _ & Hel)|(_ & ec & Hec & Hn & _)].
      + rewrite E in Hall. apply Forall_app in Hall as [_ Hall].
        apply Forall_cons in Hall as [Hall _]. by destruct (Hall e).
      + destruct Hn. by apply Hconv. }
  repeat (apply Forall_cons; split); [..|by apply Forall_nil];
    apply Hclass; simpl; intros ec Hec;
    repeat (apply elem_of_cons in Hec as [->|Hec]; [simpl; left|]);
    by apply elem_of_nil in Hec.
Qed.

(** The instants [parse_rows] reads, and the ones it keeps. *)
Lemma parse_rows_timestamps st self filename history current reader :
  let out := parse_rows st self filename history current reader in
  let in_range (t : Z) :=
    bool_decide (MIN_DATE st ≤ t) &&
    match MAX_DATE st with Some max_date => bool_decide (t ≤ max_date) | None => true end in
  (timestamp <$> yielded out) `prefix_of` List.filter in_range (MESS_DATUM <$> reader) ∧
  (ended out = None ->
   timestamp <$> yielded out = List.filter in_range (MESS_DATUM <$> reader)).
Proof.
  intros out in_range. subst out. revert current.
  induction reader as [|row reader IH]; intros current; [done|].
  rewrite fmap_cons. cbn [parse_rows List.filter].
  assert (in_range (MESS_DATUM row) =
          negb (bool_decide (MESS_DATUM row < MIN_DATE st)) &&
          negb match MAX_DATE st with
               | Some max_date => bool_decide (MESS_DATUM row > max_date)
               | None => false
               end) as ->.
  { unfold in_range. destruct (MAX_DATE st); repeat case_bool_decide; simpl; try done; lia. }
  destruct (bool_decide (MESS_DATUM row < MIN_DATE st)); cbn [negb andb]; [apply IH|].
  destruct (match MAX_DATE st with Some _ => _ | None => _ end); cbn [negb]; [apply IH|].
  destruct (select_location _ _ _) as [[[[la lo] h] n]|]; simpl;
    [|split; [apply prefix_nil|done]].
  destruct (parse_elements self row); simpl; [|split; [apply prefix_nil|done]].
  destruct (IH (Some (la, lo, h, n))) as (IH2 & IH3).
  split; [by apply prefix_cons|]. intros He. f_equal. by apply IH3.
Qed.

(** [parse_records] yields records only for rows with
    [MIN_DATE ≤ timestamp ≤ MAX_DATE] (no upper limit when [MAX_DATE] is
    unset), in file order and without gaps up to the point where it stops;
    when it ends without an exception it has yielded one record for every
    such row of the product file. *)
Theorem parse_records_date_limits
    (st : settings) (self : parser) (zf : ZipFile) (history : list (Z * location))
    (filename : string) (reader : list product_row) :
  List.filter (fun fn => startswith fn "produkt_") (namelist zf) = [filename] ->
  zf_open zf filename = Ok (Product reader) ->
  let out := parse_records st self zf history in
  let in_range (t : Z) :=
    bool_decide (MIN_DATE st ≤ t) &&
    match MAX_DATE st with Some max_date => bool_decide (t ≤ max_date) | None => true end in
  (timestamp <$> yielded out) `prefix_of` List.filter in_range (MESS_DATUM <$> reader) ∧
  (ended out = None ->
   timestamp <$> yielded out = List.filter in_range (MESS_DATUM <$> reader)).
Proof.
  intros Hnames Hopen. unfold parse_records. rewrite Hnames, Hopen.
  apply parse_rows_timestamps.
Qed.

Lemma parse_records_date_limits_witness :
  let st := Settings 20 (Some 30) in
  let reader := [Examples.tu_row 15 (1 # 1)%Q; Examples.tu_row 25 (2 # 1)%Q;
                 Examples.tu_row 35 (3 # 1)%Q] in
  let zf : ZipFile :=
    [("Metadaten_Geographie_00044.txt",
      Geography [Examples.older_entry; Examples.newer_entry]);
     ("produkt_tu_stunde_akt_00044.txt", Product reader)] in
  let out := parse_records st Examples.akt_parser zf
               (history_of [Examples.older_entry; Examples.newer_entry]) in
  let in_range (t : Z) :=
    bool_decide (MIN_DATE st ≤ t) &&
    match MAX_DATE st with Some max_date => bool_decide (t ≤ max_date) | None => true end in
  timestamp <$> yielded out = [25] ∧
  (timestamp <$> yielded out) `prefix_of` List.filter in_range (MESS_DATUM <$> reader) ∧
  (ended out = None ->
   timestamp <$> yielded out = List.filter in_range (MESS_DATUM <$> reader)).
Proof.
  intros st reader zf out in_range. split; [reflexivity|].
  apply (parse_records_date_limits st Examples.akt_parser zf
           (history_of [Examples.older_entry; Examples.newer_entry])
           "produkt_tu_stunde_akt_00044.txt" reader); reflexivity.
Defined.

(** *** The location history as a dictionary *)

Lemma dict_set_keys {V} (k : Z) (v : V) (d : list (Z * V)) :
  (dict_set k v d).*1 = if decide (k ∈ d.*1) then d.*1 else d.*1 ++ [k].
Proof.
  induction d as [|[k' v'] d IH].
  - destruct (decide (k ∈ (@nil (Z * V)).*1)) as [Hin|]; [|done].
    by apply elem_of_nil in Hin.
  - cbn [dict_set]. case_bool_decide as E.
    + subst k'. destruct (decide (k ∈ ((k, v') :: d).*1)) as [|Hn]; [done|].
      destruct Hn. left.
    + rewrite fmap_cons, IH. cbn [fst].
      destruct (decide (k ∈ d.*1)) as [Hin|Hnin],
               (decide (k ∈ ((k', v') :: d).*1)) as [Hin'|Hnin']; try done.
      * destruct Hnin'. by right.
      * rewrite fmap_cons in Hin'.
        apply elem_of_cons in Hin' as [?|?]; [simpl in *; congruence|done].
Qed.

Lemma dict_set_NoDup {V} (k : Z) (v : V) (d : list (Z * V)) :
  NoDup d.*1 -> NoDup (dict_set k v d).*1.
Proof.
  intros Hnd. rewrite dict_set_keys. case_decide; [done|].
  apply NoDup_app. split_and!; [done| |apply NoDup_singleton].
  by intros x Hx ->%list_elem_of_singleton.
Qed.

Lemma dict_set_elem {V} (k : Z) (v : V) (d : list (Z * V)) k' v' :
  NoDup d.*1 ->
  (k', v') ∈ dict_set k v d <->
  (k' = k ∧ v' = v) ∨ (k' ≠ k ∧ (k', v') ∈ d).
Proof.
  induction d as [|[k0 v0] d IH]; simpl; intros Hnd.
  - rewrite list_elem_of_singleton. split.
    + intros [= -> ->]. by left.
    + intros [[-> ->]|[_ ?%elem_of_nil]]; done.
  - apply NoDup_cons in Hnd as [Hk0 Hnd]. specialize (IH Hnd).
    case_bool_decide as E; simpl.
    + subst k0. rewrite !elem_of_cons. split.
      * intros [[= -> ->]|Hin]; [by left|].
        destruct (decide (k' = k)) as [->|Hne].
        -- destruct Hk0. apply list_elem_of_fmap. by exists (k, v').
        -- right. split; [done|by right].
      * intros [[-> ->]|[Hne [[= -> ->]|Hin]]]; [by left|done|by right].
    + rewrite !elem_of_cons, IH. split.
      * intros [[= -> ->]|[[-> ->]|[Hne Hin]]].
        -- right. split; [done|by left].
        -- by left.
        -- right. split; [done|by right].
      * intros [[-> ->]|[Hne [[= -> ->]|Hin]]].
        -- right. by left.
        -- by left.
        -- right. by right.
Qed.

(** [parse_lat_lon_history] builds a dictionary: no date occurs twice, and
    a date is bound to the location of the last row of the geography file
    with that date. *)
Theorem history_of_last_row_wins (rows : list geography_row) :
  NoDup (history_of rows).*1 ∧
  ∀ date loc,
    (date, loc) ∈ history_of rows <->
    location_of <$> List.find (fun r => bool_decide (von_datum r = date)) (rev rows)
      = Some loc.
Proof.
  unfold history_of. induction rows as [|x rows [IHnd IH]] using rev_ind.
  - split; [constructor|]. intros date loc. split; [by intros ?%elem_of_nil|done].
  - rewrite foldl_app. cbn [foldl]. split; [by apply dict_set_NoDup|].
    intros date loc. rewrite dict_set_elem by done. rewrite rev_app_distr. simpl.
    case_bool_decide as E.
    + subst date. simpl. split.
      * intros [[_ ->]|[? _]]; done.
      * intros [= <-]. by left.
    + rewrite <- IH. split.
      * intros [[-> _]|[_ ?]]; done.
      * intros Hin. right. split; [congruence|done].
Qed.

(** A row that lies before every entry of the location history does not
    get a location of its own: as the first yielded row it ends the parse
    with [UnboundLocalError], after another one it is yielded with the
    location of the record before it. *)
Theorem row_before_location_history
    (st : settings) (self : parser) (filename : string) (history : list (Z * location))
    (row : product_row) (reader : list product_row) :
  MIN_DATE st ≤ MESS_DATUM row ->
  (∀ max_date, MAX_DATE st = Some max_date -> MESS_DATUM row ≤ max_date) ->
  (∀ entry, entry ∈ history -> MESS_DATUM row < entry.1) ->
  parse_rows st self filename history None (row :: reader) =
    Gen [] (Some (Exn "UnboundLocalError"
                    "local variable 'lat' referenced before assignment")) ∧
  ∀ previous els,
    parse_elements self row = Ok els ->
    head (yielded (parse_rows st self filename history (Some previous) (row :: reader))) =
    Some (Record_ ("Observations:Recent:" +:+ filename) previous.1.1.1 previous.1.1.2
            previous.1.2 previous.2 (MESS_DATUM row) els).
Proof.
  intros Hmin Hmax Hbefore.
  assert (∀ current, parse_rows st self filename history current (row :: reader) =
            match current with
            | None => Gen [] (Some (Exn "UnboundLocalError"
                                      "local variable 'lat' referenced before assignment"))
            | Some (lat, lon, height, station_name) =>
                match parse_elements self row with
                | Raise e => Gen [] (Some e)
                | Ok els =>
                    let rest := parse_rows st self filename history
                                  (Some (lat, lon, height, station_name)) reader in
                    Gen (Record_ ("Observations:Recent:" +:+ filename) lat lon height
                           station_name (MESS_DATUM row) els :: yielded rest) (ended rest)
                end
            end) as Hstep.
  { intros current. cbn [parse_rows].
    rewrite bool_decide_eq_false_2 by lia.
    rewrite (select_location_later history (MESS_DATUM row) current Hbefore).
    destruct (MAX_DATE st) as [max_date|]; [|done].
    rewrite bool_decide_eq_false_2; [done|]. specialize (Hmax max_date eq_refl). lia. }
  split; [apply Hstep|].
  intros [[[la lo] h] n] els Hels. rewrite Hstep, Hels. done.
Qed.

Lemma row_before_location_history_witness :
  let history := history_of [Examples.older_entry; Examples.newer_entry] in
  let row := Examples.tu_row 5 (1 # 1)%Q in
  MIN_DATE Examples.open_settings ≤ MESS_DATUM row ∧
  (∀ entry, entry ∈ history -> MESS_DATUM row < entry.1) ∧
  parse_rows Examples.open_settings Examples.akt_parser "produkt_tu.txt" history None [row]
  = Gen [] (Some (Exn "UnboundLocalError"
                    "local variable 'lat' referenced before assignment")).
Proof.
  intros history row.
  assert (∀ entry, entry ∈ history -> MESS_DATUM row < entry.1) as Hbefore.
  { intros entry Hin. apply elem_of_cons in Hin as [->|Hin]; [done|].
    apply elem_of_cons in Hin as [->|Hin]; [done|]. by apply elem_of_nil in Hin. }
  split; [done|]. split; [exact Hbefore|].
  apply (proj1 (row_before_location_history Examples.open_settings Examples.akt_parser
                  "produkt_tu.txt" history row [] ltac:(done) ltac:(done) Hbefore)).
Defined.

End observation_rows.

(** ** Strings *)

Section strings.
Import Parsers.

Lemma string_app_nil_l (s : string) : "" +:+ s = s.
Proof. reflexivity. Qed.

Lemma string_app_cons (c : ascii) (a b : string) :
  String c a +:+ b = String c (a +:+ b).
Proof. reflexivity. Qed.

Lemma string_app_nil_r (s : string) : s +:+ "" = s.
Proof. induction s as [|c s IH]; [done|]. by rewrite string_app_cons, IH. Qed.

Lemma string_app_assoc (a b c : string) : (a +:+ b) +:+ c = a +:+ (b +:+ c).
Proof. induction a as [|x a IH]; [done|]. by rewrite !string_app_cons, IH. Qed.

Lemma string_length_app (a b : string) :
  String.length (a +:+ b) = (String.length a + String.length b)%nat.
Proof. induction a as [|x a IH]; [done|]. rewrite string_app_cons. simpl. by rewrite IH. Qed.

Lemma substring_0_all (s : string) : String.substring 0 (String.length s) s = s.
Proof. induction s as [|c s IH]; simpl; by rewrite ?IH. Qed.

Lemma substring_app_r (p q : string) :
  String.substring (String.length p) (String.length q) (p +:+ q) = q.
Proof.
  induction p as [|c p IH]; [apply substring_0_all|]. by rewrite string_app_cons.
Qed.

Lemma substring_split (k : nat) (s : string) :
  (k ≤ String.length s)%nat ->
  s = String.substring 0 k s +:+ String.substring k (String.length s - k) s.
Proof.
  revert s. induction k as [|k IH]; intros s Hk.
  - rewrite Nat.sub_0_r, substring_0_all. by destruct s.
  - destruct s as [|c s]; simpl in *; [lia|].
    rewrite string_app_cons. f_equal. apply IH. lia.
Qed.

Lemma string_app_inj_suffix (p1 s1 p2 s2 : string) :
  p1 +:+ s1 = p2 +:+ s2 -> String.length s1 = String.length s2 -> p1 = p2 ∧ s1 = s2.
Proof.
  revert p2. induction p1 as [|c p1 IH]; intros [|c' p2] E Hlen;
    rewrite ?string_app_cons, ?string_app_nil_l in E.
  - done.
  - subst s1. simpl in Hlen. rewrite string_length_app in Hlen. lia.
  - subst s2. simpl in Hlen. rewrite string_length_app in Hlen. lia.
  - injection E as -> E. by destruct (IH p2 E Hlen) as [-> ->].
Qed.

(** [s.endswith(suffix)] *)
Lemma endswith_spec (s suffix : string) :
  endswith s suffix = true <-> ∃ p, s = p +:+ suffix.
Proof.
  unfold endswith. split.
  - case_match eqn:Hle; [|done]. apply Nat.leb_le in Hle.
    intros E%String.eqb_eq.
    exists (String.substring 0 (String.length s - String.length suffix) s).
    pose proof (substring_split (String.length s - String.length suffix) s) as Hsplit.
    replace (String.length s - (String.length s - String.length suffix))%nat
      with (String.length suffix) in Hsplit by lia.
    rewrite E in Hsplit. apply Hsplit. lia.
  - intros [p ->]. rewrite string_length_app.
    rewrite (proj2 (Nat.leb_le _ _)) by lia.
    replace (String.length p + String.length suffix - String.length suffix)%nat
      with (String.length p) by lia.
    rewrite substring_app_r. apply String.eqb_refl.
Qed.

(** [s.startswith(prefix)] *)
Lemma startswith_spec (s pre : string) :
  startswith s pre = true <-> ∃ r, s = pre +:+ r.
Proof.
  unfold startswith. revert s. induction pre as [|c pre IH]; intros s.
  - destruct s; simpl; split; eauto.
  - destruct s as [|c' s]; simpl.
    + split; [done|]. by intros [r [=]].
    + destruct (Ascii.ascii_dec c c') as [->|Hne].
      * rewrite IH. split; intros [r E]; exists r.
        -- by rewrite string_app_cons, E.
        -- rewrite string_app_cons in E. by injection E.
      * split; [done|]. intros [r E]. rewrite string_app_cons in E.
        injection E as ? _. done.
Qed.

(** [os.path.basename]: what follows the last slash. *)
Lemma basename_from_app (cur a b : string) :
  basename_from cur (a +:+ b) = basename_from (basename_from cur a) b.
Proof.
  revert cur. induction a as [|c a IH]; intros cur; [done|].
  rewrite string_app_cons. simpl. destruct (Ascii.eqb c "/"); apply IH.
Qed.

Lemma basename_from_split (cur s : string) :
  ∃ d, cur +:+ s = d +:+ basename_from cur s.
Proof.
  revert cur. induction s as [|c s IH]; intros cur; simpl.
  - exists "". by rewrite string_app_nil_r.
  - destruct (Ascii.eqb c "/").
    + destruct (IH "") as [d E]. rewrite string_app_nil_l in E.
      exists (cur +:+ String c d).
      by rewrite string_app_assoc, string_app_cons, <- E.
    + destruct (IH (cur +:+ String c "")) as [d E]. exists d.
      by rewrite <- E, string_app_assoc.
Qed.

Lemma basename_from_akt (cur : string) :
  basename_from cur "_akt.zip" = cur +:+ "_akt.zip".
Proof. simpl. by rewrite !string_app_assoc. Qed.

Lemma basename_from_hist (cur : string) :
  basename_from cur "_hist.zip" = cur +:+ "_hist.zip".
Proof. simpl. by rewrite !string_app_assoc. Qed.

End strings.

(** ** Observations: file names *)

Section file_names.
Import Py Parsers Parsers.ObservationsParser.

Lemma basename_endswith (path suffix : string) :
  (∀ cur, basename_from cur suffix = cur +:+ suffix) ->
  endswith (basename path) suffix = true <-> ∃ p, path = p +:+ suffix.
Proof.
  intros Hsuffix. rewrite endswith_spec. split.
  - intros [q E]. destruct (basename_from_split "" path) as [d Hd].
    rewrite string_app_nil_l in Hd. exists (d +:+ q).
    rewrite string_app_assoc, <- E. exact Hd.
  - intros [p ->]. exists (basename p). unfold basename.
    by rewrite basename_from_app, Hsuffix.
Qed.

Lemma akt_not_hist (p q : string) : p +:+ "_akt.zip" ≠ q +:+ "_hist.zip".
Proof.
  intros E. change "_hist.zip" with ("_" +:+ "hist.zip") in E.
  rewrite <- string_app_assoc in E.
  by apply string_app_inj_suffix in E as [_ [=]].
Qed.

(** [parse_observation_type] answers ['recent'] exactly for paths ending in
    [_akt.zip], ['historical'] exactly for paths ending in [_hist.zip], and
    raises [ValueError] for every other path. *)
Theorem parse_observation_type_by_suffix (self : parser) :
  match parse_observation_type self with
  | Ok t =>
      (t = "recent" ∧ ∃ p, path self = p +:+ "_akt.zip") ∨
      (t = "historical" ∧ ∃ p, path self = p +:+ "_hist.zip")
  | Raise e =>
      exn_class e = "ValueError" ∧
      (¬ ∃ p, path self = p +:+ "_akt.zip") ∧ (¬ ∃ p, path self = p +:+ "_hist.zip")
  end ∧
  (∀ p, path self = p +:+ "_akt.zip" -> parse_observation_type self = Ok "recent") ∧
  (∀ p, path self = p +:+ "_hist.zip" -> parse_observation_type self = Ok "historical").
Proof.
  pose proof (basename_endswith (path self) "_akt.zip" basename_from_akt) as Hakt.
  pose proof (basename_endswith (path self) "_hist.zip" basename_from_hist) as Hhist.
  unfold parse_observation_type.
  destruct (endswith (basename (path self)) "_akt.zip").
  - destruct (proj1 Hakt eq_refl) as [q Hq]. split_and!; [left; eauto|done|].
    intros p Hp. rewrite Hq in Hp. by apply akt_not_hist in Hp.
  - assert (¬ ∃ p, path self = p +:+ "_akt.zip") as Hna.
    { intros Hp. by apply Hakt in Hp. }
    destruct (endswith (basename (path self)) "_hist.zip").
    + destruct (proj1 Hhist eq_refl) as [q Hq]. split_and!; [right; eauto| |done].
      intros p Hp. destruct Hna. by exists p.
    + assert (¬ ∃ p, path self = p +:+ "_hist.zip") as Hnh.
      { intros Hp. by apply Hhist in Hp. }
      split_and!; [done|done|done| |].
      * intros p Hp. destruct Hna. by exists p.
      * intros p Hp. destruct Hnh. by exists p.
Qed.

(** *** The station id in the name of the geography file *)

Lemma strip_prefix_spec (pre s r : string) :
  strip_prefix pre s = Some r <-> s = pre +:+ r.
Proof.
  revert s. induction pre as [|c pre IH]; intros s.
  - simpl. rewrite string_app_nil_l. split; [by intros [= ->]|by intros ->].
  - rewrite string_app_cons. destruct s as [|c' s]; simpl; [done|].
    destruct (Ascii.eqb_spec c c') as [->|Hne].
    + rewrite IH. split; [by intros ->|by intros [= ->]].
    + split; [done|]. by intros [= ? _].
Qed.

Lemma take_digits_spec (s : string) :
  s = (take_digits s).1 +:+ (take_digits s).2 ∧
  digits_only (take_digits s).1 = true ∧
  match (take_digits s).2 with
  | String c _ => is_digit c = false
  | EmptyString => True
  end.
Proof.
  induction s as [|c s (IH1 & IH2 & IH3)]; simpl; [done|].
  destruct (is_digit c) eqn:Hc.
  - destruct (take_digits s) as [digits rest]. simpl in *.
    rewrite string_app_cons, Hc. by rewrite <- IH1.
  - simpl. by rewrite Hc.
Qed.

Lemma take_digits_app (digits rest : string) :
  digits_only digits = true ->
  match rest with String c _ => is_digit c = false | EmptyString => True end ->
  take_digits (digits +:+ rest) = (digits, rest).
Proof.
  intros Hd Hr. induction digits as [|c digits IH].
  - rewrite string_app_nil_l. destruct rest as [|c rest]; [done|]. simpl. by rewrite Hr.
  - simpl in Hd. apply andb_true_iff in Hd as [Hc Hd].
    rewrite string_app_cons. simpl. by rewrite Hc, IH.
Qed.

(** The regular expression [Metadaten_Geographie_(\d+)\.txt], matched at
    the start of a file name. *)
Lemma match_geography_name_spec (filename station_id : string) :
  match_geography_name filename = Some station_id <->
  station_id ≠ "" ∧ digits_only station_id = true ∧
  ∃ rest, filename = "Metadaten_Geographie_" +:+ station_id +:+ ".txt" +:+ rest.
Proof.
  unfold match_geography_name. split.
  - destruct (strip_prefix _ filename) as [r|] eqn:Hp; [|done].
    apply strip_prefix_spec in Hp.
    destruct (take_digits_spec r) as (Hr & Hd & _).
    destruct (take_digits r) as [digits rest]. simpl in *.
    destruct (String.eqb_spec digits "") as [|Hne]; [done|].
    destruct (startswith rest ".txt") eqn:Ht; [|done].
    apply startswith_spec in Ht as [rest' ->]. intros [= <-].
    split_and!; [done|done|]. exists rest'. by rewrite Hp, Hr.
  - intros (Hne & Hd & rest & ->).
    rewrite (proj2 (strip_prefix_spec "Metadaten_Geographie_" _ _) eq_refl).
    rewrite (take_digits_app station_id (".txt" +:+ rest) Hd) by done.
    destruct (String.eqb_spec station_id "") as [|_]; [done|].
    rewrite (proj2 (startswith_spec _ ".txt")) by by exists rest. done.
Qed.

(** [parse_station_id] returns the digits between [Metadaten_Geographie_]
    and [.txt] at the start of a member name, a non-empty string of
    digits; it raises [ValueError] exactly when no member name starts that
    way.  An archive with a member [Metadaten_Geographie_<digits>.txt] and
    no other geography file gives those digits back. *)
Theorem parse_station_id_cases (self : parser) (zf : ZipFile) :
  match parse_station_id self zf with
  | Ok station_id =>
      station_id ≠ "" ∧ digits_only station_id = true ∧
      ∃ name rest,
        name ∈ namelist zf ∧
        name = "Metadaten_Geographie_" +:+ station_id +:+ ".txt" +:+ rest
  | Raise e =>
      e = Exn "ValueError" ("Unable to parse station ID for " +:+ path self) ∧
      ∀ name, name ∈ namelist zf -> match_geography_name name = None
  end ∧
  ∀ digits,
    digits ≠ "" -> digits_only digits = true ->
    "Metadaten_Geographie_" +:+ digits +:+ ".txt" ∈ namelist zf ->
    (∀ name, name ∈ namelist zf ->
             name = "Metadaten_Geographie_" +:+ digits +:+ ".txt" ∨
             match_geography_name name = None) ->
    parse_station_id self zf = Ok digits.
Proof.
  unfold parse_station_id. split.
  - destruct (omap match_geography_name (namelist zf)) as [|station_id ids] eqn:E.
    + split; [done|]. intros name Hname.
      destruct (match_geography_name name) as [i|] eqn:Hm; [|done].
      assert (i ∈ omap match_geography_name (namelist zf)) as Hin.
      { apply list_elem_of_omap. by exists name. }
      rewrite E in Hin. by apply elem_of_nil in Hin.
    + assert (station_id ∈ omap match_geography_name (namelist zf)) as Hin
        by (rewrite E; left).
      apply list_elem_of_omap in Hin as (name & Hname & Hm).
      apply match_geography_name_spec in Hm as (Hne & Hd & rest & ->).
      split_and!; [done|done|]. eexists _, rest. by split.
  - intros digits Hne Hd Hin Hothers.
    assert (match_geography_name ("Metadaten_Geographie_" +:+ digits +:+ ".txt")
            = Some digits) as Hm.
    { apply match_geography_name_spec. split_and!; [done|done|].
      exists "". by rewrite string_app_nil_r. }
    destruct (omap match_geography_name (namelist zf)) as [|station_id ids] eqn:E.
    + assert (digits ∈ omap match_geography_name (namelist zf)) as Hin'.
      { apply list_elem_of_omap. by eexists. }
      rewrite E in Hin'. by apply elem_of_nil in Hin'.
    + assert (station_id ∈ omap match_geography_name (namelist zf)) as Hin'
        by (rewrite E; left).
      apply list_elem_of_omap in Hin' as (name & Hname & Hm').
      destruct (Hothers name Hname) as [->|Hnone]; congruence.
Qed.

Lemma parse_station_id_cases_witness :
  "00044" ≠ "" ∧ digits_only "00044" = true ∧
  "Metadaten_Geographie_" +:+ "00044" +:+ ".txt" ∈ namelist Examples.hist_zip ∧
  parse_station_id Examples.hist_parser Examples.hist_zip = Ok "00044".
Proof.
  assert ("Metadaten_Geographie_" +:+ "00044" +:+ ".txt" ∈ namelist Examples.hist_zip)
    as Hin by apply list_elem_of_here.
  split; [done|]. split; [done|]. split; [exact Hin|].
  apply (proj2 (parse_station_id_cases Examples.hist_parser Examples.hist_zip) "00044");
    [done|done|exact Hin|].
  intros name Hname. apply elem_of_cons in Hname as [->|Hname]; [by left|].
  apply elem_of_cons in Hname as [->|Hname]; [by right|]. by apply elem_of_nil in Hname.
Defined.

End file_names.

(** ** Observations: archives that are skipped *)

Section skipping.
Import Py Parsers Parsers.ObservationsParser.

Lemma length_substring (a b : nat) (s : string) :
  (a + b ≤ String.length s)%nat -> String.length (String.substring a b s) = b.
Proof.
  revert a b. induction s as [|c s IH]; intros [|a] [|b] H; simpl in *; try lia.
  - by rewrite IH by lia.
  - by rewrite IH by lia.
  - by rewrite IH by lia.
Qed.

Lemma string_length_0 (s : string) : String.length s = 0%nat -> s = "".
Proof. by destruct s. Qed.

Lemma string_length_S (n : nat) (s : string) :
  String.length s = S n -> ∃ c s', s = String c s' ∧ String.length s' = n.
Proof. destruct s as [|c s]; [done|]. intros [= H]. by exists c, s. Qed.

(** The regular expression [_(\d{8})_(\d{8})_hist\.zip$] finds its two
    groups only in a path of that shape. *)
Lemma search_hist_dates_shape (path g1 g2 : string) :
  search_hist_dates path = Some (g1, g2) ->
  ∃ pre,
    strip_final_newline path = pre +:+ "_" +:+ g1 +:+ "_" +:+ g2 +:+ "_hist.zip" ∧
    String.length g1 = 8%nat ∧ String.length g2 = 8%nat ∧
    digits_only g1 = true ∧ digits_only g2 = true.
Proof.
  unfold search_hist_dates. set (s := strip_final_newline path).
  destruct (27 <=? String.length s)%nat eqn:Hn; [|done]. apply Nat.leb_le in Hn.
  pose proof (substring_split (String.length s - 27) s ltac:(lia)) as Hs.
  replace (String.length s - (String.length s - 27))%nat with 27%nat in Hs by lia.
  pose proof (length_substring (String.length s - 27) 27 s ltac:(lia)) as Hlen.
  set (tail := String.substring (String.length s - 27) 27 s) in *.
  clearbody tail.
  do 27 (apply string_length_S in Hlen as (? & ? & -> & Hlen)).
  apply string_length_0 in Hlen as ->.
  cbn [String.substring].
  intros H. repeat case_match; try done. injection H as <- <-.
  repeat match goal with
         | H : _ && _ = true |- _ => apply andb_true_iff in H as [? ?]
         | H : String.eqb _ _ = true |- _ => apply String.eqb_eq in H
         end.
  simplify_eq. eexists. split; [exact Hs|]. done.
Qed.

Lemma akt_no_final_newline (p : string) :
  strip_final_newline (p +:+ "_akt.zip") = p +:+ "_akt.zip".
Proof.
  unfold strip_final_newline.
  destruct (endswith _ _) eqn:E; [|done].
  apply endswith_spec in E as [q E].
  change "_akt.zip" with ("_akt.zi" +:+ "p") in E.
  rewrite <- string_app_assoc in E.
  by apply string_app_inj_suffix in E as [_ [=]].
Qed.

(** [should_skip] answers [False], without raising, for every path that
    does not end in [_<8 digits>_<8 digits>_hist.zip] (a newline at the
    very end apart); in particular for every path ending in [_akt.zip]. *)
Theorem should_skip_only_dated_historical (st : settings) (self : parser) :
  (should_skip st self ≠ Ok false ->
   ∃ pre g1 g2,
     strip_final_newline (path self) = pre +:+ "_" +:+ g1 +:+ "_" +:+ g2 +:+ "_hist.zip" ∧
     String.length g1 = 8%nat ∧ String.length g2 = 8%nat ∧
     digits_only g1 = true ∧ digits_only g2 = true) ∧
  (∀ p, path self = p +:+ "_akt.zip" -> should_skip st self = Ok false).
Proof.
  split.
  - unfold should_skip.
    destruct (search_hist_dates (path self)) as [[g1 g2]|] eqn:E; [|done].
    intros _. apply search_hist_dates_shape in E as [pre E]. by exists pre, g1, g2.
  - intros p Hp. unfold should_skip.
    destruct (search_hist_dates (path self)) as [[g1 g2]|] eqn:E; [|done].
    apply search_hist_dates_shape in E as (pre & E & _).
    rewrite Hp, akt_no_final_newline in E.
    rewrite <- !string_app_assoc in E. by apply akt_not_hist in E.
Qed.

Lemma should_skip_only_dated_historical_witness :
  path Examples.akt_parser = "/cache/stundenwerte_TU_00044" +:+ "_akt.zip" ∧
  should_skip (Settings 1577836800 None) Examples.akt_parser = Ok false.
Proof.
  split; [reflexivity|].
  by apply (proj2 (should_skip_only_dated_historical (Settings 1577836800 None)
                     Examples.akt_parser) "/cache/stundenwerte_TU_00044").
Defined.

(** When [MIN_DATE] is a midnight (UTC) and [should_skip] answers [True]
    for an archive whose rows all lie between the two days of its file
    name, the last day included, [parse_records] would not have yielded a
    record for it either: every row is outside [MIN_DATE, MAX_DATE]. *)
Theorem skipped_archive_has_no_row_in_range
    (st : settings) (self : parser) (zf : ZipFile) (history : list (Z * location))
    (g1 g2 : string) (start_date end_date : Z) :
  search_hist_dates (path self) = Some (g1, g2) ->
  strptime_Ymd g1 = Ok start_date ->
  strptime_Ymd g2 = Ok end_date ->
  should_skip st self = Ok true ->
  (86400 | MIN_DATE st) ->
  (∀ filename reader row,
     zf_open zf filename = Ok (Product reader) -> row ∈ reader ->
     start_date ≤ MESS_DATUM row < end_date + 86400) ->
  yielded (parse_records st self zf history) = [].
Proof.
  intros Hsearch Hstart Hend Hskip [m Hmin] Hrows.
  assert (∃ k, end_date = 86400 * k) as [k Hk].
  { unfold strptime_Ymd in Hend. case_match; [|done]. injection Hend as <-. eauto. }
  unfold should_skip in Hskip. rewrite Hsearch, Hend in Hskip.
  cbn [mbind result_bind bind] in Hskip.
  assert (∀ t, start_date ≤ t < end_date + 86400 ->
               t < MIN_DATE st ∨ ∃ max_date, MAX_DATE st = Some max_date ∧ t > max_date)
    as Hout.
  { intros t Ht. destruct (decide (end_date < MIN_DATE st)) as [?|Hge]; [left; lia|].
    rewrite bool_decide_eq_false_2 in Hskip by done.
    destruct (MAX_DATE st) as [max_date|]; [|done].
    rewrite Hstart in Hskip. cbn [mbind result_bind bind] in Hskip.
    destruct (decide (start_date > max_date)) as [?|Hle].
    - right. exists max_date. split; [done|lia].
    - by rewrite bool_decide_eq_false_2 in Hskip by done. }
  clear Hskip.
  assert (∀ filename current reader,
            (∀ row, row ∈ reader -> start_date ≤ MESS_DATUM row < end_date + 86400) ->
            parse_rows st self filename history current reader = Gen [] None) as Hnone.
  { intros filename current reader Hin.
    induction reader as [|row reader IH]; [done|]. cbn [parse_rows].
    assert (parse_rows st self filename history current reader = Gen [] None) as Hrest.
    { apply IH. intros r Hr. apply Hin. by right. }
    destruct (Hout (MESS_DATUM row)) as [Hlt|(max_date & Hmax & Hgt)].
    - apply Hin. left.
    - by rewrite bool_decide_eq_true_2 by done.
    - rewrite Hmax. rewrite (bool_decide_eq_true_2 (MESS_DATUM row > max_date)) by done.
      by destruct (bool_decide (MESS_DATUM row < MIN_DATE st)). }
  unfold parse_records.
  destruct (List.filter _ _) as [|filename [|? ?]]; [done| |done].
  destruct (zf_open zf filename) as [[rows|reader|]|e] eqn:Hopen; try done.
  rewrite Hnone; [done|]. intros row Hrow. by eapply Hrows.
Qed.

Lemma skipped_archive_has_no_row_in_range_witness :
  let st := Settings 1577836800 None in
  search_hist_dates (path Examples.hist_parser) = Some ("20070401", "20191231") ∧
  strptime_Ymd "20070401" = Ok 1175385600 ∧
  strptime_Ymd "20191231" = Ok 1577750400 ∧
  should_skip st Examples.hist_parser = Ok true ∧
  (86400 | MIN_DATE st) ∧
  yielded (parse_records st Examples.hist_parser
             [("produkt_tu.txt", Product [Examples.tu_row 1577833200 (35 # 10)%Q])] [])
  = [].
Proof.
  intros st.
  assert (86400 | MIN_DATE st) as Hmidnight by (by exists 18262).
  split_and!; [vm_compute; reflexivity..|exact Hmidnight|].
  apply (skipped_archive_has_no_row_in_range st Examples.hist_parser _ []
           "20070401" "20191231" 1175385600 1577750400);
    [vm_compute; reflexivity..|exact Hmidnight|].
  intros filename reader row Hopen Hrow. unfold zf_open in Hopen.
  cbn [rev app List.find fst] in Hopen.
  destruct (String.eqb "produkt_tu.txt" filename); [|done]. cbn [snd] in Hopen.
  injection Hopen as <-. apply list_elem_of_singleton in Hrow. subst row.
  simpl. lia.
Defined.

End skipping.

(** ** Choosing the parser for a file name *)

Section dispatch.
Import Py Parsers Parsers.ObservationsParser.

(** What the two anchored patterns accept. *)
Lemma match_mosmix_spec (filename : string) :
  match_mosmix filename = true <->
  ∃ nl, at_end nl = true ∧ filename = "MOSMIX_S_LATEST_240.kmz" +:+ nl.
Proof.
  unfold match_mosmix. split.
  - destruct (strip_prefix _ filename) as [rest|] eqn:E; [|done].
    intros H. exists rest. split; [done|]. by apply strip_prefix_spec.
  - intros (nl & H & ->).
    by rewrite (proj2 (strip_prefix_spec _ _ nl) eq_refl).
Qed.

(** [\w{n}] takes [n] word characters off the front. *)
Lemma take_word_spec (n : nat) (s rest : string) :
  take_word n s = Some rest <->
  ∃ w, String.length w = n ∧ forallb is_word (String.list_ascii_of_string w) = true ∧
       s = w +:+ rest.
Proof.
  revert s. induction n as [|n IH]; intros s; cbn [take_word].
  - split.
    + intros [= ->]. by exists "".
    + intros ([|c w] & Hlen & _ & ->); [done|discriminate Hlen].
  - destruct s as [|c s].
    + split; [done|]. intros ([|c w] & Hlen & _ & Hs); [discriminate Hlen|].
      rewrite string_app_cons in Hs. discriminate Hs.
    + destruct (is_word c) eqn:Hc.
      * rewrite IH. split.
        -- intros (w & Hlen & Hw & ->). exists (String c w).
           cbn [String.length String.list_ascii_of_string forallb].
           rewrite Hc, Hw, Hlen. by rewrite string_app_cons.
        -- intros ([|c' w] & Hlen & Hw & Hs); [discriminate Hlen|].
           rewrite string_app_cons in Hs. injection Hs as <- ->.
           cbn [String.length String.list_ascii_of_string forallb] in Hlen, Hw.
           apply andb_prop in Hw as [_ Hw]. exists w.
           split_and!; [congruence|exact Hw|reflexivity].
      * split; [done|]. intros ([|c' w] & Hlen & Hw & Hs); [discriminate Hlen|].
        rewrite string_app_cons in Hs. injection Hs as <- ->.
        cbn [String.list_ascii_of_string forallb] in Hw.
        rewrite Hc in Hw. discriminate Hw.
Qed.

Lemma match_beob_spec (filename : string) :
  match_beob filename = true <->
  ∃ w nl,
    String.length w = 5%nat ∧ forallb is_word (String.list_ascii_of_string w) = true ∧
    at_end nl = true ∧ filename = w +:+ "-BEOB.csv" +:+ nl.
Proof.
  unfold match_beob. split.
  - destruct (take_word 5 filename) as [rest|] eqn:E; [|intros [=]].
    apply take_word_spec in E as (w & Hlen & Hw & ->).
    destruct (strip_prefix _ rest) as [nl|] eqn:E; [|intros [=]].
    apply strip_prefix_spec in E as ->.
    intros H. exists w, nl. split_and!; [exact Hlen|exact Hw|exact H|reflexivity].
  - intros (w & nl & Hlen & Hw & Hend & ->).
    assert (take_word 5 (w +:+ "-BEOB.csv" +:+ nl) = Some ("-BEOB.csv" +:+ nl)) as ->.
    { apply take_word_spec. exists w. split_and!; [exact Hlen|exact Hw|reflexivity]. }
    rewrite (proj2 (strip_prefix_spec _ _ nl) eq_refl). exact Hend.
Qed.

(** [get_parser] returns the class of the first pattern of the table that
    matches. *)
Lemma get_parser_first (filename : string) :
  get_parser filename =
  if match_mosmix filename then Some MOSMIX
  else if match_beob filename then Some CurrentObservations
  else if startswith filename "stundenwerte_FF_" then Some WindObservations
  else if startswith filename "stundenwerte_P0_" then Some PressureObservations
  else if startswith filename "stundenwerte_RR_" then Some PrecipitationObservations
  else if startswith filename "stundenwerte_SD_" then Some SunshineObservations
  else if startswith filename "stundenwerte_TU_" then Some TemperatureObservations
  else None.
Proof.
  unfold get_parser, parsers. cbn [List.find fst].
  by repeat case_match.
Qed.

Ltac shape H :=
  first
    [ apply match_mosmix_spec in H as (? & _ & H)
    | apply match_beob_spec in H as ([|? [|? [|? [|? [|? [|? ?]]]]]] & ? & [=] & _ & _ & H)
    | apply startswith_spec in H as (? & H) ].

Ltac clash H1 H2 :=
  exfalso; shape H1; shape H2; rewrite H1 in H2; clear H1;
  cbv [String.append] in H2; discriminate H2.

(** No file name is matched by two patterns of the table. *)
Lemma patterns_disjoint (filename : string) (p q : (string -> bool) * parser_class) :
  p ∈ parsers -> q ∈ parsers ->
  p.1 filename = true -> q.1 filename = true -> p = q.
Proof.
  unfold parsers. rewrite !elem_of_cons, !elem_of_nil.
  intros Hp Hq H1 H2.
  destruct Hp as [->|[->|[->|[->|[->|[->|[->|[]]]]]]]];
  destruct Hq as [->|[->|[->|[->|[->|[->|[->|[]]]]]]]];
  cbn [fst] in H1, H2; try reflexivity; clash H1 H2.
Qed.

(** The result of [get_parser] does not depend on the order of the
    dictionary [parsers]: whenever a pattern of the table matches the file
    name, whatever its position, [get_parser] returns the class registered
    with that pattern. *)
Theorem get_parser_any_order (filename : string) (pattern_parser : (string -> bool) * parser_class) :
  pattern_parser ∈ parsers -> pattern_parser.1 filename = true ->
  get_parser filename = Some pattern_parser.2.
Proof.
  intros Hin Hm. unfold get_parser.
  destruct (List.find _ parsers) as [q|] eqn:E.
  - apply find_some in E as [Hq Hqm]. apply list_elem_of_In in Hq.
    simpl. f_equal. f_equal. by apply (patterns_disjoint filename).
  - apply list_elem_of_In in Hin.
    by rewrite (find_none _ _ E _ Hin) in Hm.
Qed.


Ltac first_match :=
  rewrite get_parser_first; repeat case_match; try done; try congruence;
  match goal with
  | H1 : _ = true, H2 : _ = true |- _ => clash H1 H2
  end.

(** The file names (ASCII) each parser class is chosen for: the MOSMIX
    parser for [MOSMIX_S_LATEST_240.kmz] alone, the current-observations
    parser for five word characters followed by [-BEOB.csv] and nothing
    else (a final newline apart, as [$] allows), and each observations
    parser for every name that starts with its [stundenwerte_XX_] prefix,
    whatever follows. *)
Theorem get_parser_by_file_name (filename : string) :
  (get_parser filename = Some MOSMIX <->
   ∃ nl, at_end nl = true ∧ filename = "MOSMIX_S_LATEST_240.kmz" +:+ nl) ∧
  (get_parser filename = Some CurrentObservations <->
   ∃ w nl,
     String.length w = 5%nat ∧ forallb is_word (String.list_ascii_of_string w) = true ∧
     at_end nl = true ∧ filename = w +:+ "-BEOB.csv" +:+ nl) ∧
  (get_parser filename = Some WindObservations <->
   ∃ rest, filename = "stundenwerte_FF_" +:+ rest) ∧
  (get_parser filename = Some PressureObservations <->
   ∃ rest, filename = "stundenwerte_P0_" +:+ rest) ∧
  (get_parser filename = Some PrecipitationObservations <->
   ∃ rest, filename = "stundenwerte_RR_" +:+ rest) ∧
  (get_parser filename = Some SunshineObservations <->
   ∃ rest, filename = "stundenwerte_SD_" +:+ rest) ∧
  (get_parser filename = Some TemperatureObservations <->
   ∃ rest, filename = "stundenwerte_TU_" +:+ rest).
Proof.
  rewrite <- match_mosmix_spec, <- match_beob_spec, <- !startswith_spec.
  split_and!; (split; [|intros Hm]); first_match.
Qed.

Lemma get_parser_any_order_witness :
  let pattern_parser :=
    (fun filename => startswith filename "stundenwerte_TU_", TemperatureObservations) in
  pattern_parser ∈ parsers ∧
  pattern_parser.1 "stundenwerte_TU_00044_akt.zip" = true ∧
  get_parser "stundenwerte_TU_00044_akt.zip" = Some TemperatureObservations.
Proof.
  intros pattern_parser.
  assert (pattern_parser ∈ parsers) as Hin.
  { unfold parsers. rewrite !elem_of_cons. do 6 right. by left. }
  split; [exact Hin|]. split; [reflexivity|].
  exact (get_parser_any_order "stundenwerte_TU_00044_akt.zip" pattern_parser Hin eq_refl).
Defined.

End dispatch.

(** ** The directory walk of the poller *)

Section walk.
Import Py Parsers Polling.

Variable st : settings.
Variable u : units.
Variable cache_path : string -> string.
Variable get : string -> result (list anchor).

(** [f] is the entry [parse] makes for the anchor [a] of the page at [url]. *)
Local Notation "'entry_of' url a f" :=
  (∃ link parser_cls lm fs,
     Polling.link a = Some link ∧
     startswith link "." = false ∧ endswith link "/" = false ∧
     fingerprint a = Ok (lm, fs) ∧
     get_parser link = Some parser_cls ∧
     should_skip st u cache_path parser_cls (url +:+ link) = Ok false ∧
     f = FileInfo (url +:+ link) (class_name_of parser_cls) lm fs)
  (at level 10, url at level 9, a at level 9, f at level 9, only parsing).

(** Where the directories and files collected by the loop come from. *)
Lemma scan_anchor_sound (url : string) (acc acc' : list string * list file_info)
    (a : anchor) :
  scan_anchor st u cache_path url acc a = Ok acc' ->
  (∀ d, d ∈ acc'.1 -> d ∈ acc.1 ∨ ∃ link, d = url +:+ link) ∧
  (∀ f, f ∈ acc'.2 -> f ∈ acc.2 ∨ entry_of url a f).
Proof.
  unfold scan_anchor. destruct acc as [directories files].
  destruct (link a) as [l|] eqn:Hl; [|done].
  destruct (startswith l ".") eqn:Hdot; [intros [= <-]; auto|].
  destruct (endswith l "/") eqn:Hslash.
  { intros [= <-]. simpl. split; [|auto].
    intros d [Hd|Hd%list_elem_of_singleton]%elem_of_app; eauto. }
  destruct (fingerprint a) as [[lm fs]|e] eqn:Hfp; [|done]. simpl.
  destruct (get_parser l) as [parser_cls|] eqn:Hcls; [|intros [= <-]; auto].
  destruct (should_skip _ _ _ parser_cls _) as [[|]|e] eqn:Hskip; simpl; [| |done].
  { intros [= <-]; auto. }
  intros [= <-]. simpl. split; [auto|].
  intros f [Hf|Hf%list_elem_of_singleton]%elem_of_app; [by left|right].
  subst f. by exists l, parser_cls, lm, fs.
Qed.

Lemma scan_sound (url : string) (anchors : list anchor)
    (acc acc' : list string * list file_info) :
  scan st u cache_path url acc anchors = Ok acc' ->
  (∀ d, d ∈ acc'.1 -> d ∈ acc.1 ∨ ∃ link, d = url +:+ link) ∧
  (∀ f, f ∈ acc'.2 -> f ∈ acc.2 ∨ ∃ a, a ∈ anchors ∧ entry_of url a f).
Proof.
  revert acc. induction anchors as [|a anchors IH]; intros acc; simpl.
  { intros [= <-]. auto. }
  destruct (scan_anchor _ _ _ url acc a) as [acc1|e] eqn:E; [|done]. simpl.
  intros H. apply IH in H as [Hd Hf]. apply scan_anchor_sound in E as [Hd1 Hf1].
  split.
  - intros d Hin. destruct (Hd d Hin) as [H1|?]; [|by right]. by apply Hd1.
  - intros f Hin. destruct (Hf f Hin) as [H1|(a' & ? & ?)].
    + destruct (Hf1 f H1) as [?|?]; [by left|right].
      exists a. split; [apply list_elem_of_here|done].
    + right. exists a'. split; [by apply list_elem_of_further|done].
Qed.

Lemma yield_from_each_elem {A B : Type} (g : A -> gen B) (xs : list A) (y : B) :
  y ∈ yielded (yield_from_each g xs) -> ∃ x, x ∈ xs ∧ y ∈ yielded (g x).
Proof.
  induction xs as [|x xs IH]; simpl.
  { by intros ?%elem_of_nil. }
  destruct (ended (g x)) eqn:E.
  - intros H. exists x. split; [apply list_elem_of_here|done].
  - simpl. intros [H|H]%elem_of_app.
    + exists x. split; [apply list_elem_of_here|done].
    + destruct (IH H) as (x' & ? & ?). exists x'. split; [by apply list_elem_of_further|done].
Qed.

(** Every file [poll_url] yields was read off an anchor of a page it
    requested at or below [url]: the link neither starts with a dot nor
    ends in a slash, the listing line after it gave the time and size of
    the entry, [get_parser] knows the link, [should_skip] answered [False]
    for the file's URL, and the entry names that URL and the parser class.
    Nothing else is ever listed. *)
Theorem poll_url_lists_anchors_read (depth : nat) (url : string) (f : file_info) :
  f ∈ yielded (poll_url st u cache_path get depth url) ->
  ∃ below anchors a,
    get (url +:+ below) = Ok anchors ∧ a ∈ anchors ∧
    entry_of (url +:+ below) a f.
Proof.
  revert url. induction depth as [|depth IH]; intros url; simpl.
  { by intros ?%elem_of_nil. }
  destruct (get url) as [anchors|e] eqn:Hget; [|by intros ?%elem_of_nil].
  unfold parse.
  destruct (scan _ _ _ url _ anchors) as [[directories files]|e] eqn:Hscan;
    [|by intros ?%elem_of_nil].
  apply scan_sound in Hscan as [Hd Hf]. simpl in *.
  intros [Hin|Hin]%elem_of_app.
  - destruct (Hf f Hin) as [?%elem_of_nil|(a & Ha & Hentry)]; [done|].
    exists "", anchors, a. rewrite string_app_nil_r. done.
  - apply yield_from_each_elem in Hin as (d & Hdin & Hin).
    destruct (Hd d Hdin) as [?%elem_of_nil|[l ->]]; [done|].
    apply IH in Hin as (below & anchors' & a & Hget' & Ha & Hentry).
    exists (l +:+ below), anchors', a. rewrite <- string_app_assoc. done.
Qed.


(** The loop only appends. *)
Lemma scan_anchor_keeps (url : string) (acc acc' : list string * list file_info)
    (a : anchor) (f : file_info) :
  scan_anchor st u cache_path url acc a = Ok acc' -> f ∈ acc.2 -> f ∈ acc'.2.
Proof.
  unfold scan_anchor. destruct acc as [directories files].
  destruct (link a) as [l|]; [|done].
  destruct (startswith l "."); [by intros [= <-]|].
  destruct (endswith l "/"); [by intros [= <-]|].
  destruct (fingerprint a) as [[lm fs]|e]; [|done]. simpl.
  destruct (get_parser l) as [parser_cls|]; [|by intros [= <-]].
  destruct (should_skip _ _ _ parser_cls _) as [[|]|e]; simpl; [by intros [= <-]| |done].
  intros [= <-]. simpl. intros H. apply elem_of_app. by left.
Qed.

Lemma scan_keeps (url : string) (anchors : list anchor)
    (acc acc' : list string * list file_info) (f : file_info) :
  scan st u cache_path url acc anchors = Ok acc' -> f ∈ acc.2 -> f ∈ acc'.2.
Proof.
  revert acc. induction anchors as [|a anchors IH]; intros acc; simpl.
  { by intros [= <-]. }
  destruct (scan_anchor _ _ _ url acc a) as [acc1|e] eqn:E; [|done]. simpl.
  intros H Hin. apply (IH _ H). by apply (scan_anchor_keeps _ _ _ _ _ E).
Qed.

Lemma scan_app (url : string) (pre post : list anchor) (acc : list string * list file_info) :
  scan st u cache_path url acc (pre ++ post) =
  acc' ← scan st u cache_path url acc pre; scan st u cache_path url acc' post.
Proof.
  revert acc. induction pre as [|a pre IH]; intros acc; simpl; [done|].
  destruct (scan_anchor _ _ _ url acc a) as [acc1|e]; simpl; [apply IH|done].
Qed.

(** When the loop over the anchors of a page completes, every anchor that
    is a file link with a readable listing line, a parser and no reason to
    skip is yielded with the fingerprint of its line, whatever happens
    later in the directories below. *)
Theorem page_files_listed (depth : nat) (url : string) (anchors : list anchor)
    (directories : list string) (files : list file_info) (a : anchor)
    (link : string) (parser_cls : parser_class) (lm fs : Z) :
  get url = Ok anchors ->
  scan st u cache_path url ([], []) anchors = Ok (directories, files) ->
  a ∈ anchors ->
  Polling.link a = Some link ->
  startswith link "." = false -> endswith link "/" = false ->
  fingerprint a = Ok (lm, fs) ->
  get_parser link = Some parser_cls ->
  should_skip st u cache_path parser_cls (url +:+ link) = Ok false ->
  FileInfo (url +:+ link) (class_name_of parser_cls) lm fs ∈
    yielded (poll_url st u cache_path get (S depth) url).
Proof.
  intros Hget Hscan Hin Hl Hdot Hslash Hfp Hcls Hskip.
  cbn [poll_url]. rewrite Hget. unfold parse. rewrite Hscan. cbn [yielded].
  apply elem_of_app. left.
  apply list_elem_of_split in Hin as (pre & post & ->).
  rewrite scan_app in Hscan.
  destruct (scan _ _ _ url _ pre) as [[ds fls]|e] eqn:Hpre; [|done].
  cbn [mbind result_bind bind scan] in Hscan.
  destruct (scan_anchor _ _ _ url (ds, fls) a) as [acc1|e] eqn:Ha; [|done].
  cbn [mbind result_bind bind] in Hscan. apply (scan_keeps _ _ _ _ _ Hscan).
  unfold scan_anchor in Ha. rewrite Hl, Hdot, Hslash, Hfp in Ha. simpl in Ha.
  rewrite Hcls, Hskip in Ha. simpl in Ha. injection Ha as <-. simpl.
  apply elem_of_app. right. apply list_elem_of_here.
Qed.

(** One file link whose listing line cannot be read ends the walk of the
    page with that exception before anything is yielded: the entries
    collected from the anchors before it are lost, and nothing of the
    directories of the page is yielded either.  The link need not have a
    parser: the listing line is read before [get_parser] is asked. *)
Theorem unreadable_listing_line_discards_page (depth : nat) (url : string)
    (pre post : list anchor) (a : anchor) (acc : list string * list file_info)
    (link : string) (e : exn) :
  get url = Ok (pre ++ a :: post) ->
  scan st u cache_path url ([], []) pre = Ok acc ->
  Polling.link a = Some link ->
  startswith link "." = false -> endswith link "/" = false ->
  fingerprint a = Raise e ->
  poll_url st u cache_path get (S depth) url = Gen [] (Some e).
Proof.
  intros Hget Hpre Hl Hdot Hslash Hfp.
  cbn [poll_url]. rewrite Hget. unfold parse.
  rewrite scan_app, Hpre. simpl.
  unfold scan_anchor. destruct acc as [ds fls].
  by rewrite Hl, Hdot, Hslash, Hfp.
Qed.

End walk.

Section walk_examples.
Import Py Parsers Polling.

Lemma poll_url_lists_anchors_read_witness :
  let f := FileInfo "https://opendata.dwd.de/air_temperature/recent/stundenwerte_TU_00044_akt.zip"
             "TemperatureObservationsParser" 1600000000 2000 in
  f ∈ yielded (poll_url Examples.settings_2020 Examples.si_units Examples.cache_path
                 Examples.site 2 "https://opendata.dwd.de/air_temperature/") ∧
  ∃ below anchors a,
    Examples.site ("https://opendata.dwd.de/air_temperature/" +:+ below) = Ok anchors ∧
    a ∈ anchors ∧
    ∃ link parser_cls lm fs,
      Polling.link a = Some link ∧
      startswith link "." = false ∧ endswith link "/" = false ∧
      fingerprint a = Ok (lm, fs) ∧
      get_parser link = Some parser_cls ∧
      should_skip Examples.settings_2020 Examples.si_units Examples.cache_path parser_cls
        (("https://opendata.dwd.de/air_temperature/" +:+ below) +:+ link) = Ok false ∧
      f = FileInfo (("https://opendata.dwd.de/air_temperature/" +:+ below) +:+ link)
            (class_name_of parser_cls) lm fs.
Proof.
  intros f.
  assert (f ∈ yielded (poll_url Examples.settings_2020 Examples.si_units Examples.cache_path
                 Examples.site 2 "https://opendata.dwd.de/air_temperature/")) as Hin.
  { vm_compute. apply list_elem_of_here. }
  split; [exact Hin|].
  exact (poll_url_lists_anchors_read _ _ _ _ _ _ _ Hin).
Defined.

Lemma page_files_listed_witness :
  let url := "https://opendata.dwd.de/air_temperature/recent/" in
  let f := FileInfo (url +:+ "stundenwerte_TU_00044_akt.zip")
             (class_name_of TemperatureObservations) 1600000000 2000 in
  scan Examples.settings_2020 Examples.si_units Examples.cache_path url ([], [])
    [Anchor (Some "../") Examples.no_listing_line;
     Anchor (Some "DESCRIPTION_obsgermany.pdf") (Ok (1590000000, 70000));
     Anchor (Some "stundenwerte_TU_00044_akt.zip") (Ok (1600000000, 2000))] = Ok ([], [f]) ∧
  f ∈ yielded (poll_url Examples.settings_2020 Examples.si_units Examples.cache_path
                 Examples.site 1 url).
Proof.
  intros url f.
  assert (scan Examples.settings_2020 Examples.si_units Examples.cache_path url ([], [])
            [Anchor (Some "../") Examples.no_listing_line;
             Anchor (Some "DESCRIPTION_obsgermany.pdf") (Ok (1590000000, 70000));
             Anchor (Some "stundenwerte_TU_00044_akt.zip") (Ok (1600000000, 2000))]
          = Ok ([], [f])) as Hscan.
  { vm_compute. reflexivity. }
  split; [exact Hscan|].
  apply (page_files_listed Examples.settings_2020 Examples.si_units Examples.cache_path
           Examples.site 0 url _ [] [f]
           (Anchor (Some "stundenwerte_TU_00044_akt.zip") (Ok (1600000000, 2000)))
           "stundenwerte_TU_00044_akt.zip" TemperatureObservations 1600000000 2000
           eq_refl Hscan).
  - do 2 apply list_elem_of_further. apply list_elem_of_here.
  - reflexivity.
  - reflexivity.
  - reflexivity.
  - reflexivity.
  - vm_compute. reflexivity.
  - vm_compute. reflexivity.
Defined.

Lemma unreadable_listing_line_discards_page_witness :
  let url := "https://opendata.dwd.de/air_temperature/historical/" in
  let archive := "stundenwerte_TU_00044_20070401_20201231_hist.zip" in
  scan Examples.settings_2020 Examples.si_units Examples.cache_path url ([], [])
    [Anchor (Some archive) (Ok (1610000000, 90000))] =
  Ok ([], [FileInfo (url +:+ archive) "TemperatureObservationsParser" 1610000000 90000]) ∧
  poll_url Examples.settings_2020 Examples.si_units Examples.cache_path Examples.site 1 url =
  Gen [] (Some (Exn "AttributeError" "'NoneType' object has no attribute 'group'")).
Proof.
  intros url archive.
  assert (scan Examples.settings_2020 Examples.si_units Examples.cache_path url ([], [])
            [Anchor (Some archive) (Ok (1610000000, 90000))] =
          Ok ([], [FileInfo (url +:+ archive) "TemperatureObservationsParser"
                     1610000000 90000])) as Hpre.
  { vm_compute. reflexivity. }
  split; [exact Hpre|].
  apply (unreadable_listing_line_discards_page Examples.settings_2020 Examples.si_units
           Examples.cache_path Examples.site 0 url
           [Anchor (Some archive) (Ok (1610000000, 90000))] []
           (Anchor (Some "stundenwerte_TU_00071_20091201_20191231_hist.zip")
              Examples.no_listing_line)
           _ "stundenwerte_TU_00071_20091201_20191231_hist.zip" _ eq_refl Hpre);
    reflexivity.
Defined.

End walk_examples.

(** ** MOSMIX: from the forecast file to records *)

Section mosmix_file.
Import Py Parsers Parsers.MOSMIXParser.

Lemma all_fields_complete (f : field) : f ∈ all_fields.
Proof. unfold all_fields. destruct f; set_solver. Qed.

(** When every column has one value per timestamp, [zip] gives one row per
    timestamp, the [i]-th row holding the [i]-th value of every column. *)
Lemma zip_records_lookup (timestamps : list Z) (columns : field -> list (option Q)) :
  (∀ f, length (columns f) = length timestamps) ->
  length (zip_records timestamps columns) = length timestamps ∧
  ∀ i row, zip_records timestamps columns !! i = Some row ->
    timestamps !! i = Some row.1 ∧ ∀ f, columns f !! i = Some (mget f row.2).
Proof.
  revert columns. induction timestamps as [|t timestamps IH]; intros columns Hlen.
  { split; [done|]. intros i row. by rewrite lookup_nil. }
  cbn [zip_records].
  assert (forallb (fun f => negb (bool_decide (columns f = []))) all_fields = true) as ->.
  { apply forallb_forall. intros f _. apply negb_true_iff, bool_decide_eq_false.
    intros E. specialize (Hlen f). rewrite E in Hlen. done. }
  destruct (IH (fun f => tail (columns f))) as [IHlen IHrow].
  { intros f. specialize (Hlen f). destruct (columns f); simpl in *; lia. }
  split; [simpl; by rewrite IHlen|].
  intros [|i] row.
  - intros [= <-]. split; [done|]. intros f. specialize (Hlen f).
    destruct (columns f) as [|v col] eqn:E; [done|]. simpl.
    by destruct f; simpl; rewrite E.
  - intros Hrow. apply IHrow in Hrow as [Ht Hcol]. split; [done|].
    intros f. rewrite <- Hcol. by destruct (columns f).
Qed.

Lemma parse_station_complete (station_sel : placemark) (timestamps : list Z)
    (source : string) :
  (∀ f, length (forecast station_sel f) = length timestamps) ->
  parse_station station_sel timestamps source =
  Ok (map (fun row =>
             Record_ "forecast" source (name station_sel) (description station_sel)
               (coordinates station_sel).1.2 (coordinates station_sel).1.1
               (coordinates station_sel).2 row.1 row.2)
        (zip_records timestamps (forecast station_sel))).
Proof.
  intros Hlen. unfold parse_station. destruct (coordinates station_sel) as [[lon lat] height].
  assert (forallb (fun element_column : string * field =>
                     bool_decide (length (forecast station_sel element_column.2) =
                                  length timestamps)) ELEMENTS = true) as ->; [|done].
  apply forallb_forall. intros [element column] _. by apply bool_decide_eq_true.
Qed.

Lemma parse_station_short (station_sel : placemark) (timestamps : list Z)
    (source : string) (f : field) :
  length (forecast station_sel f) ≠ length timestamps ->
  parse_station station_sel timestamps source = Raise (Exn "AssertionError" "").
Proof.
  intros Hlen. unfold parse_station. destruct (coordinates station_sel) as [[lon lat] height].
  assert (forallb (fun element_column : string * field =>
                     bool_decide (length (forecast station_sel element_column.2) =
                                  length timestamps)) ELEMENTS = false) as ->; [|done].
  apply not_true_is_false. intros Hall.
  rewrite forallb_forall in Hall.
  assert (∃ element, In (element, f) ELEMENTS) as [element Hin].
  { unfold ELEMENTS. destruct f; eexists; simpl; eauto 10. }
  apply Hall in Hin. by apply bool_decide_eq_true in Hin.
Qed.

Lemma parse_station_rows (station_sel : placemark) (timestamps : list Z)
    (source : string) :
  (∀ f, length (forecast station_sel f) = length timestamps) ->
  ∃ records,
    parse_station station_sel timestamps source = Ok records ∧
    length records = length timestamps ∧
    ∀ i r, records !! i = Some r ->
      timestamps !! i = Some (timestamp r) ∧
      (∀ f, forecast station_sel f !! i = Some (get f r)) ∧
      observation_type r = "forecast" ∧ MOSMIXParser.source r = source ∧
      station_id r = name station_sel ∧ station_name r = description station_sel ∧
      (lon r, lat r, height r) = coordinates station_sel.
Proof.
  intros Hlen. rewrite parse_station_complete by done.
  destruct (zip_records_lookup timestamps (forecast station_sel) Hlen) as [Hn Hrow].
  eexists. split; [done|]. split; [by rewrite length_map|].
  intros i r Hr. rewrite list_lookup_fmap in Hr.
  destruct (zip_records _ _ !! i) as [row|] eqn:E; [|done].
  injection Hr as <-. apply Hrow in E as [Ht Hcol]. simpl.
  split_and!; try done. by destruct (coordinates station_sel) as [[] ?].
Qed.

(** [parse_station] turns the columns of a placemark into one record per
    timestamp: the [i]-th record holds the [i]-th timestamp, the [i]-th
    value of every column, and the name, description and coordinates of the
    station; it raises [AssertionError] as soon as one column has not
    exactly one value per timestamp. *)
Theorem parse_station_transposes (station_sel : placemark) (timestamps : list Z)
    (source : string) :
  ((∀ f, length (forecast station_sel f) = length timestamps) ->
   ∃ records,
     parse_station station_sel timestamps source = Ok records ∧
     length records = length timestamps ∧
     ∀ i r, records !! i = Some r ->
       timestamps !! i = Some (timestamp r) ∧
       (∀ f, forecast station_sel f !! i = Some (get f r)) ∧
       observation_type r = "forecast" ∧ MOSMIXParser.source r = source ∧
       station_id r = name station_sel ∧ station_name r = description station_sel ∧
       (lon r, lat r, height r) = coordinates station_sel) ∧
  (∀ f, length (forecast station_sel f) ≠ length timestamps ->
        parse_station station_sel timestamps source = Raise (Exn "AssertionError" "")).
Proof.
  split; [apply parse_station_rows|apply parse_station_short].
Qed.

Lemma parse_stations_cons (station_sel : placemark) (station_selectors : list placemark)
    (timestamps : list Z) (source : string) (records : list record) :
  parse_station station_sel timestamps source = Ok records ->
  (parse_stations (station_sel :: station_selectors) timestamps source).1 =
  Gen ((sanitize_records records).1 ++
       yielded (parse_stations station_selectors timestamps source).1)
      (ended (parse_stations station_selectors timestamps source).1).
Proof.
  intros E. cbn [parse_stations]. rewrite E.
  destruct (sanitize_records records) as [out logs].
  by destruct (parse_stations station_selectors timestamps source) as [g logs'].
Qed.

Lemma parse_stations_short (station_sel : placemark) (station_selectors : list placemark)
    (timestamps : list Z) (source : string) (f : field) :
  length (forecast station_sel f) ≠ length timestamps ->
  (parse_stations (station_sel :: station_selectors) timestamps source).1 =
  Gen [] (Some (Exn "AssertionError" "")).
Proof.
  intros Hlen. cbn [parse_stations].
  by rewrite (parse_station_short _ _ _ f Hlen).
Qed.

Lemma parse_stations_app (good rest : list placemark) (timestamps : list Z)
    (source : string) :
  Forall (fun station_sel => ∀ f, length (forecast station_sel f) = length timestamps)
    good ->
  (parse_stations (good ++ rest) timestamps source).1 =
  Gen (yielded (parse_stations good timestamps source).1 ++
       yielded (parse_stations rest timestamps source).1)
      (ended (parse_stations rest timestamps source).1).
Proof.
  induction 1 as [|station_sel good Hlen Hgood IH].
  { rewrite app_nil_l. by destruct (parse_stations rest timestamps source) as [[] ?]. }
  rewrite <- app_comm_cons.
  rewrite (parse_stations_cons station_sel (good ++ rest) _ _ _
             (parse_station_complete _ _ source Hlen)).
  rewrite (parse_stations_cons station_sel good _ _ _
             (parse_station_complete _ _ source Hlen)).
  rewrite IH. cbn [yielded ended]. by rewrite <- app_assoc.
Qed.

Lemma parse_stations_complete (good : list placemark) (timestamps : list Z)
    (source : string) :
  Forall (fun station_sel => ∀ f, length (forecast station_sel f) = length timestamps)
    good ->
  ended (parse_stations good timestamps source).1 = None ∧
  length (yielded (parse_stations good timestamps source).1) =
  (length good * length timestamps)%nat ∧
  ∀ k i station_sel t,
    good !! k = Some station_sel -> timestamps !! i = Some t ->
    ∃ r, yielded (parse_stations good timestamps source).1
           !! (k * length timestamps + i)%nat = Some r ∧
         station_id r = name station_sel ∧ station_name r = description station_sel ∧
         (lon r, lat r, height r) = coordinates station_sel ∧
         timestamp r = t ∧ MOSMIXParser.source r = source ∧
         ∀ f, f ≠ precipitation -> f ≠ wind_direction ->
              forecast station_sel f !! i = Some (get f r).
Proof.
  induction 1 as [|station_sel good Hlen Hgood (IHend & IHlen & IHrow)].
  { split_and!; [done..|]. intros k i station_sel t. by rewrite lookup_nil. }
  destruct (parse_station_rows station_sel timestamps source Hlen)
    as (records & Hrecords & Hn & Hrow).
  rewrite (parse_stations_cons _ _ _ _ _ Hrecords). cbn [yielded ended].
  pose proof (sanitize_records_length records) as Hsan.
  split_and!; [done|rewrite length_app; simpl; lia|].
  intros [|k] i sel' t Hk Ht.
  - injection Hk as <-. simpl.
    assert (i < length records)%nat as Hi.
    { rewrite Hn. by eapply lookup_lt_Some. }
    destruct (lookup_lt_is_Some_2 records i Hi) as [r0 Hr0].
    destruct (Hrow i r0 Hr0) as (Ht0 & Hcol & _ & Hsrc & Hid & Hname & Hcoord).
    pose proof (sanitize_records_pointwise
      (fun r r' =>
         station_id r' = station_id r ∧ station_name r' = station_name r ∧
         (lon r', lat r', height r') = (lon r, lat r, height r) ∧
         timestamp r' = timestamp r ∧ MOSMIXParser.source r' = MOSMIXParser.source r ∧
         ∀ f, f ≠ precipitation -> f ≠ wind_direction -> get f r' = get f r)) as Hpt.
    destruct (Forall2_lookup_l _ _ _ i r0 (Hpt ltac:(
      intros r; cbv zeta; destruct (and_lt _ _), (and_gt _ _);
        split_and!; try done; intros f ? ?;
        rewrite ?get_set_value_ne by done; done) records) Hr0)
      as (r & Hr & E1 & E2 & E3 & E4 & E5 & E6).
    exists r. rewrite lookup_app_l by lia.
    split_and!; try congruence.
    intros f ? ?. rewrite E6 by done. apply Hcol.
  - simpl in Hk. destruct (IHrow k i sel' t Hk Ht) as (r & Hr & ?).
    exists r. split; [|done].
    rewrite lookup_app_r by (simpl; lia).
    rewrite <- Hr. f_equal. simpl. lia.
Qed.

(** When every placemark has one value per timestamp in every column,
    [parse] ends normally after yielding one record per station and
    timestamp, station by station in the order of the file: the record at
    position [k * n + i] belongs to station [k] and timestamp [i], carries
    the source string of the file, and holds the [i]-th value of every
    column but the two the sanitizer may rewrite. *)
Theorem parse_yields_every_station (sel : kml) :
  Forall (fun station_sel =>
            ∀ f, length (forecast station_sel f) = length (TimeStep sel))
    (Placemarks sel) ->
  ended (parse sel).1 = None ∧
  length (yielded (parse sel).1) = (length (Placemarks sel) * length (TimeStep sel))%nat ∧
  ∀ k i station_sel t,
    Placemarks sel !! k = Some station_sel -> TimeStep sel !! i = Some t ->
    ∃ r, yielded (parse sel).1 !! (k * length (TimeStep sel) + i)%nat = Some r ∧
         station_id r = name station_sel ∧ station_name r = description station_sel ∧
         (lon r, lat r, height r) = coordinates station_sel ∧
         timestamp r = t ∧ source r = parse_source sel ∧
         ∀ f, f ≠ precipitation -> f ≠ wind_direction ->
              forecast station_sel f !! i = Some (get f r).
Proof. apply parse_stations_complete. Qed.

(** A placemark with a column that has not one value per timestamp ends
    [parse] with [AssertionError]: the records of the stations before it
    have been yielded, none of the stations after it is read. *)
Theorem parse_stops_at_short_column (sel : kml) (good rest : list placemark)
    (station_sel : placemark) (f : field) :
  Placemarks sel = good ++ station_sel :: rest ->
  Forall (fun station_sel =>
            ∀ f, length (forecast station_sel f) = length (TimeStep sel)) good ->
  length (forecast station_sel f) ≠ length (TimeStep sel) ->
  (parse sel).1 =
  Gen (yielded (parse (Kml (TimeStep sel) (ProductID_IssueTime sel) good)).1)
      (Some (Exn "AssertionError" "")).
Proof.
  intros Hsel Hgood Hshort. unfold parse, parse_timestamps, parse_source. simpl.
  rewrite Hsel, (parse_stations_app good _ _ _ Hgood).
  rewrite (parse_stations_short _ _ _ _ f Hshort). simpl.
  by rewrite app_nil_r.
Qed.

Lemma parse_station_transposes_witness :
  (∀ f, length (forecast Examples.jan_mayen f) = length [1584090000; 1584093600]) ∧
  (∃ records,
     parse_station Examples.jan_mayen [1584090000; 1584093600] "MOSMIX" = Ok records ∧
     length records = 2%nat) ∧
  length (forecast Examples.short_station temperature) ≠ length [1584090000; 1584093600] ∧
  parse_station Examples.short_station [1584090000; 1584093600] "MOSMIX" =
  Raise (Exn "AssertionError" "").
Proof.
  assert (∀ f, length (forecast Examples.jan_mayen f) = length [1584090000; 1584093600])
    as Hlen by done.
  assert (length (forecast Examples.short_station temperature) ≠
          length [1584090000; 1584093600]) as Hshort by (simpl; lia).
  split; [exact Hlen|]. split; [|split; [exact Hshort|]].
  - destruct (proj1 (parse_station_transposes Examples.jan_mayen
                       [1584090000; 1584093600] "MOSMIX") Hlen)
      as (records & Hrecords & Hn & _).
    exists records. split; [exact Hrecords|exact Hn].
  - exact (proj2 (parse_station_transposes Examples.short_station
                    [1584090000; 1584093600] "MOSMIX") temperature Hshort).
Defined.

Lemma parse_yields_every_station_witness :
  let sel := Examples.forecast_file [Examples.jan_mayen; Examples.jan_mayen] in
  Forall (fun station_sel =>
            ∀ f, length (forecast station_sel f) = length (TimeStep sel))
    (Placemarks sel) ∧
  ended (parse sel).1 = None ∧ length (yielded (parse sel).1) = 4%nat.
Proof.
  intros sel.
  assert (Forall (fun station_sel =>
                    ∀ f, length (forecast station_sel f) = length (TimeStep sel))
            (Placemarks sel)) as Hall.
  { repeat constructor. }
  split; [exact Hall|].
  destruct (parse_yields_every_station sel Hall) as (Hend & Hn & _).
  split; [exact Hend|exact Hn].
Defined.

Lemma parse_stops_at_short_column_witness :
  (parse (Examples.forecast_file
            [Examples.jan_mayen; Examples.short_station; Examples.jan_mayen])).1 =
  Gen (yielded (parse (Examples.forecast_file [Examples.jan_mayen])).1)
      (Some (Exn "AssertionError" "")).
Proof.
  apply (parse_stops_at_short_column
           (Examples.forecast_file
              [Examples.jan_mayen; Examples.short_station; Examples.jan_mayen])
           [Examples.jan_mayen] [Examples.jan_mayen] Examples.short_station temperature).
  - reflexivity.
  - repeat constructor.
  - simpl. lia.
Defined.

End mosmix_file.
